(** * metalsmith-layouts: a shallow embedding of [lib/index.js]

    The plugin applies layout templates to the files of a Metalsmith build.
    This development embeds the plugin constructor, the layout-path resolver,
    the selection loop, the per-file [convert] step with its render callback
    and the two-phase driver built on [async.each], and states the
    properties of the design document about them.

    JavaScript data is modelled as follows.
    - A JavaScript value is a [value]: [undefined], [null], booleans,
      integer-valued numbers, strings, Buffers, plain objects and functions.
      A plain object is the list of its own properties in insertion order,
      without repeated names.  A function is its source text together with
      what a call of it does; the plugin calls one function of its caller,
      the [exposeConsolidate] hook, and drops what it returns.
    - The file collection [files] is an object mapping file keys to file
      records, listed in the order of [Object.keys].  File records are
      mutated in place and are reached through several names
      ([files[file]], the captured [data]), so they live in a store ([heap])
      and the collection holds their locations.
    - [templates] and [matches] are objects used as maps and are listed in
      insertion order; the keys of [templates] are paths made by
      [metalsmith.path], which are absolute and so never name a property
      that an empty object inherits.
    - A synchronous exception is a result ([Throw]) or, in a run, the
      [thrown] field of the state.
    - The renders are asynchronous.  A run is its synchronous beginning
      followed by a trace of events: [async.each] starts [convert] on its
      next item, or the engine calls back for one of the renders in flight,
      in any order.  Properties of runs hold for every trace.
    - The consolidate module, [metalsmith.path], the pattern matcher and
      the partial reader belong to other packages and are parameters.  The
      module is read through [consolidate[name]], which finds its engines
      and whatever else it has under a name.
      [extend], [omit] and Node's [path] are modelled by what they do on the
      values above. *)

From stdpp Require Import gmap strings list pretty.
From Stdlib Require Import ZArith Ascii String.

Local Open Scope Z_scope.
Local Open Scope stdpp_scope.
Set Warnings "-register-all".

(** ** JavaScript values *)

Inductive exn :=
| TypeError (msg : string)
| Error (msg : string).

(** A function is [VFun text throws]: [text] is its source, [throws] the
    exception a call of it ends with, if any. *)
Inductive value :=
| VUndef
| VNull
| VBool (b : bool)
| VNum (n : Z)
| VStr (s : string)
| VBuf (s : string)
| VObj (props : list (string * value))
| VFun (text : string) (throws : option exn).

(** A plain object: its own enumerable properties, in insertion order. *)
Definition obj := list (string * value).

Inductive result (A : Type) :=
| Ok (a : A)
| Throw (e : exn).
Arguments Ok {A} a.
Arguments Throw {A} e.

(** Sequencing of statements that may throw: [x ← r; k]. *)
Global Instance result_bind : MBind result := λ A B k r,
  match r with
  | Ok a => k a
  | Throw e => Throw e
  end.

Global Instance exn_eq_dec : EqDecision exn.
Proof. solve_decision. Defined.

(** [!!v]: the falsy values are [undefined], [null], [false], [0] and the
    empty string. *)
Definition truthy (v : value) : bool :=
  match v with
  | VUndef | VNull => false
  | VBool b => b
  | VNum n => negb (n =? 0)
  | VStr s => negb (String.eqb s EmptyString)
  | VBuf _ | VObj _ | VFun _ _ => true
  end.

(** [a || b] *)
Definition js_or (a b : value) : value := if truthy a then a else b.

(** String conversion, as done by [+] with a string operand, by a property
    access [o[k]] and by [Buffer.prototype.toString]. *)
Definition to_string (v : value) : string :=
  match v with
  | VUndef => "undefined"
  | VNull => "null"
  | VBool true => "true"
  | VBool false => "false"
  | VNum n => pretty n
  | VStr s => s
  | VBuf s => s
  | VObj _ => "[object Object]"
  | VFun text _ => text
  end.

(** ** Objects as ordered property lists *)

Section Props.
Context {A : Type}.

(** [o[k]] on own properties. *)
Fixpoint get (k : string) (o : list (string * A)) : option A :=
  match o with
  | [] => None
  | (k', v) :: o' => if String.eqb k k' then Some v else get k o'
  end.

(** [o[k] = v]: an existing property keeps its place, a new one goes last. *)
Fixpoint set (k : string) (v : A) (o : list (string * A)) : list (string * A) :=
  match o with
  | [] => [(k, v)]
  | (k', v') :: o' =>
      if String.eqb k k' then (k, v) :: o' else (k', v') :: set k v o'
  end.

(** [delete o[k]] *)
Fixpoint del (k : string) (o : list (string * A)) : list (string * A) :=
  match o with
  | [] => []
  | (k', v') :: o' =>
      if String.eqb k k' then del k o' else (k', v') :: del k o'
  end.

(** [Object.keys(o)] *)
Definition keys (o : list (string * A)) : list string := map fst o.
End Props.

(** Reading a property of a plain object: a missing one is [undefined]. *)
Definition prop (o : obj) (k : string) : value :=
  match get k o with
  | Some v => v
  | None => VUndef
  end.

(** ** Strings *)

(** [s.split(c)] for a one-character separator: never the empty array. *)
Fixpoint split (c : ascii) (s : string) : list string :=
  match s with
  | EmptyString => [EmptyString]
  | String a s' =>
      if Ascii.eqb a c then EmptyString :: split c s'
      else match split c s' with
           | [] => [String a EmptyString]
           | seg :: segs => String a seg :: segs
           end
  end.

(** [arr.pop()]: the last element, [undefined] on the empty array. *)
Definition pop (l : list string) : option string := last l.

(** [/\./.test(s)] *)
Fixpoint has_dot (s : string) : bool :=
  match s with
  | EmptyString => false
  | String a s' => Ascii.eqb a "."%char || has_dot s'
  end.

(** ** Options and the plugin constructor *)

(** The options supported by metalsmith-layouts. *)
Definition settings : list string :=
  [ "default"; "directory"; "engine"; "partials"; "partialExtension";
    "layoutExtension"; "pattern"; "rename"; "exposeConsolidate"; "layoutKey" ].

(** [omit(o, names)] of lodash. *)
Definition omit (o : obj) (names : list string) : obj :=
  filter (fun kv => negb (existsb (String.eqb (fst kv)) names)) o.


(** ** The [path] module of Node (POSIX flavour) *)

Fixpoint chars (s : string) : list ascii :=
  match s with
  | EmptyString => []
  | String a s' => a :: chars s'
  end.

Fixpoint unchars (l : list ascii) : string :=
  match l with
  | [] => EmptyString
  | a :: l' => String a (unchars l')
  end.

Definition is_slash (a : ascii) : bool := Ascii.eqb a "/"%char.
Definition is_dot (a : ascii) : bool := Ascii.eqb a "."%char.

Fixpoint drop_while (f : ascii -> bool) (l : list ascii) : list ascii :=
  match l with
  | [] => []
  | a :: l' => if f a then drop_while f l' else l
  end.

Fixpoint take_until (f : ascii -> bool) (l : list ascii) : list ascii :=
  match l with
  | [] => []
  | a :: l' => if f a then [] else a :: take_until f l'
  end.

Fixpoint drop_until (f : ascii -> bool) (l : list ascii) : list ascii :=
  match l with
  | [] => []
  | a :: l' => if f a then l else drop_until f l'
  end.

Record parsed := { p_dir : string; p_base : string; p_ext : string; p_name : string }.

(** [path.parse(p)]: trailing slashes are ignored; [base] is the last
    segment and [dir] what precedes the slash in front of it; [ext] starts
    at the last dot of [base], unless that dot opens [base] or [base] is
    [".."]. *)
Definition path_parse (p : string) : parsed :=
  let absolute := match chars p with a :: _ => is_slash a | [] => false end in
  let r := drop_while is_slash (rev (chars p)) in
  let base_r := take_until is_slash r in
  let base := rev base_r in
  let dir :=
    match drop_until is_slash r with
    | _ :: d :: ds => unchars (rev (d :: ds))
    | _ => if absolute then "/" else EmptyString
    end in
  let ext_r := take_until is_dot base_r in
  let has_ext :=
    match drop_until is_dot base_r with
    | _ :: _ :: _ => negb (String.eqb (unchars base) "..")
    | _ => false
    end in
  if has_ext
  then {| p_dir := dir; p_base := unchars base;
          p_ext := unchars ("."%char :: rev ext_r);
          p_name := unchars (rev (tail (drop_until is_dot base_r))) |}
  else {| p_dir := dir; p_base := unchars base;
          p_ext := EmptyString; p_name := unchars base |}.

(** The segment walk of [path.normalize]: empty and ["."] segments vanish
    and [".."] removes the segment before it; above the start of a relative
    path [".."] is kept. *)
Fixpoint normalize_segs (allow_above : bool) (acc : list string) (segs : list string)
  : list string :=
  match segs with
  | [] => rev acc
  | seg :: segs' =>
      if String.eqb seg EmptyString || String.eqb seg "." then
        normalize_segs allow_above acc segs'
      else if String.eqb seg ".." then
        match acc with
        | prev :: acc' =>
            if String.eqb prev ".." then normalize_segs allow_above (seg :: acc) segs'
            else normalize_segs allow_above acc' segs'
        | [] =>
            if allow_above then normalize_segs allow_above [seg] segs'
            else normalize_segs allow_above [] segs'
        end
      else normalize_segs allow_above (seg :: acc) segs'
  end.

Fixpoint join_segs (segs : list string) : string :=
  match segs with
  | [] => EmptyString
  | [seg] => seg
  | seg :: segs' => seg +:+ "/" +:+ join_segs segs'
  end.

(** [path.normalize(p)] *)
Definition path_normalize (p : string) : string :=
  match chars p with
  | [] => "."
  | a :: _ =>
      let absolute := is_slash a in
      let trailing := match rev (chars p) with z :: _ => is_slash z | [] => false end in
      let body := join_segs (normalize_segs (negb absolute) [] (split "/" p)) in
      let body :=
        match body with
        | EmptyString => if absolute then EmptyString else if trailing then "./" else "."
        | _ => if trailing then body +:+ "/" else body
        end in
      if absolute then "/" +:+ body else body
  end.

(** [path.join(a, b)]: empty arguments are skipped. *)
Definition path_join (a b : string) : string :=
  match a, b with
  | EmptyString, EmptyString => "."
  | EmptyString, _ => path_normalize b
  | _, EmptyString => path_normalize a
  | _, _ => path_normalize (a +:+ "/" +:+ b)
  end.

(** The key a file gets when [rename] is set (lines 159-160). *)
Definition renamed (file : string) : string :=
  let fileInfo := path_parse file in
  path_join (p_dir fileInfo) (p_name fileInfo +:+ ".html").

(** ** [extend] (the node-extend package) *)

(** One assignment of [extend(true, target, options)]: a plain object is
    cloned into the plain object already under that name or into a new one,
    [undefined] is not brought in, anything else is assigned. *)
Fixpoint extend_deep_assign (name : string) (copy : value) (target : obj) : obj :=
  match copy with
  | VObj options =>
      let clone := match get name target with
                   | Some (VObj src) => src
                   | _ => []
                   end in
      set name
        (VObj ((fix each_name (options : list (string * value)) (target : obj) : obj :=
                  match options with
                  | [] => target
                  | (name, copy) :: options' =>
                      each_name options' (extend_deep_assign name copy target)
                  end) options clone))
        target
  | VUndef => target
  | _ => set name copy target
  end.

(** [extend(true, target, options)] *)
Definition extend_deep (target options : obj) : obj :=
  fold_left (fun target kv => extend_deep_assign (fst kv) (snd kv) target) options target.

(** One assignment of the shallow [extend(target, options)]. *)
Definition extend_assign (name : string) (copy : value) (target : obj) : obj :=
  match copy with
  | VUndef => target
  | _ => set name copy target
  end.

(** [extend(target, o1, o2, ...)] *)
Definition extend (target : obj) (sources : list obj) : obj :=
  fold_left
    (fun target options =>
       fold_left (fun target kv => extend_assign (fst kv) (snd kv) target) options target)
    sources target.

(** The render context of a file, lines 149-151: a deep clone of [params],
    then the site metadata, then the fields of the file. *)
Definition context (params metadata data : obj) : obj :=
  let clonedParams := extend_deep [] params in
  extend [] [clonedParams; metadata; data].

(** ** Errors of the renderer *)

Record js_error := { err_name : string; err_message : string }.

(** [Error.prototype.toString] *)
Definition error_to_string (e : js_error) : string :=
  match err_name e, err_message e with
  | EmptyString, m => m
  | n, EmptyString => n
  | n, m => n +:+ ": " +:+ m
  end.

Inductive render_result :=
| Rendered (str : string)
| Failed (err : js_error).

(** An engine of consolidate, [render(path, options, callback)], seen as
    what it hands to its callback. *)
Definition renderer := string -> obj -> render_result.

(** What the consolidate module has under a name: one of its engines, or
    something else that is not falsy.  Called the way an engine is, that
    throws, as [requires], which is an object and no function, or returns
    and never calls back, as [clearCache] and the functions every object
    inherits. *)
Inductive property :=
| Engine (render : renderer)
| Other (throws : option exn).

Global Instance js_error_eq_dec : EqDecision js_error.
Proof. solve_decision. Defined.

(** ** The plugin *)

Record config := {
  def : value;
  dir : value;
  engine : value;
  partialExtension : value;
  layoutExtension : value;
  partials : value;
  pattern : value;
  rename : value;
  layoutKey : value;
  params : obj
}.

Definition dquote : string := String "034"%char EmptyString.

Section Plugin.

(** [consolidate[name]]; a name under which the module has nothing gives
    [undefined]. *)
Variable consolidate : string -> option property.

(** [opts.name] for the argument of [plugin], which need not be an object. *)
Definition member (opts : value) (name : string) : value :=
  match opts with
  | VObj o => prop o name
  | _ => VUndef
  end.

(** Lines 58-63: no options are the empty object, a string names the
    engine. *)
Definition options (opts : value) : value :=
  let opts := js_or opts (VObj []) in
  match opts with
  | VStr s => VObj [("engine", VStr s)]
  | _ => opts
  end.

(** Lines 75-77: an [exposeConsolidate] option that is a function is
    called with [consolidate.requires].  What it does to that object
    concerns the engines, which are parameters here. *)
Definition expose (opts : value) : result unit :=
  match member opts "exposeConsolidate" with
  | VFun _ (Some e) => Throw e
  | _ => Ok tt
  end.

(** [plugin(opts)], lines 54-91. *)
Definition plugin (opts : value) : result config :=
  let opts := options opts in
  if negb (truthy (member opts "engine")) then
    Throw (Error (dquote +:+ "engine" +:+ dquote +:+ " option required"))
  else if negb (bool_decide (is_Some (consolidate (to_string (member opts "engine"))))) then
    Throw (Error ("Unknown template engine: " +:+ dquote
                  +:+ to_string (member opts "engine") +:+ dquote))
  else
    _ ← expose opts;
    Ok {| def := member opts "default";
          dir := js_or (member opts "directory") (VStr "layouts");
          engine := member opts "engine";
          partialExtension := member opts "partialExtension";
          layoutExtension := js_or (member opts "layoutExtension") (VStr EmptyString);
          partials := member opts "partials";
          pattern := member opts "pattern";
          rename := member opts "rename";
          layoutKey := js_or (member opts "layoutKey") (VStr "layout");
          params := omit (match opts with VObj o => o | _ => [] end) settings |}.

(** [getLayoutPath(layout)], lines 112-119.  [split] exists on strings
    only: on any other value the call is a TypeError. *)
Definition getLayoutPath (cfg : config) (layout : value) : result string :=
  let layout := js_or layout (def cfg) in
  match layout with
  | VStr s =>
      let seg := match pop (split "/" s) with
                 | Some seg => seg
                 | None => "undefined"
                 end in
      if negb (has_dot seg)
      then Ok (s +:+ "." +:+ to_string (layoutExtension cfg))
      else Ok s
  | VUndef | VNull =>
      Throw (TypeError ("Cannot read property 'split' of " +:+ to_string layout))
  | _ => Throw (TypeError "layout.split is not a function")
  end.

End Plugin.

(** ** One run of the plugin: [function(files, metalsmith, done)] *)

Record selection := {
  sel_heap : gmap nat obj;
  templates : list (string * string);
  matches : list (string * nat);
  sel_thrown : option exn
}.

(** A call of [render] whose callback has not run: the captured [data],
    the (possibly renamed) [file] and what the callback will be given, if
    what was called is an engine and so calls back. *)
Record pending := { p_data : nat; p_file : string; p_result : option render_result }.

(** Where the driver stands: [renderFiles] has not been called yet (the
    first [each], over the seeds, is running); it has been called with an
    error, which it passed to [done]; it has set up the second [each], over
    the followers, which is running; [done] has been called by the second
    [each]. *)
Inductive phase :=
| Seeds
| SeedsFailed (err : js_error)
| Followers
| Finished (err : option js_error).

Record state := {
  files : list (string * nat);
  heap : gmap nat obj;
  queue : list string;
  inflight : list pending;
  stage : phase;
  thrown : option exn
}.

(** What the event loop does next: the running [each] calls [convert] on
    its next item, or the engine calls back for one of the renders in
    flight. *)
Inductive event :=
| Start
| Deliver (i : nat).

Global Instance phase_eq_dec : EqDecision phase.
Proof. solve_decision. Defined.

Section Run.

Variable consolidate : string -> option property.
(** [metalsmith.path(dir, p)] *)
Variable mpath : value -> string -> string.
(** [match(file, pattern)[0]] of multimatch *)
Variable pmatch : string -> value -> bool.
(** [readPartials(partials, partialExtension, dir, metalsmith)] *)
Variable readPartials : string -> value -> value -> result value.

(** The record under [files[file]]. *)
Definition record (h : gmap nat obj) (fs : list (string * nat)) (file : string)
  : option obj :=
  l ← get file fs; h !! l.

(** Modelled from the spec: [helpers/check.js] is not among the sources.
    A file is skipped when a pattern is configured, its key does not match
    it and it has no explicit layout, or when no pattern is configured and
    neither the file nor the default supplies a layout. *)
Definition check (h : gmap nat obj) (fs : list (string * nat)) (file : string)
    (pattern def layoutKey : value) : bool :=
  let explicit :=
    match record h fs file with
    | Some data => truthy (prop data (to_string layoutKey))
    | None => false
    end in
  if truthy pattern
  then pmatch file pattern || explicit
  else explicit || truthy def.

(** The first half of the body of the selection loop, lines 125-132:
    the check, the coercion of [contents] to a string and the resolution
    of the template.  An exception leaves what was written before it. *)
Inductive visited :=
| Skipped
| Selected (h : gmap nat obj) (data : nat) (template : string)
| Aborted (h : gmap nat obj) (e : exn).

Definition visit (cfg : config) (fs : list (string * nat)) (h : gmap nat obj)
    (file : string) : visited :=
  if negb (check h fs file (pattern cfg) (def cfg) (layoutKey cfg)) then Skipped
  else
    match get file fs with
    | None => Aborted h (TypeError "Cannot read property 'contents' of undefined")
    | Some l =>
        match h !! l with
        | None => Aborted h (TypeError "Cannot read property 'contents' of undefined")
        | Some data =>
            match prop data "contents" with
            | VUndef | VNull =>
                Aborted h (TypeError "Cannot read property 'toString' of undefined")
            | contents =>
                let data := set "contents" (VStr (to_string contents)) data in
                let h := <[l := data]> h in
                match getLayoutPath cfg (prop data (to_string (layoutKey cfg))) with
                | Throw e => Aborted h e
                | Ok layout => Selected h l (mpath (dir cfg) layout)
                end
            end
        end
    end.

(** The body of the selection loop, lines 124-140: a file whose template
    has no seed yet becomes its seed, any other one a follower.  An
    exception ends the loop. *)
Definition select_file (cfg : config) (fs : list (string * nat))
    (acc : selection) (file : string) : selection :=
  match sel_thrown acc with
  | Some _ => acc
  | None =>
      match visit cfg fs (sel_heap acc) file with
      | Skipped => acc
      | Aborted h e =>
          {| sel_heap := h; templates := templates acc; matches := matches acc;
             sel_thrown := Some e |}
      | Selected h data template =>
          if match get template (templates acc) with
             | Some seed => truthy (VStr seed)
             | None => false
             end
          then {| sel_heap := h; templates := templates acc;
                  matches := set file data (matches acc); sel_thrown := None |}
          else {| sel_heap := h; templates := set template file (templates acc);
                  matches := matches acc; sel_thrown := None |}
      end
  end.

(** [Object.keys(files).forEach(...)] *)
Definition select (cfg : config) (fs : list (string * nat)) (h : gmap nat obj)
  : selection :=
  fold_left (select_file cfg fs) (keys fs)
    {| sel_heap := h; templates := []; matches := []; sel_thrown := None |}.

(** The call [render(str, clone, callback)] of line 164, for what
    [consolidate[engine]] is: an exception, or what the callback will be
    given, if it is ever called. *)
Definition call_render (render : option property) (str : string) (clone : obj)
  : result (option render_result) :=
  match render with
  | Some (Engine render) => Ok (Some (render str clone))
  | Some (Other None) => Ok None
  | Some (Other (Some e)) => Throw e
  | None => Throw (TypeError "render is not a function")
  end.

Definition crash (s : state) (e : exn) : state :=
  {| files := files s; heap := heap s; queue := queue s; inflight := inflight s;
     stage := stage s; thrown := Some e |}.

(** The synchronous part of [convert(file, done)], lines 145-164: up to
    and including the call of the engine. *)
Definition convert (cfg : config) (metadata : obj) (s : state) (file : string)
  : state :=
  match get file (files s) with
  | None => crash s (TypeError "Cannot read property of undefined")
  | Some l =>
      match heap s !! l with
      | None => crash s (TypeError "Cannot read property of undefined")
      | Some data =>
          let clone := context (params cfg) metadata data in
          match getLayoutPath cfg (prop data (to_string (layoutKey cfg))) with
          | Throw e => crash s e
          | Ok layout =>
              let str := mpath (dir cfg) layout in
              let fs := if truthy (rename cfg) then del file (files s) else files s in
              let file := if truthy (rename cfg) then renamed file else file in
              match call_render (consolidate (to_string (engine cfg))) str clone with
              | Throw e =>
                  {| files := fs; heap := heap s; queue := queue s;
                     inflight := inflight s; stage := stage s; thrown := Some e |}
              | Ok result =>
                  {| files := fs; heap := heap s; queue := queue s;
                     inflight := inflight s ++
                       [{| p_data := l; p_file := file; p_result := result |}];
                     stage := stage s; thrown := thrown s |}
              end
          end
      end
  end.

(** [renderFiles(err)], lines 182-187: an error of the first [each] goes
    to [done]; otherwise the second [each] is set up over
    [Object.keys(matches)], and is done at once when there is nothing to
    render. *)
Definition renderFiles (followers : list string) (s : state) (err : option js_error)
  : state :=
  match err with
  | Some e =>
      {| files := files s; heap := heap s; queue := queue s; inflight := inflight s;
         stage := SeedsFailed e; thrown := thrown s |}
  | None =>
      {| files := files s; heap := heap s; queue := followers; inflight := inflight s;
         stage := match followers with [] => Finished None | _ => Followers end;
         thrown := thrown s |}
  end.

(** The callback of the running [each], which async calls at most once:
    [renderFiles] for the first [each], [done] for the second. *)
Definition callback (followers : list string) (s : state) (err : option js_error)
  : state :=
  match stage s with
  | Seeds => renderFiles followers s err
  | Followers =>
      {| files := files s; heap := heap s; queue := queue s; inflight := inflight s;
         stage := Finished err; thrown := thrown s |}
  | SeedsFailed _ | Finished _ => s
  end.

(** An item of the running [each] has called back with an error. *)
Definition each_failed (followers : list string) (s : state) (err : js_error) : state :=
  callback followers s (Some err).

(** An item of the running [each] has been started or has called back
    without an error: the [each] is complete once all its items have been
    started and have called back.  An [each] whose loop was left by an
    exception never gets there. *)
Definition each_complete (followers : list string) (s : state) : state :=
  match thrown s, queue s, inflight s with
  | None, [], [] => callback followers s None
  | _, _, _ => s
  end.

(** The error of the engine with the message of lines 166-167. *)
Definition render_error (layout : value) (file : string) (err : js_error) : js_error :=
  {| err_name := err_name err;
     err_message :=
       "Error rendering template `" +:+ to_string layout +:+ "` for file `" +:+ file
       +:+ "`. " +:+ error_to_string err |}.

(** The callback given to the engine, lines 164-176, called with
    [result]. *)
Definition rendered (cfg : config) (followers : list string) (s : state) (p : pending)
    (result : render_result) : state :=
  match result with
  | Failed err =>
      let data := default [] (heap s !! p_data p) in
      each_failed followers s
        (render_error (prop data (to_string (layoutKey cfg))) (p_file p) err)
  | Rendered str =>
      each_complete followers
        {| files := set (p_file p) (p_data p) (files s);
           heap := alter (set "contents" (VBuf str)) (p_data p) (heap s);
           queue := queue s; inflight := inflight s; stage := stage s;
           thrown := thrown s |}
  end.

(** One step of the event loop.  An exception thrown by [convert] leaves
    the loop of the running [each]: nothing more is started, while the
    renders in flight may still call back.  An event that cannot happen,
    as the callback of a call that never calls back, is ignored. *)
Definition step (cfg : config) (metadata : obj) (followers : list string)
    (s : state) (ev : event) : state :=
  match ev with
  | Start =>
      match thrown s, queue s with
      | None, file :: rest =>
          each_complete followers
            (convert cfg metadata
               {| files := files s; heap := heap s; queue := rest;
                  inflight := inflight s; stage := stage s; thrown := thrown s |} file)
      | _, _ => s
      end
  | Deliver i =>
      match inflight s !! i with
      | None => s
      | Some p =>
          match p_result p with
          | None => s
          | Some result =>
              rendered cfg followers
                {| files := files s; heap := heap s; queue := queue s;
                   inflight := delete i (inflight s); stage := stage s;
                   thrown := thrown s |} p result
          end
      end
  end.

(** [params.partials], lines 104-110. *)
Definition with_partials (cfg : config) : result config :=
  if truthy (partials cfg) then
    v ← match partials cfg with
        | VStr s => readPartials s (partialExtension cfg) (dir cfg)
        | v => Ok v
        end;
    Ok {| def := def cfg; dir := dir cfg; engine := engine cfg;
          partialExtension := partialExtension cfg;
          layoutExtension := layoutExtension cfg; partials := partials cfg;
          pattern := pattern cfg; rename := rename cfg; layoutKey := layoutKey cfg;
          params := set "partials" v (params cfg) |}
  else Ok cfg.

(** Lines 121-190 once the partials are in [params]: the files are
    selected and the first [each] is set up.  An exception of the selection
    loop is not caught: nothing is rendered. *)
Definition begin (cfg : config) (fs : list (string * nat)) (h : gmap nat obj) : state :=
  let sel := select cfg fs h in
  match sel_thrown sel with
  | Some e =>
      {| files := fs; heap := sel_heap sel; queue := []; inflight := [];
         stage := Seeds; thrown := Some e |}
  | None =>
      each_complete (keys (matches sel))
        {| files := fs; heap := sel_heap sel; queue := map snd (templates sel);
           inflight := []; stage := Seeds; thrown := None |}
  end.

(** A run of [function(files, metalsmith, done)]: its synchronous
    beginning, then the events in the order the event loop takes them. *)
Definition run (cfg : config) (metadata : obj) (fs : list (string * nat))
    (h : gmap nat obj) (trace : list event) : state :=
  match with_partials cfg with
  | Throw e =>
      {| files := fs; heap := h; queue := []; inflight := []; stage := Seeds;
         thrown := Some e |}
  | Ok cfg =>
      fold_left (step cfg metadata (keys (matches (select cfg fs h)))) trace
        (begin cfg fs h)
  end.

(** The files the loop selects, in its order, each with the template it
    resolves to. *)
Fixpoint resolutions (cfg : config) (fs : list (string * nat)) (h : gmap nat obj)
    (todo : list string) : list (string * string) :=
  match todo with
  | [] => []
  | file :: todo' =>
      match visit cfg fs h file with
      | Skipped => resolutions cfg fs h todo'
      | Selected h' _ template => (file, template) :: resolutions cfg fs h' todo'
      | Aborted _ _ => []
      end
  end.

End Run.

(** A file record after line 131: its [contents] is a string. *)
Definition stringified (data : obj) : obj :=
  set "contents" (VStr (to_string (prop data "contents"))) data.

(** The files the loop has made a seed or a follower. *)
Definition chosen (sel : selection) (file : string) : Prop :=
  file ∈ map snd (templates sel) \/ file ∈ keys (matches sel).

(** What the loop has done once it is past the files [done]: a file it
    has not reached has its record as it was; one it has passed has its
    record as it was and is neither seed nor follower, or passed the check
    and has its [contents] coerced to a string. *)
Definition selecting (fs : list (string * nat)) (h : gmap nat obj) (passes : string -> bool)
    (done : list string) (acc : selection) : Prop :=
  (forall f, chosen acc f -> f ∈ done)
  /\ (forall f, f ∈ map snd (templates acc) -> f ∉ keys (matches acc))
  /\ (forall f l, get f (matches acc) = Some l -> get f fs = Some l)
  /\ (forall f l, get f fs = Some l -> f ∉ done -> sel_heap acc !! l = h !! l)
  /\ (forall f l, get f fs = Some l -> f ∈ done ->
        (sel_heap acc !! l = h !! l /\ ~ chosen acc f)
        \/ (passes f = true /\
            exists o, h !! l = Some o /\ sel_heap acc !! l = Some (stringified o))).

(** No follower has been started: the first [each] is running or has
    failed. *)
Definition in_phase_one (s : state) : Prop :=
  match stage s with
  | Seeds | SeedsFailed _ => True
  | Followers | Finished _ => False
  end.

(** A frame for the renders: only files named by [K] are waiting to be
    started, only records in [T] are in flight or have been put under a key,
    and the records outside [T] are as selection left them. *)
Definition confined (K : string -> Prop) (T : nat -> Prop) (fs0 : list (string * nat))
    (h0 : gmap nat obj) (s : state) : Prop :=
  (forall k, k ∈ queue s -> K k)
  /\ (forall p, p ∈ inflight s -> T (p_data p))
  /\ (forall k l, get k (files s) = Some l -> T l \/ get k fs0 = Some l)
  /\ (forall l, ~ T l -> heap s !! l = h0 !! l).

(** The records that are under a key or in flight. *)
Definition live (s : state) : list nat := map snd (files s) ++ map p_data (inflight s).

(** The first file of a list of resolutions that resolves to a template. *)
Fixpoint first_with (template : string) (rs : list (string * string)) : option string :=
  match rs with
  | [] => None
  | (file, t) :: rs' =>
      if String.eqb t template then Some file else first_with template rs'
  end.

(** The seeds are the files that are the first with their template, in
    their order; the followers are the other ones, in their order. *)
Definition partitioned (sel : selection) (rs : list (string * string)) : Prop :=
  (forall t, get t (templates sel) = first_with t rs)
  /\ map snd (templates sel)
     = map fst (filter (fun r => first_with (snd r) rs = Some (fst r)) rs)
  /\ keys (matches sel)
     = map fst (filter (fun r => first_with (snd r) rs <> Some (fst r)) rs).

(** The template of a file: the path of the layout that its record names
    once its [contents] is a string, or of the default. *)
Definition template_of (mpath : value -> string -> string) (cfg : config)
    (fs : list (string * nat)) (h : gmap nat obj) (file : string) : option string :=
  match record h fs file with
  | Some data =>
      match getLayoutPath cfg (prop (stringified data) (to_string (layoutKey cfg))) with
      | Ok layout => Some (mpath (dir cfg) layout)
      | Throw _ => None
      end
  | None => None
  end.

(** The files of a collection that pass the check, in its order. *)
Definition passing (pmatch : string -> value -> bool) (cfg : config)
    (fs : list (string * nat)) (h : gmap nat obj) : list string :=
  filter (fun file => check pmatch h fs file (pattern cfg) (def cfg) (layoutKey cfg) = true)
    (keys fs).

(** The files that pass the check and have a template, each with its
    template. *)
Definition selected (mpath : value -> string -> string) (pmatch : string -> value -> bool)
    (cfg : config) (fs : list (string * nat)) (h : gmap nat obj)
  : list (string * string) :=
  omap (fun file => t ← template_of mpath cfg fs h file; Some (file, t))
    (passing pmatch cfg fs h).

(** [plugin(opts)(files, metalsmith, done)]: a plugin that cannot be
    constructed is never given the files. *)
Definition build (consolidate : string -> option property)
    (mpath : value -> string -> string) (pmatch : string -> value -> bool)
    (readPartials : string -> value -> value -> result value)
    (opts : value) (metadata : obj) (fs : list (string * nat)) (h : gmap nat obj)
    (trace : list event) : result state :=
  cfg ← plugin consolidate opts;
  Ok (run consolidate mpath pmatch readPartials cfg metadata fs h trace).

(** [seg] is the last slash-separated segment of [s]: it has no slash and
    [s] is [seg] or ends with a slash followed by [seg]. *)
Definition no_slash (s : string) : bool := forallb (fun a => negb (is_slash a)) (chars s).

Definition last_segment_of (s seg : string) : Prop :=
  no_slash seg = true /\ (s = seg \/ exists d, s = d +:+ "/" +:+ seg).

(** A segment of a normalized path: not empty, without a slash, neither
    ["."] nor [".."]. *)
Definition plain (seg : string) : bool :=
  no_slash seg && negb (String.eqb seg EmptyString) && negb (String.eqb seg ".")
  && negb (String.eqb seg "..").

(** The options [plugin] works with when only the engine is named. *)
Definition defaults (name : string) : config :=
  {| def := VUndef; dir := VStr "layouts"; engine := VStr name;
     partialExtension := VUndef; layoutExtension := VStr EmptyString;
     partials := VUndef; pattern := VUndef; rename := VUndef;
     layoutKey := VStr "layout"; params := [] |}.

(** The first of two values that is not [undefined]. *)
Definition defined_or (v fallback : value) : value :=
  match v with
  | VUndef => fallback
  | _ => v
  end.

(** What the deep clone makes of one property of [params]. *)
Definition cloned (v : value) : value :=
  match v with
  | VObj o => VObj (extend_deep [] o)
  | _ => v
  end.

(** A value without [undefined] properties and without repeated property
    names, at any depth. *)
Fixpoint clean (v : value) : Prop :=
  match v with
  | VObj o =>
      NoDup (keys o) /\
      (fix each (o : list (string * value)) : Prop :=
         match o with
         | [] => True
         | (_, v) :: o' => v <> VUndef /\ clean v /\ each o'
         end) o
  | _ => True
  end.

Fixpoint size (v : value) : nat :=
  match v with
  | VObj o =>
      S ((fix each (o : list (string * value)) : nat :=
            match o with
            | [] => 0%nat
            | (_, v) :: o' => (size v + each o')%nat
            end) o)
  | _ => 1%nat
  end.

(** ** The outcome of the selection and of a run

    Predicates for the properties of whole runs. *)

(** A record the selection loop gets through: it has [contents], and the
    layout it names once [contents] is a string, or the default, resolves. *)
Definition renderable (cfg : config) (data : option obj) : bool :=
  match data with
  | None => false
  | Some o =>
      match prop o "contents" with
      | VUndef | VNull => false
      | _ =>
          match getLayoutPath cfg (prop (stringified o) (to_string (layoutKey cfg))) with
          | Ok _ => true
          | Throw _ => false
          end
      end
  end.

(** What the loop has found once it is past the files [done]: no file is
    the seed of two templates or a follower twice; as long as nothing has
    been thrown, every file that passes the check is renderable and is a
    seed or a follower; an exception comes from a file that passes the
    check and is not renderable. *)
Definition outcome (cfg : config) (fs : list (string * nat)) (h : gmap nat obj)
    (passes : string -> bool) (done : list string) (acc : selection) : Prop :=
  NoDup (map snd (templates acc)) /\ NoDup (keys (matches acc))
  /\ (sel_thrown acc = None ->
      forall f l, f ∈ done -> get f fs = Some l -> passes f = true ->
                  renderable cfg (h !! l) = true /\ chosen acc f)
  /\ (forall e, sel_thrown acc = Some e ->
      exists f l, f ∈ done /\ get f fs = Some l /\ passes f = true
                  /\ renderable cfg (h !! l) = false).

(** The key under which the callback of the engine stores a file, lines
    157-162: its own key, or the renamed one when [rename] is set. *)
Definition new_key (cfg : config) (file : string) : string :=
  if truthy (rename cfg) then renamed file else file.


(** What the engine hands to its callback for a record, when [convert]
    gets as far as calling an engine (lines 150-153 and 164). *)
Definition rendering (consolidate : string -> option property)
    (mpath : value -> string -> string) (cfg : config) (metadata data : obj)
  : option render_result :=
  match getLayoutPath cfg (prop data (to_string (layoutKey cfg))) with
  | Throw _ => None
  | Ok layout =>
      match consolidate (to_string (engine cfg)) with
      | Some (Engine render) =>
          Some (render (mpath (dir cfg) layout) (context (params cfg) metadata data))
      | _ => None
      end
  end.

(** The files that have not been handed to [convert] yet: the rest of the
    running [each] and, during the first one, the followers. *)
Definition waiting (followers : list string) (s : state) : list string :=
  queue s ++ match stage s with
             | Seeds => followers
             | _ => []
             end.

(** A run that cannot end well any more: an exception has left the loop of
    an [each], or [done] has been called with an error. *)
Definition failing (s : state) : Prop :=
  (thrown s <> None /\ stage s <> Finished None)
  \/ (exists e, stage s = SeedsFailed e)
  \/ (exists e, stage s = Finished (Some e)).

(** Every call of [each_complete] has had its effect. *)
Definition settled (s : state) : Prop :=
  queue s = [] -> inflight s = [] -> stage s = Finished None.

(** The books of a run that is going well, for the selected files, the
    waiting ones [W], the renders in flight [fl], the collection [F] and the
    store [H]: a waiting file is under its key with its record as selection
    left it; a render in flight is the one of a selected file that is not
    waiting, on its record as selection left it; the record of any other
    selected file has the rendered [contents]; the collection holds the
    finished files under their new keys and no started file under its old
    one. *)
Record charted (consolidate : string -> option property)
    (mpath : value -> string -> string) (cfg : config) (metadata : obj)
    (fs : list (string * nat)) (h1 : gmap nat obj) (selected : list string)
    (W : list string) (fl : list pending) (F : list (string * nat)) (H : gmap nat obj)
  : Prop := {
  ch_waiting : NoDup W;
  ch_selected : forall f, f ∈ W -> f ∈ selected;
  ch_keys : forall f, f ∈ W -> get f F = get f fs;
  ch_apart : forall f p, f ∈ W -> p ∈ fl -> get f fs <> Some (p_data p);
  ch_flights : NoDup (map p_data fl);
  ch_flight : forall p, p ∈ fl ->
    exists g data,
      g ∈ selected /\ get g fs = Some (p_data p) /\ p_file p = new_key cfg g
      /\ h1 !! p_data p = Some data /\ H !! p_data p = Some data
      /\ rendering consolidate mpath cfg metadata data = p_result p;
  ch_untouched : forall f l, f ∈ W -> get f fs = Some l -> H !! l = h1 !! l;
  ch_done : forall g l,
    g ∈ selected -> get g fs = Some l -> g ∉ W ->
    (forall p, p ∈ fl -> p_data p <> l) ->
    exists data str,
      h1 !! l = Some data
      /\ rendering consolidate mpath cfg metadata data = Some (Rendered str)
      /\ H !! l = Some (set "contents" (VBuf str) data);
  ch_new :
    (forall f g, f ∈ selected -> g ∈ selected -> new_key cfg f = new_key cfg g -> f = g) ->
    forall g l,
      g ∈ selected -> get g fs = Some l -> g ∉ W ->
      (forall p, p ∈ fl -> p_data p <> l) ->
      get (new_key cfg g) F = Some l;
  ch_other : forall k,
    k ∉ selected -> (forall g, g ∈ selected -> new_key cfg g <> k) ->
    get k F = get k fs;
  ch_old : truthy (rename cfg) = true ->
    forall k, k ∈ selected -> k ∉ W -> (forall g, g ∈ selected -> new_key cfg g <> k) ->
              get k F = None
}.

(** Once the first [each] is over, only followers are waiting or in
    flight. *)
Definition second_phase (fs : list (string * nat)) (followers : list string) (s : state)
  : Prop :=
  stage s <> Seeds ->
  (forall f, f ∈ queue s -> f ∈ followers)
  /\ (forall p, p ∈ inflight s -> exists g, g ∈ followers /\ get g fs = Some (p_data p)).

(** A run that is going well. *)
Definition tracked (consolidate : string -> option property)
    (mpath : value -> string -> string) (cfg : config) (metadata : obj)
    (fs : list (string * nat)) (h1 : gmap nat obj) (seeds followers : list string)
    (s : state) : Prop :=
  thrown s = None
  /\ (stage s = Seeds \/ stage s = Followers \/ stage s = Finished None)
  /\ (stage s = Finished None -> queue s = [] /\ inflight s = [])
  /\ second_phase fs followers s
  /\ charted consolidate mpath cfg metadata fs h1 (seeds ++ followers)
       (waiting followers s) (inflight s) (files s) (heap s).

(** The events of one [each] over [n] files whose engine answers later:
    every file is handed to [convert], then the renders call back in the
    order in which they were started. *)
Definition batch (n : nat) : list event := replicate n Start ++ replicate n (Deliver 0).

(** Two records that differ in their [contents] at most. *)
Definition same_fields (o o' : obj) : Prop :=
  forall k, k <> "contents" -> get k o' = get k o.

(** Two stores with the same records up to their [contents]. *)
Definition only_contents (h h' : gmap nat obj) : Prop :=
  forall l,
    match h !! l, h' !! l with
    | Some o, Some o' => same_fields o o'
    | None, None => True
    | _, _ => False
    end.

(** A run that is over when [done] has been called without an error. *)
Definition over (s : state) : Prop :=
  stage s = Finished None -> queue s = [] /\ inflight s = [] /\ thrown s = None.

(** ** A small site

    Two posts share the layout [post.html], a page uses the layout
    [broken.html], which the engine cannot render, and a stylesheet has no
    layout.  The engine stands for a Handlebars-like one with
    [<h1>{{title}}</h1>{{{contents}}}] as [post.html]. *)
Module Site.

Definition handlebars : renderer := fun path options =>
  if String.eqb path "layouts/post.html" then
    Rendered ("<h1>" +:+ to_string (prop options "title") +:+ "</h1>"
              +:+ to_string (prop options "contents"))
  else Failed {| err_name := "Error"; err_message := "ENOENT: " +:+ path |}.

(** The consolidate module: one engine, the [requires] object and the
    [clearCache] function. *)
Definition consolidate (name : string) : option property :=
  if String.eqb name "handlebars" then Some (Engine handlebars)
  else if String.eqb name "requires"
       then Some (Other (Some (TypeError "render is not a function")))
  else if String.eqb name "clearCache" then Some (Other None)
  else None.

Definition mpath (dir : value) (p : string) : string := to_string dir +:+ "/" +:+ p.

Definition pmatch (file : string) (pattern : value) : bool :=
  String.eqb (p_ext (path_parse file)) (to_string pattern).

Definition readPartials (partials : string) (partialExtension dir : value) : result value :=
  Ok (VObj []).

Definition files : list (string * nat) :=
  [("a.md", 0%nat); ("b.md", 1%nat); ("about.md", 2%nat); ("site.css", 3%nat)].

Definition heap : gmap nat obj :=
  list_to_map
    [(0%nat, [("title", VStr "A"); ("layout", VStr "post.html"); ("contents", VBuf "first")]);
     (1%nat, [("title", VStr "B"); ("layout", VStr "post.html"); ("contents", VBuf "second")]);
     (2%nat, [("title", VStr "About"); ("layout", VStr "broken.html");
              ("contents", VBuf "about")]);
     (3%nat, [("contents", VBuf "body {}")])].

Definition renaming : config :=
  {| def := VUndef; dir := VStr "layouts"; engine := VStr "handlebars";
     partialExtension := VUndef; layoutExtension := VStr EmptyString;
     partials := VUndef; pattern := VUndef; rename := VBool true;
     layoutKey := VStr "layout"; params := [] |}.

(** What the engine answers for the page, and its render in flight. *)
Definition enoent : js_error :=
  {| err_name := "Error"; err_message := "ENOENT: layouts/broken.html" |}.

Definition about (file : string) : pending :=
  {| p_data := 2%nat; p_file := file; p_result := Some (Failed enoent) |}.

(** The run of the plugin on the site. *)
Definition run (cfg : config) (trace : list event) : state :=
  run consolidate mpath pmatch readPartials cfg [] files heap trace.

(** The site without the page whose layout is broken. *)
Definition posts : list (string * nat) :=
  [("a.md", 0%nat); ("b.md", 1%nat); ("site.css", 3%nat)].

(** An engine that refuses a file without a title. *)
Definition strict : renderer := fun path options =>
  match prop options "title" with
  | VUndef => Failed {| err_name := "Error"; err_message := "title is not defined" |}
  | title => Rendered ("<h1>" +:+ to_string title +:+ "</h1>")
  end.

Definition engines (name : string) : option property :=
  if String.eqb name "strict" then Some (Engine strict) else Site.consolidate name.

(** Two drafts with the same layout, the second one without a title. *)
Definition drafts : list (string * nat) := [("one.md", 0%nat); ("two.md", 1%nat)].

Definition draft_heap : gmap nat obj :=
  list_to_map
    [(0%nat, [("title", VStr "One"); ("layout", VStr "post.html"); ("contents", VBuf "1")]);
     (1%nat, [("layout", VStr "post.html"); ("contents", VBuf "2")])].

End Site.

(** Closed goals are settled by evaluation. *)
Ltac by_compute := vm_compute; reflexivity.
Ltac by_decide := apply (bool_decide_unpack _); vm_compute; exact I.

(** * Properties *)

(** ** Property lists *)

Section PropsFacts.
Context {A : Type}.
Implicit Types (o : list (string * A)) (k : string) (v : A).

Lemma get_set_eq k v o : get k (set k v o) = Some v.
Proof.
  induction o as [|[k' v'] o IH]; simpl.
  - by rewrite String.eqb_refl.
  - destruct (String.eqb_spec k k') as [->|Hne]; simpl.
    + by rewrite String.eqb_refl.
    + by destruct (String.eqb_spec k k').
Qed.

Lemma get_set_ne k k' v o : k ≠ k' → get k' (set k v o) = get k' o.
Proof.
  intros Hne. induction o as [|[k0 v0] o IH]; simpl.
  - by destruct (String.eqb_spec k' k) as [->|].
  - destruct (String.eqb_spec k k0) as [Heq|Hk]; simpl.
    + destruct (String.eqb_spec k' k) as [Heq'|]; [by subst|].
      destruct (String.eqb_spec k' k0) as [Heq'|]; [by subst|done].
    + by rewrite IH.
Qed.

Lemma get_set k k' v o :
  get k' (set k v o) = if decide (k = k') then Some v else get k' o.
Proof.
  case_decide as Hk; [subst; apply get_set_eq | by apply get_set_ne].
Qed.

Lemma get_del_eq k o : get k (del k o) = None.
Proof.
  induction o as [|[k' v'] o IH]; simpl; [done|].
  destruct (String.eqb_spec k k') as [->|Hne]; simpl; [done|].
  by destruct (String.eqb_spec k k').
Qed.

Lemma get_del_ne k k' o : k ≠ k' → get k' (del k o) = get k' o.
Proof.
  intros Hne. induction o as [|[k0 v0] o IH]; simpl; [done|].
  destruct (String.eqb_spec k k0) as [->|Hk]; simpl.
  - by destruct (String.eqb_spec k' k0) as [->|].
  - by rewrite IH.
Qed.

Lemma get_None_keys k o : get k o = None ↔ k ∉ keys o.
Proof.
  induction o as [|[k' v'] o IH]; simpl.
  - split; [intros _; apply not_elem_of_nil | done].
  - rewrite not_elem_of_cons. destruct (String.eqb_spec k k') as [->|Hne].
    + split; [done | by intros [? _]].
    + rewrite IH. tauto.
Qed.

Lemma get_Some_elem k v o : get k o = Some v → (k, v) ∈ o.
Proof.
  induction o as [|[k' v'] o IH]; simpl; [done|].
  destruct (String.eqb_spec k k') as [->|Hne].
  - intros [= ->]. apply list_elem_of_here.
  - intros. apply list_elem_of_further. auto.
Qed.

Lemma keys_set_in k v o : k ∈ keys o → keys (set k v o) = keys o.
Proof.
  induction o as [|[k' v'] o IH]; cbn [set keys map fst].
  - intros H. by apply elem_of_nil in H.
  - intros [->|Hin]%elem_of_cons.
    + by rewrite String.eqb_refl.
    + destruct (String.eqb_spec k k') as [Heq|Hne]; [by subst|].
      cbn [map fst]. f_equal. by apply IH.
Qed.

Lemma keys_set_notin k v o : k ∉ keys o → keys (set k v o) = keys o ++ [k].
Proof.
  induction o as [|[k' v'] o IH]; cbn [set keys map fst]; [done|].
  intros [Hne Hin]%not_elem_of_cons.
  destruct (String.eqb_spec k k') as [Heq|_]; [done|].
  cbn [map fst app]. f_equal. by apply IH.
Qed.

Lemma NoDup_keys_set k v o : NoDup (keys o) → NoDup (keys (set k v o)).
Proof.
  intros Hnd. destruct (decide (k ∈ keys o)) as [Hin|Hin].
  { by rewrite keys_set_in. }
  rewrite keys_set_notin by done. apply NoDup_app. split_and!; [done| |apply NoDup_singleton].
  intros x Hx ->%list_elem_of_singleton. done.
Qed.

End PropsFacts.

(** ** Strings *)

Lemma append_cons (a : ascii) (s t : string) : String a s +:+ t = String a (s +:+ t).
Proof. reflexivity. Qed.

Lemma append_nil (t : string) : EmptyString +:+ t = t.
Proof. reflexivity. Qed.

Lemma append_empty_r (s : string) : s +:+ EmptyString = s.
Proof. induction s as [|a s IH]; [done | by rewrite append_cons, IH]. Qed.

Lemma split_cons (c : ascii) (s : string) : exists seg segs, split c s = seg :: segs.
Proof.
  destruct s as [|a s]; simpl; [by eauto|].
  destruct (Ascii.eqb a c); [by eauto|].
  destruct (split c s); eauto.
Qed.

Lemma split_append (c : ascii) (d s : string) :
  split c (d +:+ String c s) = split c d ++ split c s.
Proof.
  induction d as [|a d IH]; rewrite ?append_cons, ?append_nil; simpl.
  - by rewrite Ascii.eqb_refl.
  - destruct (Ascii.eqb a c); [by rewrite IH|].
    rewrite IH. destruct (split_cons c d) as (seg & segs & ->). done.
Qed.

Lemma split_no_slash (s : string) : no_slash s = true -> split "/" s = [s].
Proof.
  unfold no_slash, is_slash. induction s as [|a s IH]; simpl; [done|].
  intros [Ha Hs]%andb_prop. apply negb_true_iff in Ha. rewrite Ha.
  by rewrite IH.
Qed.

Lemma pop_last_segment (s seg : string) :
  last_segment_of s seg -> pop (split "/" s) = Some seg.
Proof.
  intros [Hseg [->|[d ->]]]; unfold pop.
  - by rewrite split_no_slash.
  - change (d +:+ "/" +:+ seg) with (d +:+ String "/" seg).
    rewrite split_append, (split_no_slash seg) by done. apply last_snoc.
Qed.

(** ** The layout-path resolver *)

(** C4, as stated, fails: with neither a layout nor a default the resolver
    does not return an empty identifier, it raises a TypeError. *)
Lemma getLayoutPath_absent_throws :
  getLayoutPath (defaults "handlebars") VUndef
  = Throw (TypeError "Cannot read property 'split' of undefined").
Proof. reflexivity. Qed.

(** C4, amended: the resolver returns a path, whatever the extension,
    whenever the layout or, when the layout is absent or empty, the default
    is a string; in every other case, as when both are absent, it raises a
    TypeError. *)
Theorem getLayoutPath_returns (cfg : config) (layout : value) :
  (forall id, (if truthy layout then layout else def cfg) = VStr id ->
              exists p, getLayoutPath cfg layout = Ok p)
  /\ ((forall id, (if truthy layout then layout else def cfg) <> VStr id) ->
      exists msg, getLayoutPath cfg layout = Throw (TypeError msg)).
Proof.
  unfold getLayoutPath, js_or. split.
  - intros id ->. destruct (negb _); eauto.
  - intros Hid.
    destruct (if truthy layout then layout else def cfg) as [| |b|n|s|s|o|text throws]; eauto.
    by destruct (Hid s).
Qed.

Lemma getLayoutPath_returns_witness :
  (if truthy (VStr "post") then VStr "post" else def (defaults "handlebars")) = VStr "post"
  /\ (exists p, getLayoutPath (defaults "handlebars") (VStr "post") = Ok p)
  /\ (forall id,
        (if truthy (VBool false) then VBool false else def (defaults "handlebars"))
        <> VStr id)
  /\ (exists msg, getLayoutPath (defaults "handlebars") (VBool false) = Throw (TypeError msg)).
Proof.
  split_and!.
  - reflexivity.
  - apply (getLayoutPath_returns (defaults "handlebars") (VStr "post") : _ /\ _) with "post".
    reflexivity.
  - discriminate.
  - apply (getLayoutPath_returns (defaults "handlebars") (VBool false)). discriminate.
Defined.

Lemma last_segment_exists (s : string) : exists seg, last_segment_of s seg.
Proof.
  induction s as [|a s (seg & Hseg & [->|[d ->]])].
  - by exists EmptyString; split; [|left].
  - destruct (is_slash a) eqn:Ha.
    + exists seg. split; [done|]. right. exists EmptyString.
      apply Ascii.eqb_eq in Ha as ->. done.
    + exists (String a seg). split; [|by left].
      unfold no_slash in *. cbn. by rewrite Ha.
  - exists seg. split; [done|]. right. by exists (String a d).
Qed.

(** C5: an absent or empty layout is replaced by the default; the
    identifier has a last slash-separated segment, and when that segment has
    no dot, a dot and the layout extension are appended, which leaves a
    trailing dot when the extension is empty. *)
Theorem getLayoutPath_spec (cfg : config) (layout : value) (id : string) :
  (if truthy layout then layout else def cfg) = VStr id ->
  (exists seg, last_segment_of id seg)
  /\ forall seg,
      last_segment_of id seg ->
      getLayoutPath cfg layout
      = Ok (if has_dot seg then id else id +:+ "." +:+ to_string (layoutExtension cfg))
      /\ (has_dot seg = false -> layoutExtension cfg = VStr EmptyString ->
          getLayoutPath cfg layout = Ok (id +:+ ".")).
Proof.
  intros Hid. split; [apply last_segment_exists|]. intros seg Hseg.
  assert (getLayoutPath cfg layout
          = Ok (if has_dot seg then id
                else id +:+ "." +:+ to_string (layoutExtension cfg))) as Heq.
  { unfold getLayoutPath, js_or. rewrite Hid, (pop_last_segment id seg Hseg).
    by destruct (has_dot seg). }
  split; [done|]. intros Hdot Hext. rewrite Heq, Hdot, Hext. simpl.
  by rewrite append_empty_r.
Qed.

Lemma getLayoutPath_spec_witness :
  (if truthy (VStr "blog/post") then VStr "blog/post" else def (defaults "handlebars"))
  = VStr "blog/post"
  /\ last_segment_of "blog/post" "post"
  /\ getLayoutPath (defaults "handlebars") (VStr "blog/post") = Ok "blog/post."
  /\ getLayoutPath (defaults "handlebars") (VStr "blog.d/post.hbs") = Ok "blog.d/post.hbs".
Proof.
  assert (last_segment_of "blog/post" "post") as Hseg
    by (split; [reflexivity | right; by exists "blog"]).
  split_and!; [reflexivity | exact Hseg | |].
  - destruct (getLayoutPath_spec (defaults "handlebars") (VStr "blog/post") "blog/post"
                eq_refl) as [_ Hspec].
    destruct (Hspec "post" Hseg) as [_ Hdot]. apply Hdot; reflexivity.
  - destruct (getLayoutPath_spec (defaults "handlebars") (VStr "blog.d/post.hbs")
                "blog.d/post.hbs" eq_refl) as [_ Hspec].
    apply (Hspec "post.hbs"). split; [reflexivity | right; by exists "blog.d"].
Defined.

(** ** The constructor *)

(** Without an engine, or with a name under which consolidate has nothing,
    [plugin] throws; nothing is returned that could be given the files. *)
Theorem plugin_engine_required (consolidate : string -> option property) (opts : value) :
  let name := member (options opts) "engine" in
  (truthy name = false ->
   plugin consolidate opts
   = Throw (Error (dquote +:+ "engine" +:+ dquote +:+ " option required")))
  /\ (truthy name = true -> consolidate (to_string name) = None ->
      plugin consolidate opts
      = Throw (Error ("Unknown template engine: " +:+ dquote +:+ to_string name +:+ dquote)))
  /\ (truthy name = false \/ consolidate (to_string name) = None ->
      forall mpath pmatch readPartials metadata fs h trace,
        exists e, build consolidate mpath pmatch readPartials opts metadata fs h trace
                  = Throw e).
Proof.
  intros name.
  assert (truthy name = false ->
          plugin consolidate opts
          = Throw (Error (dquote +:+ "engine" +:+ dquote +:+ " option required"))) as Hmissing.
  { intros Ht. unfold plugin. fold name. by rewrite Ht. }
  assert (truthy name = true -> consolidate (to_string name) = None ->
          plugin consolidate opts
          = Throw (Error ("Unknown template engine: " +:+ dquote
                          +:+ to_string name +:+ dquote))) as Hunknown.
  { intros Ht Hc. unfold plugin. fold name. by rewrite Ht, Hc. }
  split_and!; [done..|].
  intros Hname mpath pmatch readPartials metadata fs h trace. unfold build.
  destruct (truthy name) eqn:Ht.
  - destruct Hname as [?|Hc]; [done|]. rewrite Hunknown by done. by eexists.
  - rewrite Hmissing by done. by eexists.
Qed.

Lemma plugin_engine_required_witness :
  plugin Site.consolidate (VObj [("directory", VStr "templates")])
  = Throw (Error (dquote +:+ "engine" +:+ dquote +:+ " option required"))
  /\ plugin Site.consolidate (VObj [("engine", VStr "doesnotexist")])
     = Throw (Error ("Unknown template engine: " +:+ dquote +:+ "doesnotexist" +:+ dquote))
  /\ exists e, build Site.consolidate Site.mpath Site.pmatch Site.readPartials
                 (VStr "doesnotexist") [] Site.files Site.heap [Start; Deliver 0%nat]
               = Throw e.
Proof.
  split_and!.
  - apply (plugin_engine_required Site.consolidate (VObj [("directory", VStr "templates")])).
    reflexivity.
  - apply (plugin_engine_required Site.consolidate (VObj [("engine", VStr "doesnotexist")]));
      reflexivity.
  - apply (plugin_engine_required Site.consolidate (VStr "doesnotexist")).
    right. reflexivity.
Defined.

(** C10: a bare string is the name of the engine: the constructor does
    with it what it does with the options [{engine: s}], and every other
    option has its default. *)
Theorem plugin_string_is_engine (consolidate : string -> option property) (s : string) :
  plugin consolidate (VStr s) = plugin consolidate (VObj [("engine", VStr s)])
  /\ (forall mpath pmatch readPartials metadata fs h trace,
        build consolidate mpath pmatch readPartials (VStr s) metadata fs h trace
        = build consolidate mpath pmatch readPartials (VObj [("engine", VStr s)])
            metadata fs h trace)
  /\ (s <> EmptyString -> is_Some (consolidate s) ->
      plugin consolidate (VStr s) = Ok (defaults s)).
Proof.
  assert (plugin consolidate (VStr s) = plugin consolidate (VObj [("engine", VStr s)])) as Heq.
  { unfold plugin, options, js_or. destruct s; reflexivity. }
  split_and!; [done| |].
  - intros. unfold build. by rewrite Heq.
  - intros Hs Hc. unfold plugin, options, js_or.
    destruct s as [|a s]; [done|]. simpl.
    by rewrite bool_decide_eq_true_2.
Qed.

Lemma plugin_string_is_engine_witness :
  "handlebars" <> EmptyString /\ is_Some (Site.consolidate "handlebars") /\
  plugin Site.consolidate (VStr "handlebars") = Ok (defaults "handlebars").
Proof.
  split; [done|]. split; [by eexists|].
  apply (plugin_string_is_engine Site.consolidate "handlebars"); [done | by eexists].
Defined.

(** ** The render context *)

Lemma prop_set (k k' : string) (v : value) (o : obj) :
  prop (set k v o) k' = if decide (k = k') then v else prop o k'.
Proof. unfold prop. rewrite get_set. by case_decide. Qed.

Lemma prop_extend_assign (name k : string) (copy : value) (target : obj) :
  prop (extend_assign name copy target) k
  = if decide (name = k) then defined_or copy (prop target k) else prop target k.
Proof.
  destruct copy; simpl; rewrite ?prop_set; by repeat case_decide; subst.
Qed.

Lemma prop_not_key (k : string) (o : obj) : k ∉ keys o -> prop o k = VUndef.
Proof. intros Hk. unfold prop. by apply get_None_keys in Hk as ->. Qed.

Lemma prop_cons (k k' : string) (v : value) (o : obj) :
  prop ((k', v) :: o) k = if decide (k' = k) then v else prop o k.
Proof.
  unfold prop. cbn [get].
  destruct (String.eqb_spec k k') as [->|Hne]; [by rewrite decide_True|].
  by rewrite decide_False.
Qed.

Lemma prop_extend_fold (options target : obj) (k : string) :
  NoDup (keys options) ->
  prop (fold_left (fun target kv => extend_assign (fst kv) (snd kv) target) options target) k
  = defined_or (prop options k) (prop target k).
Proof.
  revert target. induction options as [|[k' v'] options IH]; intros target Hnd; [done|].
  cbn [keys map fst] in Hnd. apply NoDup_cons in Hnd as [Hk' Hnd].
  cbn [fold_left fst snd]. rewrite IH, prop_extend_assign by done.
  rewrite prop_cons. case_decide as Hk; [subst k|done].
  by rewrite (prop_not_key k' options).
Qed.

Lemma extend_deep_assign_obj (name : string) (o target : obj) :
  extend_deep_assign name (VObj o) target
  = set name
      (VObj (extend_deep
               match get name target with Some (VObj src) => src | _ => [] end o))
      target.
Proof.
  cbn [extend_deep_assign]. do 2 f_equal.
  match goal with
  | |- ?each o ?c1 = extend_deep ?c2 o =>
      change (each o c2 = extend_deep c2 o); generalize c2
  end.
  unfold extend_deep.
  induction o as [|[k v] o IH]; intros clone; [done|].
  cbn [fold_left fst snd]. by rewrite IH.
Qed.

Lemma keys_extend_deep_assign (name : string) (copy : value) (target : obj) :
  NoDup (keys target) -> NoDup (keys (extend_deep_assign name copy target)).
Proof.
  intros Hnd. destruct copy; rewrite ?extend_deep_assign_obj; try done;
    by apply NoDup_keys_set.
Qed.

Lemma keys_extend_deep (target options : obj) :
  NoDup (keys target) -> NoDup (keys (extend_deep target options)).
Proof.
  unfold extend_deep. revert target.
  induction options as [|[k v] options IH]; intros target Hnd; [done|].
  apply IH. by apply keys_extend_deep_assign.
Qed.

Lemma prop_extend_deep_assign (name k : string) (copy : value) (target : obj) :
  get name target = None ->
  prop (extend_deep_assign name copy target) k
  = if decide (name = k) then cloned copy else prop target k.
Proof.
  intros Hfresh. destruct copy;
    rewrite ?extend_deep_assign_obj, ?Hfresh; cbn [extend_deep_assign cloned];
    rewrite ?prop_set; try done.
  case_decide; [subst|done]. unfold prop. by rewrite Hfresh.
Qed.

Lemma prop_extend_deep (target options : obj) (k : string) :
  NoDup (keys options) ->
  (forall name, name ∈ keys options -> get name target = None) ->
  prop (extend_deep target options) k
  = match get k options with
    | Some copy => cloned copy
    | None => prop target k
    end.
Proof.
  unfold extend_deep. revert target.
  induction options as [|[k' v'] options IH]; intros target Hnd Hfresh; [done|].
  cbn [keys map fst] in Hnd, Hfresh. apply NoDup_cons in Hnd as [Hk' Hnd].
  cbn [fold_left fst snd get]. rewrite IH; [|done|].
  - destruct (String.eqb_spec k k') as [->|Hne].
    + apply get_None_keys in Hk' as ->.
      rewrite prop_extend_deep_assign by (apply Hfresh, list_elem_of_here).
      by rewrite decide_True.
    + destruct (get k options); [done|].
      rewrite prop_extend_deep_assign by (apply Hfresh, list_elem_of_here).
      by rewrite decide_False.
  - intros name Hname.
    assert (prop (extend_deep_assign k' v' target) name = prop target name) as Hsame.
    { rewrite prop_extend_deep_assign by (apply Hfresh, list_elem_of_here).
      rewrite decide_False; [done | by intros ->]. }
    assert (get name target = None) as Hnone
      by (apply Hfresh, list_elem_of_further, Hname).
    destruct v'; cbn [extend_deep_assign]; rewrite ?extend_deep_assign_obj;
      try done; (rewrite get_set_ne; [done | by intros ->]).
Qed.

Lemma set_fresh {A : Type} (k : string) (v : A) (o : list (string * A)) :
  k ∉ keys o -> set k v o = o ++ [(k, v)].
Proof.
  induction o as [|[k' v'] o IH]; cbn [set keys map fst]; [done|].
  intros [Hne Hin]%not_elem_of_cons.
  destruct (String.eqb_spec k k') as [Heq|_]; [done|].
  cbn [app]. f_equal. by apply IH.
Qed.

Lemma clean_obj (o : obj) :
  clean (VObj o)
  <-> NoDup (keys o) /\ Forall (fun kv => snd kv <> VUndef /\ clean (snd kv)) o.
Proof.
  cbn [clean]. apply and_iff_compat_l.
  induction o as [|[k v] o IH]; [by split; [constructor|]|].
  rewrite Forall_cons, IH. cbn [snd]. tauto.
Qed.

Lemma size_obj (k : string) (v : value) (o : obj) :
  (size v < size (VObj ((k, v) :: o)))%nat /\ (size (VObj o) <= size (VObj ((k, v) :: o)))%nat.
Proof. cbn [size]. assert (0 < size v)%nat by (destruct v; cbn [size]; lia). lia. Qed.

Lemma extend_deep_assign_fresh (name : string) (copy : value) (target : obj) :
  name ∉ keys target -> copy <> VUndef ->
  extend_deep_assign name copy target = target ++ [(name, cloned copy)].
Proof.
  intros Hfresh Hdef. rewrite <- set_fresh by done.
  apply get_None_keys in Hfresh.
  destruct copy; rewrite ?extend_deep_assign_obj, ?Hfresh; done.
Qed.

(** The deep clone of a clean object is a copy of it. *)
Lemma extend_deep_clean (o : obj) : clean (VObj o) -> extend_deep [] o = o.
Proof.
  remember (size (VObj o)) as n eqn:Hn.
  assert (size (VObj o) <= n)%nat as Hle by lia. clear Hn.
  revert o Hle. induction n as [|n IH]; intros o Hle Hclean.
  { cbn [size] in Hle. lia. }
  enough (forall target, NoDup (keys (target ++ o)) -> extend_deep target o = target ++ o)
    as Hgen by (apply (Hgen []), Hclean).
  apply clean_obj in Hclean as [_ Hall].
  induction o as [|[k v] o IHo]; intros target Hnd.
  { unfold extend_deep. cbn [fold_left]. by rewrite app_nil_r. }
  apply Forall_cons in Hall as [[Hdef Hv] Hall]. cbn [snd] in Hdef, Hv.
  destruct (size_obj k v o) as [Hsv Hso].
  unfold extend_deep. cbn [fold_left fst snd]. fold (extend_deep).
  assert (k ∉ keys target) as Hk.
  { unfold keys in Hnd. rewrite fmap_app in Hnd. apply NoDup_app in Hnd as (_ & Hdisj & _).
    intros Hin. apply (Hdisj k Hin). cbn [fmap list_fmap fst]. apply list_elem_of_here. }
  rewrite extend_deep_assign_fresh by done.
  assert (cloned v = v) as ->.
  { destruct v as [| | | | | |o'|]; try done. cbn [cloned]. f_equal.
    apply IH; [lia | done]. }
  change (fold_left _ o ?t) with (extend_deep t o).
  rewrite IHo; [by rewrite <- app_assoc | lia | done |].
  by rewrite <- app_assoc.
Qed.

Lemma defined_or_undef (v : value) : defined_or v VUndef = v.
Proof. by destruct v. Qed.

(** C3, as stated, fails: a property of the file whose value is
    [undefined] collides with the same property of the metadata, and the
    context takes the value of the metadata, the lower of the two. *)
Lemma context_undefined_not_copied :
  get "title" [("title", VUndef)] = Some VUndef /\
  prop (context [] [("title", VStr "Site")] [("title", VUndef)]) "title" = VStr "Site".
Proof. split; reflexivity. Qed.

(** C3, amended: the context is built from a deep clone of [params], then
    the metadata, then the fields of the file; a property has the value of
    the highest of the three in which it is not [undefined]; the clone
    copies nested plain objects and takes everything else over, so that
    the clone of a bag without [undefined] properties is a copy of it. *)
Theorem context_precedence (params metadata data : obj) (k : string) :
  NoDup (keys params) -> NoDup (keys metadata) -> NoDup (keys data) ->
  prop (context params metadata data) k
  = defined_or (prop data k) (defined_or (prop metadata k) (cloned (prop params k)))
  /\ (clean (VObj params) -> extend_deep [] params = params)
  /\ context [("a", VNum 1); ("b", VNum 1)] [("b", VNum 2); ("c", VNum 2)] [("c", VNum 3)]
     = [("a", VNum 1); ("b", VNum 2); ("c", VNum 3)].
Proof.
  intros Hp Hm Hd. split; [|split; [apply extend_deep_clean | reflexivity]].
  unfold context, extend. cbn [fold_left].
  rewrite (prop_extend_fold data) by done.
  rewrite (prop_extend_fold metadata) by done.
  rewrite (prop_extend_fold (extend_deep [] params))
    by (apply keys_extend_deep, NoDup_nil_2).
  rewrite prop_extend_deep by done.
  change (prop [] k) with VUndef. rewrite defined_or_undef.
  do 2 f_equal. unfold prop. by destruct (get k params).
Qed.

Lemma context_precedence_witness :
  NoDup (keys [("a", VNum 1); ("b", VUndef); ("partials", VObj [("nav", VStr "nav.html")])])
  /\ prop (context
            [("a", VNum 1); ("b", VUndef); ("partials", VObj [("nav", VStr "nav.html")])]
            [("b", VNum 2); ("c", VNum 2)] [("c", VNum 3); ("b", VUndef)]) "b"
     = VNum 2.
Proof.
  assert (forall l : list string, bool_decide (NoDup l) = true -> NoDup l) as Hdec
    by (intros l; apply bool_decide_eq_true_1).
  split; [by apply Hdec|].
  apply (context_precedence
           [("a", VNum 1); ("b", VUndef); ("partials", VObj [("nav", VStr "nav.html")])]
           [("b", VNum 2); ("c", VNum 2)] [("c", VNum 3); ("b", VUndef)] "b");
    by apply Hdec.
Defined.

(** ** Selection *)

Lemma first_with_app (t : string) (rs1 rs2 : list (string * string)) :
  first_with t (rs1 ++ rs2)
  = match first_with t rs1 with
    | Some file => Some file
    | None => first_with t rs2
    end.
Proof.
  induction rs1 as [|[file t'] rs1 IH]; cbn [app first_with]; [done|].
  by destruct (String.eqb t' t).
Qed.

Lemma first_with_Some (t file : string) (rs : list (string * string)) :
  first_with t rs = Some file -> (file, t) ∈ rs.
Proof.
  induction rs as [|[file' t'] rs IH]; cbn [first_with]; [done|].
  destruct (String.eqb_spec t' t) as [->|Hne].
  - intros [= ->]. apply list_elem_of_here.
  - intros. apply list_elem_of_further. auto.
Qed.

Lemma first_with_elem (r : string * string) (rs : list (string * string)) :
  r ∈ rs -> is_Some (first_with (snd r) rs).
Proof.
  induction rs as [|[file' t'] rs IH]; cbn [first_with].
  - intros H. by apply elem_of_nil in H.
  - intros [->|Hin]%elem_of_cons; cbn [snd].
    + rewrite String.eqb_refl. by eexists.
    + destruct (String.eqb t' r.2); [by eexists | auto].
Qed.

Lemma filter_ext_in {A : Type} (P Q : A -> Prop)
    `{forall x, Decision (P x)} `{forall x, Decision (Q x)} (l : list A) :
  (forall x, x ∈ l -> P x <-> Q x) -> filter P l = filter Q l.
Proof.
  induction l as [|x l IH]; intros Hext; [done|].
  rewrite !filter_cons.
  assert (filter P l = filter Q l) as ->.
  { apply IH. intros y Hy. apply Hext. by apply list_elem_of_further. }
  destruct (Hext x (list_elem_of_here x l)) as [HPQ HQP].
  by repeat case_decide; auto; exfalso; auto.
Qed.

Lemma first_with_snoc_old (r x : string * string) (rs : list (string * string)) :
  r ∈ rs -> first_with (snd r) (rs ++ [x]) = first_with (snd r) rs.
Proof.
  intros [file Hfile]%first_with_elem. by rewrite first_with_app, Hfile.
Qed.

Lemma partitioned_follower (acc : selection) (rs : list (string * string))
    (h : gmap nat obj) (file t seed : string) (l : nat) :
  partitioned acc rs -> first_with t rs = Some seed -> file ∉ map fst rs ->
  partitioned
    {| sel_heap := h; templates := templates acc; matches := set file l (matches acc);
       sel_thrown := None |}
    (rs ++ [(file, t)]).
Proof.
  intros (Hget & Hseeds & Hfollowers) Hseed Hfile.
  assert (seed <> file) as Hne.
  { intros ->. apply Hfile. apply first_with_Some in Hseed.
    apply list_elem_of_fmap. by exists (file, t). }
  split_and!; cbn [templates matches].
  - intros t'. rewrite Hget, first_with_app. destruct (first_with t' rs) eqn:E; [done|].
    cbn [first_with]. destruct (String.eqb_spec t t') as [->|]; [congruence|done].
  - rewrite Hseeds, filter_app. rewrite filter_cons_False, filter_nil, app_nil_r.
    + f_equal. apply filter_ext_in. intros r Hr. by rewrite first_with_snoc_old.
    + cbn [fst snd]. rewrite first_with_app, Hseed. congruence.
  - rewrite keys_set_notin.
    + rewrite Hfollowers, filter_app, fmap_app.
      rewrite filter_cons_True, filter_nil.
      * f_equal. f_equal. apply filter_ext_in. intros r Hr.
        by rewrite first_with_snoc_old.
      * cbn [fst snd]. rewrite first_with_app, Hseed. congruence.
    + rewrite Hfollowers. intros Hin. apply Hfile.
      apply list_elem_of_fmap in Hin as (r & -> & Hr%list_elem_of_filter).
      apply list_elem_of_fmap. exists r. tauto.
Qed.

Lemma partitioned_seed (acc : selection) (rs : list (string * string))
    (h : gmap nat obj) (file t : string) :
  partitioned acc rs -> first_with t rs = None ->
  partitioned
    {| sel_heap := h; templates := set t file (templates acc); matches := matches acc;
       sel_thrown := None |}
    (rs ++ [(file, t)]).
Proof.
  intros (Hget & Hseeds & Hfollowers) Hnone.
  assert (first_with t (rs ++ [(file, t)]) = Some file) as Hfirst.
  { rewrite first_with_app, Hnone. cbn [first_with]. by rewrite String.eqb_refl. }
  split_and!; cbn [templates matches].
  - intros t'. rewrite get_set, Hget, first_with_app. case_decide as Ht.
    + subst t'. rewrite Hnone. cbn [first_with]. by rewrite String.eqb_refl.
    + destruct (first_with t' rs); [done|]. cbn [first_with].
      by destruct (String.eqb_spec t t').
  - rewrite set_fresh by (apply get_None_keys; by rewrite Hget).
    rewrite map_app, Hseeds, filter_app, fmap_app.
    rewrite filter_cons_True, filter_nil by done.
    f_equal. f_equal. apply filter_ext_in. intros r Hr. by rewrite first_with_snoc_old.
  - rewrite Hfollowers, filter_app.
    rewrite filter_cons_False, filter_nil, app_nil_r by (cbn [fst snd]; by intros []).
    f_equal. apply filter_ext_in. intros r Hr. by rewrite first_with_snoc_old.
Qed.

Section Selection.

Variable mpath : value -> string -> string.
Variable pmatch : string -> value -> bool.

Lemma select_file_thrown (cfg : config) (fs : list (string * nat)) (todo : list string)
    (acc : selection) (e : exn) :
  sel_thrown acc = Some e -> fold_left (select_file mpath pmatch cfg fs) todo acc = acc.
Proof.
  intros He. induction todo as [|file todo IH]; [done|].
  cbn [fold_left]. unfold select_file at 2. by rewrite He.
Qed.

Lemma select_files_partitioned (cfg : config) (fs : list (string * nat))
    (todo : list string) :
  forall (acc : selection) (rs : list (string * string)),
    sel_thrown acc = None -> partitioned acc rs ->
    NoDup (map fst rs ++ todo) ->
    Forall (fun file => file <> EmptyString) (map fst rs ++ todo) ->
    sel_thrown (fold_left (select_file mpath pmatch cfg fs) todo acc) = None ->
    partitioned (fold_left (select_file mpath pmatch cfg fs) todo acc)
      (rs ++ resolutions mpath pmatch cfg fs (sel_heap acc) todo).
Proof.
  induction todo as [|file todo IH]; intros acc rs Hacc Hpart Hnd Hkeys Hok.
  { cbn [fold_left resolutions]. by rewrite app_nil_r. }
  apply NoDup_app in Hnd as (Hrs & Hdisj & [Hfile Htodo]%NoDup_cons).
  apply Forall_app in Hkeys as [Hkeys [Hfile' Hkeys']%Forall_cons].
  assert (file ∉ map fst rs) as Hfresh
    by (intros Hin; by apply (Hdisj file Hin), list_elem_of_here).
  assert (NoDup (map fst rs ++ todo)) as Hnd'.
  { apply NoDup_app. split_and!; [done| |done].
    intros x Hx Hx'. apply (Hdisj x Hx). by apply list_elem_of_further. }
  cbn [fold_left resolutions] in *. unfold select_file at 2 in Hok. unfold select_file at 2.
  rewrite Hacc in *.
  destruct (visit mpath pmatch cfg fs (sel_heap acc) file) as [|h l t|h e].
  - apply IH; try done. by apply Forall_app.
  - assert (NoDup (map fst (rs ++ [(file, t)]) ++ todo)) as Hnd''.
    { rewrite map_app, <- app_assoc. cbn [map fst app].
      apply NoDup_app. split_and!; [done| |by apply NoDup_cons].
      intros x Hx [->|Hx']%elem_of_cons; [done|].
      apply (Hdisj x Hx). by apply list_elem_of_further. }
    assert (Forall (fun file => file <> EmptyString) (map fst (rs ++ [(file, t)]) ++ todo))
      as Hkeys''.
    { rewrite map_app, <- app_assoc. cbn [map fst app].
      apply Forall_app. split; [done|]. by apply Forall_cons. }
    replace (rs ++ (file, t) :: resolutions mpath pmatch cfg fs h todo)
      with ((rs ++ [(file, t)]) ++ resolutions mpath pmatch cfg fs h todo)
      by (by rewrite <- app_assoc).
    destruct Hpart as (Hget & Hseeds & Hfollowers).
    rewrite Hget in *. destruct (first_with t rs) as [seed|] eqn:Hfirst.
    + assert (truthy (VStr seed) = true) as Htruthy.
      { cbn [truthy]. apply negb_true_iff, String.eqb_neq.
        apply first_with_Some in Hfirst.
        eapply (proj1 (Forall_forall _ _) Hkeys).
        apply list_elem_of_fmap. by exists (seed, t). }
      rewrite Htruthy in *.
      apply (IH {| sel_heap := h; templates := templates acc;
                   matches := set file l (matches acc); sel_thrown := None |});
        try done.
      by eapply partitioned_follower.
    + apply (IH {| sel_heap := h; templates := set t file (templates acc);
                   matches := matches acc; sel_thrown := None |});
        try done.
      by eapply partitioned_seed.
  - by rewrite (select_file_thrown _ _ _ _ e) in Hok.
Qed.

Lemma resolutions_sublist (cfg : config) (fs : list (string * nat)) (todo : list string) :
  forall h, map fst (resolutions mpath pmatch cfg fs h todo) `sublist_of` todo.
Proof.
  induction todo as [|file todo IH]; intros h; cbn [resolutions]; [constructor|].
  destruct (visit mpath pmatch cfg fs h file).
  - by apply sublist_cons.
  - cbn [map fst]. by apply sublist_skip.
  - apply sublist_nil_l.
Qed.

End Selection.

Lemma elem_of_values_set {A : Type} (k : string) (v x : A) (o : list (string * A)) :
  x ∈ map snd (set k v o) -> x = v \/ x ∈ map snd o.
Proof.
  induction o as [|[k' v'] o IH]; cbn [set map snd].
  - intros [->|H]%elem_of_cons; [by left | by apply elem_of_nil in H].
  - destruct (String.eqb k k'); cbn [map snd].
    + intros [->|H]%elem_of_cons; [by left | right; by apply list_elem_of_further].
    + intros [->|H]%elem_of_cons; [right; apply list_elem_of_here|].
      destruct (IH H) as [->|?]; [by left | right; by apply list_elem_of_further].
Qed.

Lemma elem_of_keys_set {A : Type} (k x : string) (v : A) (o : list (string * A)) :
  x ∈ keys (set k v o) -> x = k \/ x ∈ keys o.
Proof.
  destruct (decide (k ∈ keys o)) as [Hin|Hin].
  - rewrite keys_set_in by done. by right.
  - rewrite keys_set_notin by done.
    intros [? | ->%list_elem_of_singleton]%elem_of_app; [by right | by left].
Qed.

Section SelectionFrame.

Variable mpath : value -> string -> string.
Variable pmatch : string -> value -> bool.

Lemma get_inj (fs : list (string * nat)) (f f' : string) (l : nat) :
  NoDup (map snd fs) -> get f fs = Some l -> get f' fs = Some l -> f = f'.
Proof.
  induction fs as [|[k l'] fs IH]; cbn [map snd get]; [done|].
  intros [Hl Hnd]%NoDup_cons.
  assert (forall g, get g fs = Some l' -> False) as Hfresh.
  { intros g Hg%get_Some_elem. apply Hl. apply list_elem_of_fmap. by exists (g, l'). }
  destruct (String.eqb_spec f k) as [->|]; destruct (String.eqb_spec f' k) as [->|];
    intros H1 H2; simplify_eq; try done.
  - by destruct (Hfresh f').
  - by destruct (Hfresh f).
  - by apply IH.
Qed.

Lemma visit_cases (cfg : config) (fs : list (string * nat)) (h0 : gmap nat obj)
    (file : string) (l : nat) :
  get file fs = Some l ->
  match visit mpath pmatch cfg fs h0 file with
  | Skipped => check pmatch h0 fs file (pattern cfg) (def cfg) (layoutKey cfg) = false
  | Selected h' l' _ =>
      l' = l /\ check pmatch h0 fs file (pattern cfg) (def cfg) (layoutKey cfg) = true /\
      exists o, h0 !! l = Some o /\ h' = <[l := stringified o]> h0
  | Aborted h' _ =>
      check pmatch h0 fs file (pattern cfg) (def cfg) (layoutKey cfg) = true /\
      (h' = h0 \/ exists o, h0 !! l = Some o /\ h' = <[l := stringified o]> h0)
  end.
Proof.
  intros Hget. unfold visit. rewrite Hget.
  destruct (check pmatch h0 fs file (pattern cfg) (def cfg) (layoutKey cfg)); [|done].
  cbn [negb]. destruct (h0 !! l) as [o|] eqn:Ho.
  2: { split; [reflexivity | left; reflexivity]. }
  unfold stringified.
  destruct (prop o "contents") eqn:Hc.
  all: try (split; [reflexivity | left; reflexivity]).
  all: match goal with
       | |- context [getLayoutPath ?c ?v] => destruct (getLayoutPath c v)
       end.
  all: first
    [ split; [reflexivity | split; [reflexivity | exists o; rewrite Hc; split; reflexivity]]
    | split; [reflexivity | right; exists o; rewrite Hc; split; reflexivity] ].
Qed.

Lemma check_same_record (h h' : gmap nat obj) (fs : list (string * nat)) (file : string)
    (pattern def layoutKey : value) :
  record h fs file = record h' fs file ->
  check pmatch h fs file pattern def layoutKey = check pmatch h' fs file pattern def layoutKey.
Proof. intros Hrec. unfold check. by rewrite Hrec. Qed.

Lemma selecting_same (fs : list (string * nat)) (h : gmap nat obj) (passes : string -> bool)
    (done : list string) (acc acc' : selection) (file : string) :
  selecting fs h passes done acc -> file ∉ done ->
  sel_heap acc' = sel_heap acc -> templates acc' = templates acc ->
  matches acc' = matches acc ->
  selecting fs h passes (done ++ [file]) acc'.
Proof.
  intros (Hdone & Hdisj & Hloc & Hnew & Hold) Hfile Hh Ht Hm.
  unfold selecting, chosen in *. rewrite Hh, Ht, Hm. split_and!.
  - intros f Hf. apply elem_of_app. left. by apply Hdone.
  - done.
  - done.
  - intros f l Hget Hf. apply (Hnew f); [done|]. intros Hin. apply Hf, elem_of_app. by left.
  - intros f l Hget [Hf | ->%list_elem_of_singleton]%elem_of_app; [by apply Hold|].
    left. split; [by apply (Hnew file)|]. intros Hc. by apply Hfile, Hdone.
Qed.

Lemma selecting_touched (fs : list (string * nat)) (h : gmap nat obj)
    (passes : string -> bool) (done : list string) (acc acc' : selection) (file : string)
    (l : nat) (o : obj) :
  NoDup (map snd fs) ->
  selecting fs h passes done acc -> file ∉ done -> get file fs = Some l ->
  passes file = true -> sel_heap acc !! l = Some o ->
  sel_heap acc' = <[l := stringified o]> (sel_heap acc) ->
  (forall f, chosen acc' f -> f = file \/ chosen acc f) ->
  (forall f, f ∈ map snd (templates acc') -> f ∉ keys (matches acc')) ->
  (forall f l', get f (matches acc') = Some l' -> get f fs = Some l') ->
  selecting fs h passes (done ++ [file]) acc'.
Proof.
  intros Hinj (Hdone & Hdisj & Hloc & Hnew & Hold) Hfile Hget Hpass Ho Hh Hc Hdisj' Hloc'.
  assert (h !! l = Some o) as Ho' by (rewrite <- Ho; symmetry; by apply (Hnew file)).
  split_and!; [|done|done| |].
  - intros f [->|Hf]%Hc; apply elem_of_app; [right; apply list_elem_of_here|].
    left. by apply Hdone.
  - intros f l' Hget' Hf. rewrite Hh.
    assert (f ∉ done) as Hf' by (intros Hin; apply Hf, elem_of_app; by left).
    rewrite lookup_insert_ne; [by apply (Hnew f)|].
    intros <-. apply Hf, elem_of_app. right.
    rewrite (get_inj fs f file l Hinj Hget' Hget). apply list_elem_of_here.
  - intros f l' Hget' [Hf | ->%list_elem_of_singleton]%elem_of_app.
    + assert (l <> l') as Hne.
      { intros <-. apply Hfile. by rewrite <- (get_inj fs f file l Hinj Hget' Hget). }
      rewrite Hh, lookup_insert_ne by exact Hne.
      destruct (Hold f l' Hget' Hf) as [[Hsame Hnc]|Hright]; [left|by right].
      split; [exact Hsame|]. intros [->|Hcf]%Hc; [by apply Hfile | by apply Hnc].
    + right. split; [exact Hpass|]. exists o. rewrite Hget in Hget'. injection Hget' as <-.
      split; [exact Ho'|]. rewrite Hh. apply lookup_insert_eq.
Qed.

Lemma select_file_selecting (cfg : config) (fs : list (string * nat)) (h : gmap nat obj)
    (done : list string) (acc : selection) (file : string) (l : nat) :
  NoDup (map snd fs) ->
  selecting fs h (fun f => check pmatch h fs f (pattern cfg) (def cfg) (layoutKey cfg))
    done acc ->
  file ∉ done -> get file fs = Some l ->
  selecting fs h (fun f => check pmatch h fs f (pattern cfg) (def cfg) (layoutKey cfg))
    (done ++ [file]) (select_file mpath pmatch cfg fs acc file).
Proof.
  intros Hinj Hsel Hfile Hget. unfold select_file.
  destruct (sel_thrown acc); [by eapply selecting_same|].
  pose proof (visit_cases cfg fs (sel_heap acc) file l Hget) as Hv.
  assert (check pmatch (sel_heap acc) fs file (pattern cfg) (def cfg) (layoutKey cfg)
          = check pmatch h fs file (pattern cfg) (def cfg) (layoutKey cfg)) as Hcheck.
  { apply check_same_record. unfold record. rewrite Hget. cbn.
    destruct Hsel as (_ & _ & _ & Hnew & _). by apply (Hnew file). }
  rewrite Hcheck in Hv.
  destruct (visit mpath pmatch cfg fs (sel_heap acc) file) as [|h' l' t|h' e].
  - by eapply selecting_same.
  - destruct Hv as (-> & Hpass & o & Ho & ->).
    pose proof Hsel as (Hdone & Hdisj & Hloc & _).
    destruct (match get t (templates acc) with
              | Some seed => truthy (VStr seed)
              | None => false
              end).
    + eapply (selecting_touched fs h _ done acc _ file l o); try done; cbn.
      * intros f [Hs|[->|Hm]%elem_of_keys_set]; [right; by left | by left | right; by right].
      * intros f Hs [->|Hm]%elem_of_keys_set; [|by apply (Hdisj f)].
        apply Hfile, Hdone. by left.
      * intros f l'. rewrite get_set. case_decide as Hf; [|by apply Hloc].
        subst f. by intros [= <-].
    + eapply (selecting_touched fs h _ done acc _ file l o); try done; cbn.
      * intros f [[->|Hs]%elem_of_values_set|Hm]; [by left | right; by left | right; by right].
      * intros f [->|Hs]%elem_of_values_set; [|by apply (Hdisj f)].
        intros Hm. apply Hfile, Hdone. by right.
  - destruct Hv as (Hpass & [->|(o & Ho & ->)]); [by eapply selecting_same|].
    pose proof Hsel as (Hdone & Hdisj & Hloc & _).
    eapply (selecting_touched fs h _ done acc _ file l o); try done; cbn.
    intros f Hc. by right.
Qed.

Lemma get_is_Some {A : Type} (k : string) (o : list (string * A)) :
  k ∈ keys o -> is_Some (get k o).
Proof.
  intros Hk. destruct (get k o) eqn:E; [by eexists|].
  by apply get_None_keys in E.
Qed.

Lemma select_selecting (cfg : config) (fs : list (string * nat)) (h : gmap nat obj) :
  NoDup (keys fs) -> NoDup (map snd fs) ->
  selecting fs h (fun f => check pmatch h fs f (pattern cfg) (def cfg) (layoutKey cfg))
    (keys fs) (select mpath pmatch cfg fs h).
Proof.
  intros Hkeys Hinj. unfold select.
  enough (forall todo done acc,
            NoDup (done ++ todo) -> (forall f, f ∈ todo -> f ∈ keys fs) ->
            selecting fs h
              (fun f => check pmatch h fs f (pattern cfg) (def cfg) (layoutKey cfg))
              done acc ->
            selecting fs h
              (fun f => check pmatch h fs f (pattern cfg) (def cfg) (layoutKey cfg))
              (done ++ todo) (fold_left (select_file mpath pmatch cfg fs) todo acc)) as Hgen.
  { apply (Hgen (keys fs) []); [done|done|].
    unfold selecting, chosen. cbn. split_and!; try done.
    - intros f [H|H]; by apply elem_of_nil in H.
    - intros f _ H. by apply elem_of_nil in H.
    - intros f l _ H. by apply elem_of_nil in H. }
  induction todo as [|file todo IH]; intros done acc Hnd Hin Hsel.
  { by rewrite app_nil_r. }
  cbn [fold_left]. replace (done ++ file :: todo) with ((done ++ [file]) ++ todo)
    by (by rewrite <- app_assoc).
  assert (file ∉ done) as Hfile.
  { apply NoDup_app in Hnd as (_ & Hd & _). intros Hf. apply (Hd file Hf), list_elem_of_here. }
  destruct (get_is_Some file fs (Hin file (list_elem_of_here _ _))) as [l Hl].
  apply IH.
  - by rewrite <- app_assoc.
  - intros f Hf. by apply Hin, list_elem_of_further.
  - by eapply select_file_selecting.
Qed.

End SelectionFrame.

(** ** The two phases *)

Section Phases.

Variable consolidate : string -> option property.
Variable mpath : value -> string -> string.
Variable cfg : config.
Variable metadata : obj.
Variable followers : list string.

Lemma each_complete_frame (s : state) :
  files (each_complete followers s) = files s
  /\ heap (each_complete followers s) = heap s
  /\ inflight (each_complete followers s) = inflight s
  /\ thrown (each_complete followers s) = thrown s.
Proof.
  unfold each_complete, callback, renderFiles.
  destruct (thrown s) eqn:Ht, (queue s), (inflight s) eqn:Hin, (stage s); cbn;
    by rewrite ?Hin, ?Ht.
Qed.

Lemma each_complete_phase_one (s : state) :
  in_phase_one (each_complete followers s) -> each_complete followers s = s.
Proof.
  unfold each_complete, callback, renderFiles, in_phase_one.
  destruct (thrown s), (queue s), (inflight s), (stage s); cbn; try done.
  by destruct followers.
Qed.

Lemma each_complete_later (s : state) :
  in_phase_one (each_complete followers s) -> in_phase_one s.
Proof. intros H. by rewrite <- (each_complete_phase_one s H). Qed.

Lemma each_complete_confined (K : string -> Prop) (T : nat -> Prop)
    (fs0 : list (string * nat)) (h0 : gmap nat obj) (s : state) :
  confined K T fs0 h0 s ->
  (forall k, k ∈ followers -> K k) \/ in_phase_one (each_complete followers s) ->
  confined K T fs0 h0 (each_complete followers s).
Proof.
  intros Hs [HK|Hone]; [|by rewrite each_complete_phase_one].
  destruct Hs as (Hq & Hi & Hf & Hh). unfold each_complete, callback, renderFiles.
  destruct (thrown s), (queue s) eqn:Hqueue, (inflight s) eqn:Hin, (stage s);
    unfold confined; cbn; rewrite ?Hqueue, ?Hin; split_and!; try done.
  all: intros ? H; by apply elem_of_nil in H.
Qed.

Lemma convert_frame (s : state) (file : string) :
  queue (convert consolidate mpath cfg metadata s file) = queue s
  /\ heap (convert consolidate mpath cfg metadata s file) = heap s
  /\ stage (convert consolidate mpath cfg metadata s file) = stage s.
Proof.
  unfold convert, crash.
  repeat match goal with
         | |- context [match ?x with _ => _ end] => destruct x
         end; done.
Qed.

Lemma convert_confined (K : string -> Prop) (T : nat -> Prop)
    (fs0 : list (string * nat)) (h0 : gmap nat obj) (s : state) (file : string) :
  (forall k l, K k -> get k fs0 = Some l -> T l) ->
  confined K T fs0 h0 s -> K file ->
  confined K T fs0 h0 (convert consolidate mpath cfg metadata s file).
Proof.
  intros Hlink (Hq & Hi & Hf & Hh) HK. unfold convert, crash.
  destruct (get file (files s)) as [l|] eqn:Hget; [|done].
  destruct (heap s !! l) as [data|]; [|done].
  destruct (getLayoutPath cfg (prop data (to_string (layoutKey cfg)))); [|done].
  assert (forall k l', get k (if truthy (rename cfg) then del file (files s) else files s)
                       = Some l' -> T l' \/ get k fs0 = Some l') as Hf'.
  { intros k l'. destruct (truthy (rename cfg)); [|by apply Hf].
    destruct (decide (file = k)) as [->|Hne]; [by rewrite get_del_eq|].
    rewrite get_del_ne by done. by apply Hf. }
  assert (T l) as Hl by (destruct (Hf file l Hget); eauto).
  destruct (call_render _ _ _); unfold confined; cbn; split_and!; try done.
  intros p [Hp| ->%list_elem_of_singleton]%elem_of_app; [by apply Hi | done].
Qed.

Lemma rendered_confined (K : string -> Prop) (T : nat -> Prop)
    (fs0 : list (string * nat)) (h0 : gmap nat obj) (s : state) (p : pending)
    (result : render_result) :
  confined K T fs0 h0 s -> T (p_data p) ->
  (forall k, k ∈ followers -> K k) \/ in_phase_one (rendered cfg followers s p result) ->
  confined K T fs0 h0 (rendered cfg followers s p result).
Proof.
  intros (Hq & Hi & Hf & Hh) Hp. unfold rendered.
  destruct result as [str|err].
  - apply each_complete_confined. unfold confined; cbn. split_and!; [done|done| |].
    + intros k l. rewrite get_set. case_decide; [intros [= <-]; by left | by apply Hf].
    + intros l Hl. rewrite lookup_alter_ne; [by apply Hh | by intros <-].
  - intros _. unfold each_failed, callback, renderFiles. by destruct (stage s).
Qed.

Lemma step_confined (K : string -> Prop) (T : nat -> Prop)
    (fs0 : list (string * nat)) (h0 : gmap nat obj) (s : state) (ev : event) :
  (forall k l, K k -> get k fs0 = Some l -> T l) ->
  confined K T fs0 h0 s ->
  (forall k, k ∈ followers -> K k)
  \/ in_phase_one (step consolidate mpath cfg metadata followers s ev) ->
  confined K T fs0 h0 (step consolidate mpath cfg metadata followers s ev).
Proof.
  intros Hlink Hs. pose proof Hs as (Hq & Hi & Hf & Hh). unfold step.
  destruct ev as [|i].
  - destruct (thrown s); [done|].
    destruct (queue s) as [|file rest] eqn:Hqueue; [done|].
    apply each_complete_confined.
    apply convert_confined; [done| |apply Hq, list_elem_of_here].
    unfold confined; cbn. split_and!; try done.
    intros k Hk. by apply Hq, list_elem_of_further.
  - destruct (inflight s !! i) as [p|] eqn:Hp; [|done].
    destruct (p_result p) as [result|]; [|done].
    apply rendered_confined.
    + unfold confined; cbn. split_and!; try done.
      intros q Hq'. by eapply Hi, list_elem_of_delete_inv.
    + apply Hi. by eapply list_elem_of_lookup_2.
Qed.

Lemma step_later (s : state) (ev : event) :
  in_phase_one (step consolidate mpath cfg metadata followers s ev) -> in_phase_one s.
Proof.
  unfold step. destruct ev as [|i].
  - destruct (thrown s); [done|]. destruct (queue s) as [|file rest]; [done|].
    match goal with
    | |- context [convert _ _ _ _ ?s0 _] => set (s1 := s0)
    end.
    destruct (convert_frame s1 file) as (_ & _ & Hstage).
    intros H%each_complete_later. unfold in_phase_one in *. by rewrite Hstage in H.
  - destruct (inflight s !! i) as [p|]; [|done]. unfold rendered.
    destruct (p_result p) as [[str|err]|]; [| |done].
    + by intros H%each_complete_later.
    + unfold each_failed, callback, renderFiles, in_phase_one. cbn. by destruct (stage s).
Qed.

Lemma steps_later (s : state) (trace : list event) :
  in_phase_one (fold_left (step consolidate mpath cfg metadata followers) trace s) ->
  in_phase_one s.
Proof.
  revert s. induction trace as [|ev trace IH]; intros s; [done|].
  cbn [fold_left]. intros H%IH. by eapply step_later.
Qed.

Lemma steps_confined (K : string -> Prop) (T : nat -> Prop)
    (fs0 : list (string * nat)) (h0 : gmap nat obj) (trace : list event) :
  (forall k l, K k -> get k fs0 = Some l -> T l) ->
  forall s,
    confined K T fs0 h0 s ->
    (forall k, k ∈ followers -> K k)
    \/ in_phase_one (fold_left (step consolidate mpath cfg metadata followers) trace s) ->
    confined K T fs0 h0 (fold_left (step consolidate mpath cfg metadata followers) trace s).
Proof.
  intros Hlink. induction trace as [|ev trace IH]; intros s Hs Hor; [done|].
  cbn [fold_left] in *. apply IH; [|done].
  apply step_confined; [done..|].
  destruct Hor as [?|Hone]; [by left | right]. by eapply steps_later.
Qed.




Lemma steps_thrown (s : state) (trace : list event) (e : exn) :
  thrown s = Some e -> inflight s = [] ->
  fold_left (step consolidate mpath cfg metadata followers) trace s = s.
Proof.
  intros He Hin. induction trace as [|ev trace IH]; [done|].
  cbn [fold_left]. unfold step at 2. rewrite He, Hin. by destruct ev.
Qed.

End Phases.

Section Runs.

Variable consolidate : string -> option property.
Variable mpath : value -> string -> string.
Variable pmatch : string -> value -> bool.
Variable readPartials : string -> value -> value -> result value.

Lemma with_partials_fields (cfg cfg' : config) :
  with_partials readPartials cfg = Ok cfg' ->
  pattern cfg' = pattern cfg /\ def cfg' = def cfg /\ layoutKey cfg' = layoutKey cfg
  /\ rename cfg' = rename cfg.
Proof.
  unfold with_partials. destruct (truthy (partials cfg)); [|by intros [= <-]].
  destruct (match partials cfg with
            | VStr s => readPartials s (partialExtension cfg) (dir cfg)
            | v => Ok v
            end); cbn; [by intros [= <-] | done].
Qed.

Lemma begin_confined (K : string -> Prop) (T : nat -> Prop) (sel : selection)
    (fs : list (string * nat)) :
  (forall k, k ∈ map snd (templates sel) -> K k) ->
  (forall k, k ∈ keys (matches sel) -> K k)
  \/ in_phase_one
       (each_complete (keys (matches sel))
          {| files := fs; heap := sel_heap sel; queue := map snd (templates sel);
             inflight := []; stage := Seeds; thrown := None |}) ->
  confined K T fs (sel_heap sel)
    (each_complete (keys (matches sel))
       {| files := fs; heap := sel_heap sel; queue := map snd (templates sel);
          inflight := []; stage := Seeds; thrown := None |}).
Proof.
  intros Hseeds Hor. apply each_complete_confined; [|done].
  unfold confined; cbn. split_and!; try done; [|by right].
  intros p Hp. by apply elem_of_nil in Hp.
Qed.



Lemma each_complete_failed (followers : list string) (s : state) (e : js_error) :
  stage s = SeedsFailed e -> each_complete followers s = s.
Proof.
  intros Hs. unfold each_complete, callback.
  destruct (thrown s), (queue s), (inflight s); try done. by rewrite Hs.
Qed.

Lemma step_failed (cfg : config) (metadata : obj) (followers : list string) (s : state)
    (ev : event) (e : js_error) :
  stage s = SeedsFailed e ->
  stage (step consolidate mpath cfg metadata followers s ev) = SeedsFailed e.
Proof.
  intros Hs. unfold step. destruct ev as [|i].
  - destruct (thrown s); [done|]. destruct (queue s) as [|file rest]; [done|].
    match goal with
    | |- context [convert _ _ _ _ ?s0 _] => set (s1 := s0)
    end.
    destruct (convert_frame consolidate mpath cfg metadata s1 file) as (_ & _ & Hstage).
    rewrite (each_complete_failed _ _ e); by rewrite Hstage.
  - destruct (inflight s !! i) as [p|]; [|done]. unfold rendered.
    destruct (p_result p) as [[str|err]|]; [| |done].
    + by rewrite (each_complete_failed _ _ e).
    + unfold each_failed, callback. cbn. by rewrite Hs.
Qed.

Lemma steps_failed (cfg : config) (metadata : obj) (followers : list string)
    (trace : list event) (e : js_error) :
  forall s, stage s = SeedsFailed e ->
            stage (fold_left (step consolidate mpath cfg metadata followers) trace s)
            = SeedsFailed e.
Proof.
  induction trace as [|ev trace IH]; intros s Hs; [done|].
  cbn [fold_left]. by apply IH, step_failed.
Qed.

(** C1, as stated, fails: a follower's [contents] changes during a run
    whose first phase fails, since selection has coerced it to a string
    before any render. *)
Lemma follower_contents_coerced :
  let s := run Site.consolidate Site.mpath Site.pmatch Site.readPartials
             (defaults "handlebars") [] Site.files Site.heap
             [Start; Start; Deliver 1%nat; Deliver 0%nat] in
  "b.md" ∈ keys (matches (select Site.mpath Site.pmatch (defaults "handlebars")
                            Site.files Site.heap))
  /\ (exists e, stage s = SeedsFailed e)
  /\ prop (default [] (Site.heap !! 1%nat)) "contents" = VBuf "second"
  /\ prop (default [] (heap s !! 1%nat)) "contents" = VStr "second".
Proof.
  split_and!.
  - vm_compute. apply list_elem_of_here.
  - eexists. vm_compute. reflexivity.
  - vm_compute. reflexivity.
  - vm_compute. reflexivity.
Qed.

(** C1, amended: when the render of a seed fails, the second [each] is
    never started, whatever happens later: [done] has been called with the
    error of the first seed that failed, no follower is waiting to be
    rendered or in flight, and the record of every follower is what
    selection made of it, its [contents] coerced to a string and nothing
    else changed. *)
Theorem seed_failure_ends_run (cfg cfg' : config) (metadata : obj)
    (fs : list (string * nat)) (h : gmap nat obj) (pre post : list event) (i : nat)
    (p : pending) (err : js_error) :
  NoDup (keys fs) -> NoDup (map snd fs) ->
  with_partials readPartials cfg = Ok cfg' ->
  let sel := select mpath pmatch cfg' fs h in
  let s := run consolidate mpath pmatch readPartials cfg metadata fs h pre in
  let s' := run consolidate mpath pmatch readPartials cfg metadata fs h
              (pre ++ Deliver i :: post) in
  stage s = Seeds -> inflight s !! i = Some p -> p_result p = Some (Failed err) ->
  stage s'
  = SeedsFailed
      (render_error (prop (default [] (heap s !! p_data p)) (to_string (layoutKey cfg')))
         (p_file p) err)
  /\ forall f l,
       get f (matches sel) = Some l ->
       (f ∉ queue s')
       /\ (forall q, q ∈ inflight s' -> p_data q <> l)
       /\ exists o, h !! l = Some o /\ heap s' !! l = Some (stringified o).
Proof.
  intros Hkeys Hinj Hwp sel s s'. subst s s'. unfold run. rewrite Hwp. fold sel.
  set (go := step consolidate mpath cfg' metadata (keys (matches sel))).
  set (s0 := begin mpath pmatch cfg' fs h).
  set (s := fold_left go pre s0).
  set (s' := fold_left go (pre ++ Deliver i :: post) s0).
  intros Hstage Hp Hres.
  pose proof (select_selecting mpath pmatch cfg' fs h Hkeys Hinj)
    as (Hdone & Hdisj & Hloc & Hnew & Hold).
  fold sel in Hdone, Hdisj, Hloc, Hnew, Hold.
  assert (stage s'
          = SeedsFailed
              (render_error
                 (prop (default [] (heap s !! p_data p)) (to_string (layoutKey cfg')))
                 (p_file p) err)) as Hfailed.
  { unfold s'. rewrite fold_left_app. cbn [fold_left]. apply steps_failed.
    fold s. unfold go, step. rewrite Hp. unfold rendered. rewrite Hres.
    unfold each_failed, callback, renderFiles. cbn. by rewrite Hstage. }
  split; [done|].
  assert (in_phase_one s') as Hone by (unfold in_phase_one; by rewrite Hfailed).
  assert (sel_thrown sel = None) as Hsel.
  { destruct (sel_thrown sel) as [e|] eqn:Hsel; [|done].
    assert (thrown s0 = Some e /\ inflight s0 = []) as [Hs0 Hs0']
      by (unfold s0, begin; fold sel; by rewrite Hsel).
    unfold s, go in Hp. rewrite (steps_thrown _ _ _ _ _ _ _ e Hs0 Hs0'), Hs0' in Hp.
    done. }
  assert (confined (fun k => k ∈ map snd (templates sel))
            (fun l => exists k, k ∈ map snd (templates sel) /\ get k fs = Some l)
            fs (sel_heap sel) s') as (Hq & Hi & _ & Hh).
  { apply steps_confined; [intros k l Hk Hl; by exists k | | by right].
    unfold s0, begin. fold sel. rewrite Hsel.
    apply begin_confined; [done|right].
    apply steps_later in Hone. unfold s0, begin in Hone.
    fold sel in Hone. by rewrite Hsel in Hone. }
  intros f l Hf.
  assert (f ∈ keys (matches sel)) as Hfollower.
  { apply dec_stable. intros Hn. apply get_None_keys in Hn. congruence. }
  assert (f ∉ map snd (templates sel)) as Hnotseed by (intros Hs; by apply (Hdisj f)).
  assert (~ exists k, k ∈ map snd (templates sel) /\ get k fs = Some l) as HT.
  { intros (k & Hk & Hl). by rewrite (get_inj fs k f l Hinj Hl (Hloc f l Hf)) in Hk. }
  split_and!.
  - intros Hin. by apply Hnotseed, Hq.
  - intros q Hq' <-. by apply HT, Hi.
  - destruct (Hold f l (Hloc f l Hf) (Hdone f (or_intror Hfollower)))
      as [[_ Hnc]|(_ & o & Ho & Ho')]; [by destruct Hnc; right|].
    exists o. split; [done|]. by rewrite Hh.
Qed.

End Runs.

(** ** A name that is no engine *)

Section NoEngine.

Variable consolidate : string -> option property.
Variable mpath : value -> string -> string.
Variable pmatch : string -> value -> bool.
Variable readPartials : string -> value -> value -> result value.

Lemma plugin_named (name : string) :
  name <> EmptyString -> is_Some (consolidate name) ->
  plugin consolidate (VStr name) = Ok (defaults name).
Proof.
  intros Hname Hc. unfold plugin, options, js_or.
  destruct name as [|a name]; [done|]. simpl.
  by rewrite bool_decide_eq_true_2.
Qed.

Lemma step_no_engine (cfg : config) (metadata : obj) (followers : list string)
    (throws : option exn) (s : state) (ev : event) :
  consolidate (to_string (engine cfg)) = Some (Other throws) ->
  (forall p, p ∈ inflight s -> p_result p = None) ->
  (forall p, p ∈ inflight (step consolidate mpath cfg metadata followers s ev) ->
             p_result p = None)
  /\ heap (step consolidate mpath cfg metadata followers s ev) = heap s
  /\ (stage s = Seeds /\ (thrown s <> None \/ queue s <> [] \/ inflight s <> []) ->
      stage (step consolidate mpath cfg metadata followers s ev) = Seeds
      /\ (thrown (step consolidate mpath cfg metadata followers s ev) <> None
          \/ queue (step consolidate mpath cfg metadata followers s ev) <> []
          \/ inflight (step consolidate mpath cfg metadata followers s ev) <> [])).
Proof.
  intros Hother Hfl.
  assert (step consolidate mpath cfg metadata followers s ev = s
          \/ exists file rest, thrown s = None /\ queue s = file :: rest /\ ev = Start)
    as [->|(file & rest & Ht & Hq & ->)]; [|tauto|].
  { unfold step. destruct ev as [|i].
    - destruct (thrown s) eqn:Ht; [by left|].
      destruct (queue s) as [|file rest] eqn:Hq; [by left|]. right. by exists file, rest.
    - left. destruct (inflight s !! i) as [p|] eqn:Hi; [|done].
      by rewrite (Hfl p (list_elem_of_lookup_2 _ _ _ Hi)). }
  unfold step. rewrite Ht, Hq.
  - match goal with
    | |- context [convert _ _ _ _ ?s0 _] => set (s1 := s0)
    end.
    assert (heap (convert consolidate mpath cfg metadata s1 file) = heap s
            /\ stage (convert consolidate mpath cfg metadata s1 file) = stage s
            /\ (forall p, p ∈ inflight (convert consolidate mpath cfg metadata s1 file) ->
                          p_result p = None)
            /\ (thrown (convert consolidate mpath cfg metadata s1 file) <> None
                \/ inflight (convert consolidate mpath cfg metadata s1 file) <> []))
      as (Hheap & Hstage & Hfl' & Hbusy).
    { unfold convert, crash. rewrite Hother.
      destruct (get file (files s1)) as [l|]; [|by split_and!; [..|left]].
      destruct (heap s1 !! l) as [data|]; [|by split_and!; [..|left]].
      destruct (getLayoutPath cfg _) as [layout|e]; [|by split_and!; [..|left]].
      destruct throws as [e|]; cbn; [by split_and!; [..|left]|].
      split_and!; [done|done| |right; by destruct (inflight s)].
      intros p [Hp | ->%list_elem_of_singleton]%elem_of_app; [by apply Hfl | done]. }
    assert (each_complete followers (convert consolidate mpath cfg metadata s1 file)
            = convert consolidate mpath cfg metadata s1 file) as ->.
    { unfold each_complete.
      destruct Hbusy as [Hbusy|Hbusy];
        by destruct (thrown (convert consolidate mpath cfg metadata s1 file)),
             (queue (convert consolidate mpath cfg metadata s1 file)),
             (inflight (convert consolidate mpath cfg metadata s1 file)). }
    split_and!; [done|done|]. intros [Hs _]. split; [congruence | tauto].
Qed.

(** C8: [plugin] takes for an engine whatever consolidate has under the
    name it is given.  Given a name that is not empty under which
    consolidate has something that is no engine, it throws nothing: the
    plugin is built and run on the files.  The selection loop coerces the
    [contents] of the files it selects; no render ever calls back, so no
    record is written after that, and once a file has been selected [done]
    is never called. *)
Theorem other_property_accepted (name : string) (throws : option exn) (metadata : obj)
    (fs : list (string * nat)) (h : gmap nat obj) (trace : list event) :
  name <> EmptyString -> consolidate name = Some (Other throws) ->
  let sel := select mpath pmatch (defaults name) fs h in
  let s := run consolidate mpath pmatch readPartials (defaults name) metadata fs h trace in
  build consolidate mpath pmatch readPartials (VStr name) metadata fs h trace = Ok s
  /\ heap s = sel_heap sel
  /\ (forall p, p ∈ inflight s -> p_result p = None)
  /\ (templates sel <> [] -> stage s = Seeds).
Proof.
  intros Hname Hother sel s. split.
  { unfold build. rewrite plugin_named; [done|done|]. rewrite Hother. by eexists. }
  subst s. unfold run.
  change (with_partials readPartials (defaults name)) with (Ok (defaults name)).
  fold sel.
  set (go := step consolidate mpath (defaults name) metadata (keys (matches sel))).
  enough (forall s0,
            heap s0 = sel_heap sel
            /\ (forall p, p ∈ inflight s0 -> p_result p = None)
            /\ (templates sel <> [] ->
                stage s0 = Seeds
                /\ (thrown s0 <> None \/ queue s0 <> [] \/ inflight s0 <> [])) ->
            heap (fold_left go trace s0) = sel_heap sel
            /\ (forall p, p ∈ inflight (fold_left go trace s0) -> p_result p = None)
            /\ (templates sel <> [] ->
                stage (fold_left go trace s0) = Seeds
                /\ (thrown (fold_left go trace s0) <> None
                    \/ queue (fold_left go trace s0) <> []
                    \/ inflight (fold_left go trace s0) <> []))) as Hgen.
  { destruct (Hgen (begin mpath pmatch (defaults name) fs h)) as (Hheap & Hfl & Hstage).
    - unfold begin. fold sel. destruct (sel_thrown sel) as [e|].
      + cbn. split_and!; [done| |by split; [|left]].
        intros p Hp. by apply elem_of_nil in Hp.
      + destruct (each_complete_frame (keys (matches sel))
                    {| files := fs; heap := sel_heap sel; queue := map snd (templates sel);
                       inflight := []; stage := Seeds; thrown := None |})
          as (_ & Hheap & Hfl & _).
        split_and!; [done| |].
        * rewrite Hfl. intros p Hp. by apply elem_of_nil in Hp.
        * intros Hseeds. unfold each_complete. cbn.
          destruct (templates sel); [done|]. cbn. split; [done|]. right. by left.
    - split_and!; [done|done|]. intros Hseeds. by destruct (Hstage Hseeds). }
  induction trace as [|ev trace IH]; intros s0 Hs0; [done|].
  cbn [fold_left]. apply IH. destruct Hs0 as (Hheap & Hfl & Hstage).
  destruct (step_no_engine (defaults name) metadata (keys (matches sel)) throws s0 ev
              Hother Hfl) as (Hfl' & Hheap' & Hstage').
  fold go in Hfl', Hheap', Hstage'.
  split_and!; [congruence | done |]. intros Hseeds. by apply Hstage', Hstage.
Qed.

End NoEngine.

(** ** Renaming *)

Lemma values_del {A : Type} (k : string) (o : list (string * A)) :
  map snd (del k o) `sublist_of` map snd o.
Proof.
  induction o as [|[k' v'] o IH]; cbn [del map snd]; [constructor|].
  destruct (String.eqb k k'); cbn [map snd]; [by apply sublist_cons | by apply sublist_skip].
Qed.

Lemma elem_of_values_del {A : Type} (k : string) (x : A) (o : list (string * A)) :
  x ∈ map snd (del k o) -> x ∈ map snd o.
Proof. intros Hx. apply (elem_of_sublist _ _ _ Hx), values_del. Qed.

Lemma values_del_gone {A : Type} (k : string) (v : A) (o : list (string * A)) :
  NoDup (map snd o) -> get k o = Some v -> v ∉ map snd (del k o).
Proof.
  induction o as [|[k' v'] o IH]; cbn [del map snd get]; [done|].
  intros [Hv' Hnd]%NoDup_cons. destruct (String.eqb k k').
  - intros [= ->] Hin. by eapply Hv', elem_of_values_del.
  - intros Hget. cbn [map snd]. apply not_elem_of_cons. split; [|by apply IH].
    intros ->. apply Hv'. apply get_Some_elem in Hget.
    apply list_elem_of_fmap. by exists (k, v').
Qed.

Lemma values_set {A : Type} (k : string) (v : A) (o : list (string * A)) :
  NoDup (map snd o) -> v ∉ map snd o -> NoDup (map snd (set k v o)).
Proof.
  induction o as [|[k' v'] o IH]; cbn [set map snd].
  - intros _ _. apply NoDup_singleton.
  - intros [Hv' Hnd]%NoDup_cons [Hne Hv]%not_elem_of_cons.
    destruct (String.eqb k k'); cbn [map snd]; apply NoDup_cons.
    + done.
    + split; [|by apply IH]. intros [->|Hin]%elem_of_values_set; done.
Qed.

Lemma delete_gone {A : Type} (l : list A) (i : nat) (x : A) :
  NoDup l -> l !! i = Some x -> x ∉ delete i l.
Proof.
  intros Hnd Hi. rewrite delete_take_drop.
  rewrite <- (take_drop_middle l i x Hi) in Hnd.
  apply NoDup_app in Hnd as (_ & Hdisj & [Hx _]%NoDup_cons).
  intros [Hin|Hin]%elem_of_app; [|done].
  apply (Hdisj x Hin), list_elem_of_here.
Qed.

(** *** The new key *)

Lemma chars_append (s t : string) : chars (s +:+ t) = chars s ++ chars t.
Proof. induction s as [|a s IH]; [done|]. rewrite append_cons. cbn [chars app]. by f_equal. Qed.

Lemma unchars_chars (s : string) : unchars (chars s) = s.
Proof. induction s as [|a s IH]; [done|]. cbn. by f_equal. Qed.

Lemma take_until_app (f : ascii -> bool) (l k : list ascii) :
  forallb (fun a => negb (f a)) l = true ->
  take_until f (l ++ k) = l ++ take_until f k.
Proof.
  induction l as [|a l IH]; [done|]. cbn. intros [Ha Hl]%andb_prop.
  apply negb_true_iff in Ha. rewrite Ha. f_equal. by apply IH.
Qed.

Lemma drop_until_app (f : ascii -> bool) (l k : list ascii) :
  forallb (fun a => negb (f a)) l = true ->
  drop_until f (l ++ k) = drop_until f k.
Proof.
  induction l as [|a l IH]; [done|]. cbn. intros [Ha Hl]%andb_prop.
  apply negb_true_iff in Ha. rewrite Ha. by apply IH.
Qed.

Lemma forallb_rev {A : Type} (f : A -> bool) (l : list A) :
  forallb f (rev l) = forallb f l.
Proof.
  induction l as [|a l IH]; [done|]. cbn. rewrite forallb_app, IH. cbn.
  rewrite andb_true_r. apply andb_comm.
Qed.

Lemma join_segs_snoc (dirs : list string) (d base : string) :
  join_segs ((d :: dirs) ++ [base]) = join_segs (d :: dirs) +:+ "/" +:+ base.
Proof.
  revert d. induction dirs as [|d' dirs IH]; intros d; [done|].
  change (join_segs ((d :: d' :: dirs) ++ [base]))
    with (d +:+ "/" +:+ join_segs ((d' :: dirs) ++ [base])).
  rewrite IH.
  change (join_segs (d :: d' :: dirs)) with (d +:+ "/" +:+ join_segs (d' :: dirs)).
  assert (forall a b c : string, (a +:+ b) +:+ c = a +:+ b +:+ c) as Hassoc.
  { intros a b c. induction a as [|x a IHa]; [done|]. rewrite !append_cons. by f_equal. }
  by rewrite !Hassoc.
Qed.

Lemma plain_inv (seg : string) :
  plain seg = true ->
  no_slash seg = true /\ String.eqb seg EmptyString = false
  /\ String.eqb seg "." = false /\ String.eqb seg ".." = false.
Proof.
  unfold plain. intros [[[H1 H2]%andb_prop H3]%andb_prop H4]%andb_prop.
  by rewrite !negb_true_iff in *.
Qed.

Lemma normalize_segs_plain (above : bool) (segs : list string) :
  forall acc, Forall (fun seg => plain seg = true) segs ->
              normalize_segs above acc segs = rev acc ++ segs.
Proof.
  induction segs as [|seg segs IH]; intros acc Hall; cbn [normalize_segs].
  - by rewrite app_nil_r.
  - apply Forall_cons in Hall as [(_ & -> & -> & ->)%plain_inv Hall]. cbn [orb].
    rewrite IH by done. cbn [rev]. by rewrite <- app_assoc.
Qed.

Lemma split_join (seg : string) (segs : list string) :
  Forall (fun seg => no_slash seg = true) (seg :: segs) ->
  split "/" (join_segs (seg :: segs)) = seg :: segs.
Proof.
  revert seg. induction segs as [|seg' segs IH]; intros seg Hall.
  - apply Forall_cons in Hall as [Hseg _]. by apply split_no_slash.
  - apply Forall_cons in Hall as [Hseg Hall].
    change (join_segs (seg :: seg' :: segs))
      with (seg +:+ String "/" (join_segs (seg' :: segs))).
    by rewrite split_append, split_no_slash, IH.
Qed.

Lemma rev_chars_head (s : string) :
  s <> EmptyString -> no_slash s = true ->
  exists z l, rev (chars s) = z :: l /\ is_slash z = false.
Proof.
  intros Hs Hno. unfold no_slash in Hno. rewrite <- forallb_rev in Hno.
  destruct (rev (chars s)) as [|z l] eqn:E.
  - destruct s; [done|]. apply (f_equal (@rev _)) in E.
    rewrite rev_involutive in E. done.
  - exists z, l. split; [done|]. cbn in Hno. apply andb_prop in Hno as [Hz _].
    by apply negb_true_iff.
Qed.

Lemma chars_head (s : string) :
  s <> EmptyString -> no_slash s = true ->
  exists a l, chars s = a :: l /\ is_slash a = false.
Proof.
  intros Hs Hno. destruct s as [|a s]; [done|]. exists a, (chars s). split; [done|].
  unfold no_slash in Hno. cbn in Hno. apply andb_prop in Hno as [Ha _].
  by apply negb_true_iff.
Qed.

Lemma join_segs_head (seg : string) (segs : list string) :
  exists rest, chars (join_segs (seg :: segs)) = chars seg ++ rest.
Proof.
  destruct segs as [|seg' segs].
  - exists []. by rewrite app_nil_r.
  - eexists. change (join_segs (seg :: seg' :: segs))
      with (seg +:+ "/" +:+ join_segs (seg' :: segs)).
    by rewrite chars_append.
Qed.

Lemma join_segs_last (segs : list string) (seg : string) :
  exists front, rev (chars (join_segs (segs ++ [seg]))) = rev (chars seg) ++ front.
Proof.
  destruct segs as [|d dirs].
  - exists []. by rewrite app_nil_r.
  - eexists. rewrite join_segs_snoc, !chars_append, !rev_app_distr. by rewrite <- app_assoc.
Qed.

Lemma path_normalize_plain (segs : list string) (seg : string) :
  Forall (fun seg => plain seg = true) (segs ++ [seg]) ->
  path_normalize (join_segs (segs ++ [seg])) = join_segs (segs ++ [seg]).
Proof.
  intros Hall.
  assert (Forall (fun seg => no_slash seg = true) (segs ++ [seg])) as Hno.
  { eapply Forall_impl; [done|]. intros x Hx. by apply plain_inv in Hx as (? & _). }
  assert (plain seg = true) as Hseg.
  { apply (proj1 (Forall_forall _ _) Hall), elem_of_app. right. apply list_elem_of_here. }
  apply plain_inv in Hseg as (Hseg1 & Hseg2%String.eqb_neq & _).
  destruct (segs ++ [seg]) as [|s1 rest] eqn:E; [by destruct segs|].
  assert (plain s1 = true) as Hs1
    by (apply (proj1 (Forall_forall _ _) Hall), list_elem_of_here).
  apply plain_inv in Hs1 as (Hs11 & Hs12%String.eqb_neq & _).
  destruct (join_segs_head s1 rest) as [tl Htl].
  destruct (chars_head s1 Hs12 Hs11) as (a & l & Ha & Hslash).
  assert (match rev (chars (join_segs (s1 :: rest))) with
          | z :: _ => is_slash z
          | [] => false
          end = false) as Htrail.
  { rewrite <- E. destruct (join_segs_last segs seg) as [front ->].
    by destruct (rev_chars_head seg Hseg2 Hseg1) as (z & l' & -> & Hzslash). }
  unfold path_normalize. rewrite Htrail, Htl, Ha. cbn [app]. rewrite Hslash. cbn [negb].
  rewrite split_join by done. rewrite normalize_segs_plain by done. cbn [rev app].
  destruct (join_segs (s1 :: rest)) eqn:Ej; [exfalso | reflexivity].
  rewrite Ha in Htl. discriminate Htl.
Qed.

Lemma drop_while_head (f : ascii -> bool) (z : ascii) (l : list ascii) :
  f z = false -> drop_while f (z :: l) = z :: l.
Proof. intros Hz. cbn. by rewrite Hz. Qed.

Lemma has_dot_chars (s : string) :
  has_dot s = false -> forallb (fun a => negb (is_dot a)) (chars s) = true.
Proof.
  induction s as [|a s IH]; [done|]. cbn. intros [Ha Hs]%orb_false_elim.
  unfold is_dot. rewrite Ha. cbn. by apply IH.
Qed.

Lemma not_dotdot (name ext : string) :
  name <> EmptyString -> ~ (name = "." /\ ext = EmptyString) ->
  String.eqb (name +:+ "." +:+ ext) ".." = false.
Proof.
  intros Hname Hnot. apply String.eqb_neq. intros Heq.
  destruct name as [|a [|b name]]; [done| |].
  - injection Heq as -> Hext. apply Hnot. split; [done|].
    by destruct ext.
  - injection Heq as _ Heq. by destruct name.
Qed.

Lemma path_parse_plain (dirs : list string) (name ext : string) :
  Forall (fun seg => plain seg = true) dirs ->
  no_slash name = true -> name <> EmptyString ->
  no_slash ext = true -> has_dot ext = false ->
  ~ (name = "." /\ ext = EmptyString) ->
  path_parse (join_segs (dirs ++ [name +:+ "." +:+ ext]))
  = {| p_dir := join_segs dirs; p_base := name +:+ "." +:+ ext;
       p_ext := "." +:+ ext; p_name := name |}.
Proof.
  intros Hdirs Hname Hname' Hext Hdot Hnot.
  set (base := name +:+ "." +:+ ext).
  assert (chars base = chars name ++ "."%char :: chars ext) as Hbase.
  { unfold base. by rewrite !chars_append. }
  assert (rev (chars base) = rev (chars ext) ++ "."%char :: rev (chars name)) as Hrev.
  { rewrite Hbase, rev_app_distr. cbn [rev]. by rewrite <- app_assoc. }
  assert (no_slash base = true) as Hbase_slash.
  { unfold no_slash in *. rewrite Hbase, forallb_app. cbn. by rewrite Hname, Hext. }
  assert (base <> EmptyString) as Hbase_ne.
  { intros Heq. apply (f_equal chars) in Heq. rewrite Hbase in Heq.
    by destruct (chars name). }
  destruct (rev_chars_head base Hbase_ne Hbase_slash) as (z & lz & Hz & Hzslash).
  destruct (rev_chars_head name Hname' Hname) as (y & ly & Hy & _).
  destruct (chars_head name Hname' Hname) as (a & la & Ha & Haslash).
  assert (forallb (fun a => negb (is_slash a)) (rev (chars base)) = true) as Hrb
    by (by rewrite forallb_rev).
  assert (forallb (fun a => negb (is_dot a)) (rev (chars ext)) = true) as Hre
    by (rewrite forallb_rev; by apply has_dot_chars).
  assert (exists tp,
            rev (chars (join_segs (dirs ++ [base]))) = rev (chars base) ++ tp
            /\ take_until is_slash tp = []
            /\ drop_until is_slash tp = tp
            /\ match tp with
               | _ :: d :: ds => unchars (rev (d :: ds))
               | _ => if match chars (join_segs (dirs ++ [base])) with
                         | c :: _ => is_slash c
                         | [] => false
                         end
                      then "/" else EmptyString
               end = join_segs dirs) as (tp & Hkey & Htake & Hdrop & Hdir).
  { destruct dirs as [|d dirs].
    - exists []. cbn [app join_segs]. rewrite app_nil_r. split_and!; try done.
      rewrite Hbase, Ha. cbn [app]. by rewrite Haslash.
    - exists ("/"%char :: rev (chars (join_segs (d :: dirs)))).
      rewrite join_segs_snoc, !chars_append, !rev_app_distr. cbn [chars rev app].
      rewrite <- !app_assoc. cbn [app]. split_and!; try done.
      assert (plain d = true) as Hd
        by (apply (proj1 (Forall_forall _ _) Hdirs), list_elem_of_here).
      apply plain_inv in Hd as (Hd1 & Hd2%String.eqb_neq & _).
      destruct (join_segs_head d dirs) as [tl Htl].
      destruct (chars_head d Hd2 Hd1) as (c & lc & Hc & _).
      destruct (rev (chars (join_segs (d :: dirs)))) as [|x lx] eqn:Hx.
      + apply (f_equal (@rev _)) in Hx. rewrite rev_involutive, Htl, Hc in Hx. done.
      + change (rev lx ++ [x]) with (rev (x :: lx)).
        by rewrite <- Hx, rev_involutive, unchars_chars. }
  assert (drop_while is_slash (rev (chars base) ++ tp) = rev (chars base) ++ tp) as Hr.
  { rewrite Hz. by apply drop_while_head. }
  assert (take_until is_slash (rev (chars base) ++ tp) = rev (chars base)) as Htk
    by (by rewrite take_until_app, Htake, app_nil_r).
  assert (drop_until is_slash (rev (chars base) ++ tp) = tp) as Hdr
    by (by rewrite drop_until_app).
  assert (take_until is_dot (rev (chars base)) = rev (chars ext)) as Htd.
  { rewrite Hrev, take_until_app by done. cbn. by rewrite app_nil_r. }
  assert (drop_until is_dot (rev (chars base)) = "."%char :: y :: ly) as Hdd.
  { rewrite Hrev, drop_until_app by done. cbn. by rewrite Hy. }
  unfold path_parse. fold base. rewrite Hkey, Hr, Htk, Hdr, Hdir, Htd, Hdd.
  rewrite rev_involutive, unchars_chars. unfold base at 1. rewrite not_dotdot by done.
  cbn [negb tail]. rewrite <- Hy, !rev_involutive, !unchars_chars.
  cbn [unchars]. by rewrite unchars_chars.
Qed.

Lemma plain_html (name : string) :
  no_slash name = true -> plain (name +:+ ".html") = true.
Proof.
  intros Hname. unfold plain.
  assert (no_slash (name +:+ ".html") = true) as ->.
  { unfold no_slash in *. rewrite chars_append, forallb_app, Hname. done. }
  assert (forall t : string,
             (String.length t < 5)%nat -> String.eqb (name +:+ ".html") t = false)
    as Hlen.
  { intros t Ht. apply String.eqb_neq. intros Heq. apply (f_equal String.length) in Heq.
    assert (forall a b,
               String.length (a +:+ b) = (String.length a + String.length b)%nat) as Happ.
    { intros a b. induction a as [|x a IHa]; [done|]. rewrite append_cons. cbn. by rewrite IHa. }
    rewrite Happ in Heq. cbn in Heq. lia. }
  rewrite !Hlen by (cbn; lia). done.
Qed.

(** The key [dir/name.ext] becomes [dir/name.html]. *)
Lemma renamed_plain (dirs : list string) (name ext : string) :
  Forall (fun seg => plain seg = true) dirs ->
  no_slash name = true -> name <> EmptyString ->
  no_slash ext = true -> has_dot ext = false ->
  ~ (name = "." /\ ext = EmptyString) ->
  renamed (join_segs (dirs ++ [name +:+ "." +:+ ext]))
  = join_segs (dirs ++ [name +:+ ".html"]).
Proof.
  intros Hdirs Hname Hname' Hext Hdot Hnot. unfold renamed.
  rewrite path_parse_plain by done. cbn [p_dir p_name].
  assert (Forall (fun seg => plain seg = true) (dirs ++ [name +:+ ".html"])) as Hall.
  { apply Forall_app. split; [done|]. apply Forall_singleton. by apply plain_html. }
  rewrite <- (path_normalize_plain dirs (name +:+ ".html")) by done.
  unfold path_join. destruct dirs as [|d dirs].
  - cbn [join_segs app]. destruct name; [done|]. done.
  - rewrite join_segs_snoc.
    destruct (join_segs (d :: dirs)) eqn:Ej.
    + exfalso. assert (plain d = true) as Hd
        by (apply (proj1 (Forall_forall _ _) Hdirs), list_elem_of_here).
      apply plain_inv in Hd as (Hd1 & Hd2%String.eqb_neq & _).
      destruct (join_segs_head d dirs) as [tl Htl]. rewrite Ej in Htl.
      destruct (chars_head d Hd2 Hd1) as (c & lc & Hc & _). rewrite Hc in Htl. done.
    + destruct name; [done|]. done.
Qed.

(** *** The records under a key or in flight *)

Section Renaming.

Variable consolidate : string -> option property.
Variable mpath : value -> string -> string.
Variable cfg : config.
Variable metadata : obj.
Variable followers : list string.
Hypothesis renaming : truthy (rename cfg) = true.

Lemma live_each_complete (s : state) : live (each_complete followers s) = live s.
Proof.
  destruct (each_complete_frame followers s) as (Hf & _ & Hi & _).
  unfold live. by rewrite Hf, Hi.
Qed.

Lemma step_live (s : state) (ev : event) :
  NoDup (live s) ->
  NoDup (live (step consolidate mpath cfg metadata followers s ev))
  /\ forall l, l ∈ live (step consolidate mpath cfg metadata followers s ev) -> l ∈ live s.
Proof.
  intros Hnd. unfold step. destruct ev as [|i].
  - destruct (thrown s); [done|]. destruct (queue s) as [|file rest]; [done|].
    match goal with
    | |- context [convert _ _ _ _ ?s0 _] => set (s1 := s0)
    end.
    rewrite live_each_complete.
    unfold convert, crash. change (files s1) with (files s).
    destruct (get file (files s)) as [l|] eqn:Hget; [|done].
    change (heap s1) with (heap s). destruct (heap s !! l) as [data|]; [|done].
    destruct (getLayoutPath cfg (prop data (to_string (layoutKey cfg)))); [|done].
    rewrite renaming. unfold live in *.
    apply NoDup_app in Hnd as (Hfiles & Hdisj & Hflight).
    assert (l ∈ map snd (files s)) as Hl.
    { apply get_Some_elem in Hget. apply list_elem_of_fmap. by exists (file, l). }
    assert (NoDup (map snd (del file (files s)))) as Hdel
      by (eapply sublist_NoDup; [exact Hfiles | apply values_del]).
    destruct (call_render _ _ _); cbn.
    + split.
      * rewrite map_app. cbn [map]. apply NoDup_app. split_and!; [done| |].
        -- intros x Hx [Hin| ->%list_elem_of_singleton]%elem_of_app.
           ++ apply (Hdisj x); [|done]. by eapply elem_of_values_del.
           ++ by apply (values_del_gone file l (files s)).
        -- apply NoDup_app. split_and!; [done| |apply NoDup_singleton].
           intros x Hx ->%list_elem_of_singleton. by apply (Hdisj l).
      * intros x [Hin|Hin]%elem_of_app; apply elem_of_app.
        -- left. by eapply elem_of_values_del.
        -- rewrite map_app in Hin. cbn [map] in Hin.
           apply elem_of_app in Hin as [?| ->%list_elem_of_singleton]; [by right | by left].
    + split.
      * apply NoDup_app. split_and!; [done| |done].
        intros x Hx. by eapply Hdisj, elem_of_values_del.
      * intros x [Hin|Hin]%elem_of_app; apply elem_of_app; [left | by right].
        by eapply elem_of_values_del.
  - destruct (inflight s !! i) as [p|] eqn:Hp; [|done].
    destruct (p_result p) as [result|]; [|done].
    unfold live in Hnd. apply NoDup_app in Hnd as (Hfiles & Hdisj & Hflight).
    assert (map p_data (inflight s) !! i = Some (p_data p)) as Hp'
      by (by rewrite list_lookup_fmap, Hp).
    assert (p_data p ∉ map snd (files s)) as Hfresh.
    { intros Hin. apply (Hdisj _ Hin). by eapply list_elem_of_lookup_2. }
    assert (map p_data (delete i (inflight s)) = delete i (map p_data (inflight s))) as Hmap.
    { rewrite !delete_take_drop. by rewrite map_app, <- fmap_take, <- fmap_drop. }
    unfold rendered. destruct result as [str|err]; cbn.
    + rewrite live_each_complete. unfold live. cbn. rewrite Hmap. split.
      * apply NoDup_app. split_and!.
        -- by apply values_set.
        -- intros x [->|Hx]%elem_of_values_set.
           ++ by apply delete_gone.
           ++ intros Hin. apply (Hdisj x Hx). by eapply list_elem_of_delete_inv.
        -- eapply sublist_NoDup; [exact Hflight | apply sublist_delete].
      * intros x [[->|Hx]%elem_of_values_set|Hx]%elem_of_app; apply elem_of_app.
        -- right. by eapply list_elem_of_lookup_2.
        -- by left.
        -- right. by eapply list_elem_of_delete_inv.
    + assert (live (each_failed followers
                      {| files := files s; heap := heap s; queue := queue s;
                         inflight := delete i (inflight s); stage := stage s;
                         thrown := thrown s |}
                      (render_error
                         (prop (default [] (heap s !! p_data p)) (to_string (layoutKey cfg)))
                         (p_file p) err))
              = map snd (files s) ++ map p_data (delete i (inflight s))) as ->.
      { unfold each_failed, callback, renderFiles. cbn. by destruct (stage s). }
      rewrite Hmap. split.
      * apply NoDup_app. split_and!; [done| |].
        -- intros x Hx Hin. apply (Hdisj x Hx). by eapply list_elem_of_delete_inv.
        -- eapply sublist_NoDup; [exact Hflight | apply sublist_delete].
      * intros x [Hx|Hx]%elem_of_app; apply elem_of_app; [by left | right].
        by eapply list_elem_of_delete_inv.
Qed.

Lemma steps_live (trace : list event) :
  forall s, NoDup (live s) ->
    NoDup (live (fold_left (step consolidate mpath cfg metadata followers) trace s))
    /\ forall l,
        l ∈ live (fold_left (step consolidate mpath cfg metadata followers) trace s) ->
        l ∈ live s.
Proof.
  induction trace as [|ev trace IH]; intros s Hnd; [done|].
  cbn [fold_left]. destruct (step_live s ev Hnd) as [Hnd' Hsub].
  destruct (IH _ Hnd') as [Hnd'' Hsub']. split; [done|]. intros l Hl. by apply Hsub, Hsub'.
Qed.

End Renaming.

Section RenamingRuns.

Variable consolidate : string -> option property.
Variable mpath : value -> string -> string.
Variable pmatch : string -> value -> bool.
Variable readPartials : string -> value -> value -> result value.



(** C7: with [rename] set, the record of a file whose render fails is
    under no key when the engine calls back, its old key having been
    removed before the engine was called, and under no key at any later
    time: it is put neither under the new key nor back under the old one. *)
Theorem failed_rename_loses_file (cfg cfg' : config) (metadata : obj)
    (fs : list (string * nat)) (h : gmap nat obj) (pre post : list event) (i : nat)
    (p : pending) (err : js_error) :
  NoDup (map snd fs) ->
  with_partials readPartials cfg = Ok cfg' ->
  truthy (rename cfg) = true ->
  let s := run consolidate mpath pmatch readPartials cfg metadata fs h pre in
  let s' := run consolidate mpath pmatch readPartials cfg metadata fs h
              (pre ++ Deliver i :: post) in
  inflight s !! i = Some p -> p_result p = Some (Failed err) ->
  (forall k, get k (files s) <> Some (p_data p))
  /\ (forall k, get k (files s') <> Some (p_data p)).
Proof.
  intros Hinj Hwp Hrename s s'. subst s s'. unfold run. rewrite Hwp.
  destruct (with_partials_fields readPartials cfg cfg' Hwp) as (_ & _ & _ & Hr).
  rewrite <- Hr in Hrename.
  set (fl := keys (matches (select mpath pmatch cfg' fs h))).
  set (go := step consolidate mpath cfg' metadata fl).
  set (s0 := begin mpath pmatch cfg' fs h).
  set (s := fold_left go pre s0).
  intros Hp Hres.
  assert (NoDup (live s0)) as Hs0.
  { unfold s0, begin.
    destruct (sel_thrown (select mpath pmatch cfg' fs h)).
    - unfold live. cbn. by rewrite app_nil_r.
    - rewrite live_each_complete. unfold live. cbn. by rewrite app_nil_r. }
  destruct (steps_live consolidate mpath cfg' metadata fl Hrename pre s0 Hs0) as [Hs _].
  fold go in Hs. fold s in Hs.
  assert (forall s1 : state, p_data p ∉ live s1 ->
                             forall k, get k (files s1) <> Some (p_data p)) as Hgone.
  { intros s1 Hlive k Hk%get_Some_elem. apply Hlive, elem_of_app. left.
    apply list_elem_of_fmap. by exists (k, p_data p). }
  pose proof Hs as (Hfiles & Hdisj & Hflight)%NoDup_app.
  assert (map p_data (inflight s) !! i = Some (p_data p)) as Hp'
    by (by rewrite list_lookup_fmap, Hp).
  split.
  - intros k Hk%get_Some_elem. apply (Hdisj (p_data p)).
    + apply list_elem_of_fmap. by exists (k, p_data p).
    + by eapply list_elem_of_lookup_2.
  - apply Hgone. rewrite fold_left_app. cbn [fold_left]. fold s.
    destruct (step_live consolidate mpath cfg' metadata fl Hrename s (Deliver i) Hs)
      as [Hs1 _].
    fold go in Hs1.
    destruct (steps_live consolidate mpath cfg' metadata fl Hrename post _ Hs1) as [_ Hsub].
    fold go in Hsub. intros Hin%Hsub. revert Hin.
    unfold go, step. rewrite Hp. unfold rendered. rewrite Hres.
    unfold each_failed, callback, renderFiles, live. cbn.
    assert (p_data p ∉ map snd (files s) ++ map p_data (delete i (inflight s))) as Hnot.
    { intros [Hin|Hin]%elem_of_app.
      - apply (Hdisj _ Hin). by eapply list_elem_of_lookup_2.
      - revert Hin.
        replace (map p_data (delete i (inflight s)))
          with (delete i (map p_data (inflight s)))
          by (rewrite !delete_take_drop; by rewrite map_app, <- fmap_take, <- fmap_drop).
        by apply delete_gone. }
    by destruct (stage s).
Qed.

End RenamingRuns.

(** ** The properties on the small site *)

(** Two posts with the layout [post], which the layout extension [html]
    completes: the first is rendered as the seed of [layouts/post.html], the
    second as its follower, and [done] is called without an error. *)
Example two_posts :
  let fs := [("a.md", 0%nat); ("b.md", 1%nat)] in
  let h : gmap nat obj :=
    {[ 0%nat := [("title", VStr "A"); ("layout", VStr "post"); ("contents", VBuf "one")];
       1%nat := [("title", VStr "B"); ("layout", VStr "post"); ("contents", VBuf "two")] ]} in
  exists s,
    build Site.consolidate Site.mpath Site.pmatch Site.readPartials
      (VObj [("engine", VStr "handlebars"); ("layoutExtension", VStr "html")]) [] fs h
      [Start; Deliver 0%nat; Start; Deliver 0%nat] = Ok s
    /\ stage s = Finished None
    /\ files s = fs
    /\ prop (default [] (heap s !! 0%nat)) "contents" = VBuf "<h1>A</h1>one"
    /\ prop (default [] (heap s !! 1%nat)) "contents" = VBuf "<h1>B</h1>two".
Proof. eexists. split_and!; by_compute. Qed.


Lemma seed_failure_ends_run_witness :
  NoDup (keys Site.files) /\ NoDup (map snd Site.files)
  /\ stage (Site.run (defaults "handlebars") [Start; Start]) = Seeds
  /\ inflight (Site.run (defaults "handlebars") [Start; Start]) !! 1%nat
     = Some (Site.about "about.md")
  /\ stage (Site.run (defaults "handlebars") ([Start; Start] ++ [Deliver 1%nat; Deliver 0%nat]))
     = SeedsFailed
         (render_error
            (prop (default [] (heap (Site.run (defaults "handlebars") [Start; Start])
                                 !! p_data (Site.about "about.md")))
               (to_string (layoutKey (defaults "handlebars"))))
            (p_file (Site.about "about.md")) Site.enoent).
Proof.
  assert (NoDup (keys Site.files)) as Hkeys by by_decide.
  assert (NoDup (map snd Site.files)) as Hinj by by_decide.
  split_and!; [exact Hkeys | exact Hinj | by_compute | by_compute |].
  apply (seed_failure_ends_run Site.consolidate Site.mpath Site.pmatch Site.readPartials
           (defaults "handlebars") (defaults "handlebars") [] Site.files Site.heap
           [Start; Start] [Deliver 0%nat] 1%nat (Site.about "about.md") Site.enoent
           Hkeys Hinj); by_compute.
Defined.

Lemma other_property_accepted_witness :
  exists s,
    build Site.consolidate Site.mpath Site.pmatch Site.readPartials (VStr "requires") []
      Site.files Site.heap [Start] = Ok s
    /\ thrown s = Some (TypeError "render is not a function")
    /\ stage s = Seeds
    /\ prop (default [] (Site.heap !! 1%nat)) "contents" = VBuf "second"
    /\ prop (default [] (heap s !! 1%nat)) "contents" = VStr "second".
Proof.
  eexists. split.
  - apply (other_property_accepted Site.consolidate Site.mpath Site.pmatch
             Site.readPartials "requires" (Some (TypeError "render is not a function")) []
             Site.files Site.heap [Start]); [discriminate | reflexivity].
  - split_and!; by_compute.
Defined.


Lemma failed_rename_loses_file_witness :
  NoDup (map snd Site.files)
  /\ truthy (rename Site.renaming) = true
  /\ inflight (Site.run Site.renaming [Start; Start]) !! 1%nat
     = Some (Site.about "about.html")
  /\ forall k,
       get k (files (Site.run Site.renaming ([Start; Start] ++ [Deliver 1%nat; Deliver 0%nat])))
       <> Some 2%nat.
Proof.
  assert (NoDup (map snd Site.files)) as Hinj by by_decide.
  split_and!; [exact Hinj | by_compute | by_compute |].
  apply (failed_rename_loses_file Site.consolidate Site.mpath Site.pmatch Site.readPartials
           Site.renaming Site.renaming [] Site.files Site.heap
           [Start; Start] [Deliver 0%nat] 1%nat (Site.about "about.html") Site.enoent Hinj);
    by_compute.
Defined.

(** * Further properties *)

(** ** The options *)

Lemma get_omit (o : obj) (names : list string) (k : string) :
  get k (omit o names) = if decide (k ∈ names) then None else get k o.
Proof.
  unfold omit, obj. induction o as [|[k' v] o IH]; [by case_decide|].
  assert (existsb (String.eqb k') names = true <-> k' ∈ names) as Hex.
  { rewrite existsb_exists. split.
    - intros (x & Hx & ->%String.eqb_eq). by apply list_elem_of_In.
    - intros Hin. exists k'. split; [by apply list_elem_of_In | apply String.eqb_refl]. }
  destruct (decide (k' ∈ names)) as [Hin|Hin].
  - rewrite filter_cons_False, IH.
    + cbn [get]. destruct (String.eqb_spec k k') as [->|]; by repeat case_decide.
    + cbn [fst]. apply Hex in Hin. rewrite Hin. cbn. tauto.
  - rewrite filter_cons_True.
    + cbn [get]. destruct (String.eqb_spec k k') as [->|]; by repeat case_decide.
    + cbn [fst]. destruct (existsb (String.eqb k') names); [by destruct Hin; apply Hex | done].
Qed.

(** X2: the parameters kept for the engine are the options that are not
    settings of the plugin, each with its value; no setting is among them,
    and a bare engine name leaves none. *)
Theorem plugin_params (consolidate : string -> option property) (opts : value)
    (cfg : config) :
  plugin consolidate opts = Ok cfg ->
  forall k,
    get k (params cfg)
    = if decide (k ∈ settings) then None
      else match opts with
           | VObj o => get k o
           | _ => None
           end.
Proof.
  unfold plugin. intros Hcfg k.
  destruct (negb _); [done|]. destruct (negb _); [done|].
  destruct (expose _) as [[]|e]; [|done].
  injection Hcfg as <-. cbn [params]. rewrite get_omit.
  case_decide as Hk; [done|].
  unfold options, js_or. destruct opts as [| |b|n|s|s|o|text throws]; try done.
  - by destruct b.
  - by destruct (truthy (VNum n)).
  - destruct (truthy (VStr s)); [|done]. cbn [get].
    destruct (String.eqb_spec k "engine") as [->|]; [|done].
    destruct Hk. unfold settings. set_solver.
Qed.

(** X1: when the engine option is set and consolidate has something under
    its name, [plugin] calls the [exposeConsolidate] hook, if there is one:
    it throws what the hook throws and returns otherwise.  What it returns
    holds the engine option as it was given; its directory and its layout
    key are never falsy, [layouts] and [layout] standing in for a missing
    or falsy option; its layout extension is the empty string unless the
    option is truthy. *)
Theorem plugin_returns (consolidate : string -> option property) (opts : value) :
  let name := member (options opts) "engine" in
  let hook := member (options opts) "exposeConsolidate" in
  (truthy name = true -> is_Some (consolidate (to_string name)) ->
   (forall text e, hook = VFun text (Some e) -> plugin consolidate opts = Throw e)
   /\ ((forall text e, hook <> VFun text (Some e)) ->
       exists cfg, plugin consolidate opts = Ok cfg))
  /\ forall cfg,
      plugin consolidate opts = Ok cfg ->
      engine cfg = name /\ truthy name = true
      /\ is_Some (consolidate (to_string name))
      /\ (forall text e, hook <> VFun text (Some e))
      /\ truthy (dir cfg) = true /\ truthy (layoutKey cfg) = true
      /\ (layoutExtension cfg = VStr EmptyString \/ truthy (layoutExtension cfg) = true).
Proof.
  intros name hook. unfold plugin, expose. fold name hook. split.
  - intros -> Hknown. rewrite bool_decide_eq_true_2 by done. cbn [negb]. split.
    + by intros text e ->.
    + intros Hhook. destruct hook as [| | | | | | |text [e|]]; try by eexists.
      by destruct (Hhook text e).
  - intros cfg. destruct (truthy name) eqn:Hname; [|done]. cbn [negb].
    case_bool_decide as Hknown; [|done]. cbn [negb].
    assert (forall text e, hook <> VFun text (Some e)
            \/ match hook with VFun _ (Some e) => Throw e | _ => Ok tt end
               <> Ok tt) as Hhook.
    { intros text e. destruct hook as [| | | | | | |text' [e'|]]; by eauto. }
    destruct (match hook with VFun _ (Some e) => Throw e | _ => Ok tt end)
      as [[]|e] eqn:Hcall; [|done].
    intros [= <-]. cbn.
    split_and!; try done.
    + intros text e. by destruct (Hhook text e).
    + unfold js_or. by destruct (truthy (member (options opts) "directory")) eqn:Hd.
    + unfold js_or. by destruct (truthy (member (options opts) "layoutKey")) eqn:Hk.
    + unfold js_or. destruct (truthy (member (options opts) "layoutExtension")) eqn:He; eauto.
Qed.

Lemma plugin_returns_witness :
  (exists cfg,
      plugin Site.consolidate
        (VObj [("engine", VStr "handlebars"); ("directory", VStr EmptyString);
               ("layoutKey", VNum 0);
               ("exposeConsolidate", VFun "function (requires) {}" None)]) = Ok cfg
      /\ dir cfg = VStr "layouts" /\ layoutKey cfg = VStr "layout")
  /\ plugin Site.consolidate
       (VObj [("engine", VStr "handlebars");
              ("exposeConsolidate",
               VFun "function (requires) { requires.x.y = 1; }"
                 (Some (TypeError "Cannot set property 'y' of undefined")))])
     = Throw (TypeError "Cannot set property 'y' of undefined").
Proof.
  split.
  - destruct (plugin_returns Site.consolidate
                (VObj [("engine", VStr "handlebars"); ("directory", VStr EmptyString);
                       ("layoutKey", VNum 0);
                       ("exposeConsolidate", VFun "function (requires) {}" None)]))
      as [Hret _].
    destruct Hret as [_ Hret]; [reflexivity | by eexists |].
    destruct Hret as [cfg Hcfg]; [intros text e; vm_compute; discriminate|].
    exists cfg. split; [exact Hcfg|].
    vm_compute in Hcfg. injection Hcfg as <-. by split.
  - destruct (plugin_returns Site.consolidate
                (VObj [("engine", VStr "handlebars");
                       ("exposeConsolidate",
                        VFun "function (requires) { requires.x.y = 1; }"
                          (Some (TypeError "Cannot set property 'y' of undefined")))]))
      as [Hret _].
    destruct Hret as [Hthrow _]; [reflexivity | by eexists |].
    by eapply Hthrow.
Defined.

Lemma plugin_params_witness :
  exists cfg,
    plugin Site.consolidate
      (VObj [("engine", VStr "handlebars"); ("cache", VBool false); ("pattern", VStr ".md")])
    = Ok cfg
    /\ get "cache" (params cfg) = Some (VBool false)
    /\ get "pattern" (params cfg) = None.
Proof.
  destruct (plugin Site.consolidate
              (VObj [("engine", VStr "handlebars"); ("cache", VBool false);
                     ("pattern", VStr ".md")])) as [cfg|e] eqn:Hcfg;
    [|by vm_compute in Hcfg].
  exists cfg. split; [done|].
  split; rewrite (plugin_params _ _ _ Hcfg); reflexivity.
Defined.

(** ** The partials *)

Lemma set_set {A : Type} (k : string) (v v' : A) (o : list (string * A)) :
  set k v (set k v' o) = set k v o.
Proof.
  induction o as [|[k' w] o IH]; cbn [set].
  - by rewrite String.eqb_refl.
  - destruct (String.eqb_spec k k') as [->|Hne]; cbn [set].
    + by rewrite String.eqb_refl.
    + destruct (String.eqb_spec k k'); [done|]. by rewrite IH.
Qed.

Section Partials.

Variable readPartials : string -> value -> value -> result value.

(** X3: without a truthy [partials] option the configuration is left
    alone.  With one, [params.partials] is the option itself or, when the
    option is a string, what [readPartials] returns for it, and no other
    parameter changes; doing it again, as the next build with the same
    plugin does, changes nothing. *)
Theorem partials_in_params (cfg cfg' : config) :
  with_partials readPartials cfg = Ok cfg' ->
  (truthy (partials cfg) = false -> cfg' = cfg)
  /\ (truthy (partials cfg) = true ->
      (forall s, partials cfg = VStr s ->
                 readPartials s (partialExtension cfg) (dir cfg)
                 = Ok (prop (params cfg') "partials"))
      /\ ((forall s, partials cfg <> VStr s) ->
          prop (params cfg') "partials" = partials cfg)
      /\ forall k, k <> "partials" -> get k (params cfg') = get k (params cfg))
  /\ with_partials readPartials cfg' = Ok cfg'.
Proof.
  unfold with_partials. destruct (truthy (partials cfg)) eqn:Ht.
  - destruct (match partials cfg with
              | VStr s => readPartials s (partialExtension cfg) (dir cfg)
              | v => Ok v
              end) as [v|e] eqn:Hv; cbn; [|done].
    intros [= <-]. cbn. rewrite Ht, Hv. cbn. rewrite set_set.
    split_and!; try done. intros _. split_and!.
    + intros s Hs. rewrite Hs in Hv. rewrite Hv. unfold prop. by rewrite get_set_eq.
    + intros Hs. unfold prop. rewrite get_set_eq.
      destruct (partials cfg) as [| |b|n|s|s|o|text throws]; try by injection Hv.
      by destruct (Hs s).
    + intros k Hk. by rewrite get_set_ne.
  - intros [= <-]. rewrite Ht. by split_and!.
Qed.

End Partials.

Lemma partials_in_params_witness :
  exists cfg',
    with_partials Site.readPartials
      {| def := VUndef; dir := VStr "layouts"; engine := VStr "handlebars";
         partialExtension := VUndef; layoutExtension := VStr EmptyString;
         partials := VObj [("nav", VStr "partials/nav")]; pattern := VUndef;
         rename := VUndef; layoutKey := VStr "layout"; params := [("cache", VBool false)] |}
    = Ok cfg'
    /\ prop (params cfg') "partials" = VObj [("nav", VStr "partials/nav")]
    /\ with_partials Site.readPartials cfg' = Ok cfg'.
Proof.
  destruct (with_partials Site.readPartials
      {| def := VUndef; dir := VStr "layouts"; engine := VStr "handlebars";
         partialExtension := VUndef; layoutExtension := VStr EmptyString;
         partials := VObj [("nav", VStr "partials/nav")]; pattern := VUndef;
         rename := VUndef; layoutKey := VStr "layout"; params := [("cache", VBool false)] |})
    as [cfg'|e] eqn:Hcfg; [|by vm_compute in Hcfg].
  exists cfg'. split; [done|].
  destruct (partials_in_params Site.readPartials _ cfg' Hcfg) as (_ & Hset & Hagain).
  split; [|exact Hagain].
  destruct (Hset eq_refl) as (_ & Hobj & _). by apply Hobj.
Defined.

Lemma append_assoc (a b c : string) : (a +:+ b) +:+ c = a +:+ b +:+ c.
Proof. induction a as [|x a IHa]; [done|]. rewrite !append_cons. by f_equal. Qed.

Lemma has_dot_append (s t : string) : has_dot (s +:+ t) = has_dot s || has_dot t.
Proof.
  induction s as [|a s IH]; [done|]. rewrite append_cons. cbn [has_dot].
  by rewrite IH, orb_assoc.
Qed.

Lemma no_slash_append (s t : string) : no_slash (s +:+ t) = no_slash s && no_slash t.
Proof. unfold no_slash. by rewrite chars_append, forallb_app. Qed.

Lemma last_segment_append (s seg t : string) :
  last_segment_of s seg -> no_slash t = true -> last_segment_of (s +:+ t) (seg +:+ t).
Proof.
  intros [Hseg Hs] Ht. split; [by rewrite no_slash_append, Hseg, Ht|].
  destruct Hs as [->|[d ->]]; [by left|]. right. exists d.
  by rewrite !append_assoc.
Qed.

Lemma getLayoutPath_dotted (cfg : config) (p seg : string) :
  last_segment_of p seg -> has_dot seg = true -> getLayoutPath cfg (VStr p) = Ok p.
Proof.
  intros Hseg Hdot. unfold getLayoutPath, js_or.
  assert (truthy (VStr p) = true) as ->.
  { destruct p; [|done]. destruct Hseg as [_ [<-|[d Hd]]]; [done|by destruct d]. }
  by rewrite (pop_last_segment p seg Hseg), Hdot.
Qed.

(** X4: when the layout extension has no slash, the last segment of a
    resolved path has a dot, and resolving a resolved path gives it back,
    whatever the default and the extension. *)
Theorem getLayoutPath_idempotent (cfg : config) (layout : value) (p : string) :
  no_slash (to_string (layoutExtension cfg)) = true ->
  getLayoutPath cfg layout = Ok p ->
  (exists seg, last_segment_of p seg /\ has_dot seg = true)
  /\ forall cfg', getLayoutPath cfg' (VStr p) = Ok p.
Proof.
  intros Hext Hp.
  assert (exists seg, last_segment_of p seg /\ has_dot seg = true) as (seg & Hseg & Hdot).
  { unfold getLayoutPath in Hp. destruct (js_or layout (def cfg)) as [| |b|n|s|s|o|text throws]; try done.
    destruct (last_segment_exists s) as [seg Hseg].
    rewrite (pop_last_segment s seg Hseg) in Hp.
    destruct (has_dot seg) eqn:Hdot; cbn [negb] in Hp; injection Hp as <-.
    - by exists seg.
    - exists (seg +:+ "." +:+ to_string (layoutExtension cfg)). split.
      + apply last_segment_append; [done|]. by rewrite no_slash_append, Hext.
      + rewrite !has_dot_append. cbn. by rewrite orb_true_r. }
  split; [by exists seg|]. intros cfg'. by apply (getLayoutPath_dotted cfg' p seg).
Qed.

Lemma getLayoutPath_idempotent_witness :
  no_slash (to_string (layoutExtension (defaults "handlebars"))) = true
  /\ getLayoutPath (defaults "handlebars") (VStr "blog/post") = Ok "blog/post."
  /\ getLayoutPath (defaults "handlebars") (VStr "blog/post.") = Ok "blog/post.".
Proof.
  split; [reflexivity|]. split; [reflexivity|].
  apply (getLayoutPath_idempotent (defaults "handlebars") (VStr "blog/post") "blog/post.");
    reflexivity.
Defined.

(** ** Renaming *)

(** X9: renaming a renamed key gives the same key, and two keys that
    differ in their extension only are renamed to the same key. *)
Theorem renamed_idempotent (dirs : list string) (name ext : string) :
  Forall (fun seg => plain seg = true) dirs ->
  no_slash name = true -> name <> EmptyString ->
  no_slash ext = true -> has_dot ext = false ->
  ~ (name = "." /\ ext = EmptyString) ->
  let key := join_segs (dirs ++ [name +:+ "." +:+ ext]) in
  renamed (renamed key) = renamed key
  /\ forall ext',
      no_slash ext' = true -> has_dot ext' = false ->
      ~ (name = "." /\ ext' = EmptyString) ->
      renamed (join_segs (dirs ++ [name +:+ "." +:+ ext'])) = renamed key.
Proof.
  intros Hdirs Hname Hname' Hext Hdot Hnot key. unfold key.
  rewrite (renamed_plain dirs name ext) by done. split.
  - change (name +:+ ".html") with (name +:+ "." +:+ "html").
    apply renamed_plain; try done. by intros [_ ?].
  - intros ext' Hext' Hdot' Hnot'. by apply renamed_plain.
Qed.

Lemma renamed_idempotent_witness :
  renamed (renamed "posts/2015/hello.world.md") = renamed "posts/2015/hello.world.md"
  /\ renamed "posts/2015/hello.world.markdown" = renamed "posts/2015/hello.world.md".
Proof.
  assert (forall l : list string,
             forallb (fun seg => plain seg) l = true ->
             Forall (fun seg => plain seg = true) l) as Hall.
  { intros l Hl. apply Forall_forall. intros x Hx%list_elem_of_In.
    by apply (proj1 (forallb_forall _ _) Hl). }
  destruct (renamed_idempotent ["posts"; "2015"] "hello.world" "md") as [Hidem Hext];
    [by apply Hall | reflexivity | discriminate | reflexivity | reflexivity
    | by intros [? _] |].
  split; [exact Hidem|].
  apply (Hext "markdown"); [reflexivity | reflexivity | by intros [? _]].
Defined.

Lemma prop_context (params metadata data : obj) (k : string) :
  NoDup (keys params) -> NoDup (keys metadata) -> NoDup (keys data) ->
  prop (context params metadata data) k
  = defined_or (prop data k) (defined_or (prop metadata k) (cloned (prop params k))).
Proof.
  intros Hp Hm Hd. unfold context, extend. cbn [fold_left].
  rewrite (prop_extend_fold data) by done.
  rewrite (prop_extend_fold metadata) by done.
  rewrite (prop_extend_fold (extend_deep [] params))
    by (apply keys_extend_deep, NoDup_nil_2).
  rewrite prop_extend_deep by done.
  change (prop [] k) with VUndef. rewrite defined_or_undef.
  do 2 f_equal. unfold prop. by destruct (get k params).
Qed.

(** X8: the engine is given the text of the file as [contents], whatever
    the options and the metadata hold under that name, and every other
    field of the file that is not [undefined] as the file has it. *)
Theorem context_contents (params metadata o : obj) :
  NoDup (keys params) -> NoDup (keys metadata) -> NoDup (keys o) ->
  prop (context params metadata (stringified o)) "contents"
  = VStr (to_string (prop o "contents"))
  /\ forall k, k <> "contents" -> prop o k <> VUndef ->
               prop (context params metadata (stringified o)) k = prop o k.
Proof.
  intros Hp Hm Ho.
  assert (NoDup (keys (stringified o))) as Hs by (by apply NoDup_keys_set).
  split.
  - rewrite prop_context by done. unfold stringified. rewrite prop_set.
    by rewrite decide_True.
  - intros k Hk Hdef. rewrite prop_context by done. unfold stringified.
    rewrite prop_set, decide_False by done. by destruct (prop o k).
Qed.

Lemma context_contents_witness :
  prop (context [("contents", VStr "from the options")] [("contents", VStr "from the metadata")]
          (stringified [("title", VStr "A"); ("contents", VBuf "text")])) "contents"
  = VStr "text".
Proof.
  assert (forall l : list string, bool_decide (NoDup l) = true -> NoDup l) as Hdec
    by (intros l; apply bool_decide_eq_true_1).
  apply (context_contents [("contents", VStr "from the options")]
           [("contents", VStr "from the metadata")]
           [("title", VStr "A"); ("contents", VBuf "text")]); by apply Hdec.
Defined.

(** ** Keys without an extension *)

Lemma path_parse_segments (dirs : list string) (base : string) :
  Forall (fun seg => plain seg = true) dirs ->
  no_slash base = true -> base <> EmptyString ->
  path_parse (join_segs (dirs ++ [base]))
  = if match drop_until is_dot (rev (chars base)) with
       | _ :: _ :: _ => negb (String.eqb base "..")
       | _ => false
       end
    then {| p_dir := join_segs dirs; p_base := base;
            p_ext := unchars ("."%char :: rev (take_until is_dot (rev (chars base))));
            p_name := unchars (rev (tail (drop_until is_dot (rev (chars base))))) |}
    else {| p_dir := join_segs dirs; p_base := base; p_ext := EmptyString; p_name := base |}.
Proof.
  intros Hdirs Hbase_slash Hbase_ne.
  destruct (rev_chars_head base Hbase_ne Hbase_slash) as (z & lz & Hz & Hzslash).
  destruct (chars_head base Hbase_ne Hbase_slash) as (a & la & Ha & Haslash).
  assert (forallb (fun a => negb (is_slash a)) (rev (chars base)) = true) as Hrb
    by (by rewrite forallb_rev).
  assert (exists tp,
            rev (chars (join_segs (dirs ++ [base]))) = rev (chars base) ++ tp
            /\ take_until is_slash tp = []
            /\ drop_until is_slash tp = tp
            /\ match tp with
               | _ :: d :: ds => unchars (rev (d :: ds))
               | _ => if match chars (join_segs (dirs ++ [base])) with
                         | c :: _ => is_slash c
                         | [] => false
                         end
                      then "/" else EmptyString
               end = join_segs dirs) as (tp & Hkey & Htake & Hdrop & Hdir).
  { destruct dirs as [|d dirs].
    - exists []. cbn [app join_segs]. rewrite app_nil_r. split_and!; try done.
      rewrite Ha. by rewrite Haslash.
    - exists ("/"%char :: rev (chars (join_segs (d :: dirs)))).
      rewrite join_segs_snoc, !chars_append, !rev_app_distr. cbn [chars rev app].
      rewrite <- !app_assoc. cbn [app]. split_and!; try done.
      assert (plain d = true) as Hd
        by (apply (proj1 (Forall_forall _ _) Hdirs), list_elem_of_here).
      apply plain_inv in Hd as (Hd1 & Hd2%String.eqb_neq & _).
      destruct (join_segs_head d dirs) as [tl Htl].
      destruct (chars_head d Hd2 Hd1) as (c & lc & Hc & _).
      destruct (rev (chars (join_segs (d :: dirs)))) as [|x lx] eqn:Hx.
      + apply (f_equal (@rev _)) in Hx. rewrite rev_involutive, Htl, Hc in Hx. done.
      + change (rev lx ++ [x]) with (rev (x :: lx)).
        by rewrite <- Hx, rev_involutive, unchars_chars. }
  assert (drop_while is_slash (rev (chars base) ++ tp) = rev (chars base) ++ tp) as Hr.
  { rewrite Hz. by apply drop_while_head. }
  assert (take_until is_slash (rev (chars base) ++ tp) = rev (chars base)) as Htk
    by (by rewrite take_until_app, Htake, app_nil_r).
  assert (drop_until is_slash (rev (chars base) ++ tp) = tp) as Hdr
    by (by rewrite drop_until_app).
  unfold path_parse. rewrite Hkey, Hr, Htk, Hdr, Hdir.
  by rewrite rev_involutive, unchars_chars.
Qed.

(** X10: a key whose last segment has no dot after its first character,
    as [LICENSE] or [.htaccess], has no extension to replace: [.html] is
    appended to it. *)
Theorem renamed_without_extension (dirs : list string) (a : ascii) (rest : string) :
  Forall (fun seg => plain seg = true) dirs ->
  no_slash (String a rest) = true -> has_dot rest = false ->
  renamed (join_segs (dirs ++ [String a rest]))
  = join_segs (dirs ++ [String a rest +:+ ".html"]).
Proof.
  intros Hdirs Hbase Hdot. unfold renamed.
  rewrite path_parse_segments by done.
  assert (match drop_until is_dot (rev (chars (String a rest))) with
          | _ :: _ :: _ => negb (String.eqb (String a rest) "..")
          | _ => false
          end = false) as ->.
  { cbn [chars rev]. rewrite drop_until_app
      by (rewrite forallb_rev; by apply has_dot_chars).
    cbn. by destruct (is_dot a). }
  cbn [p_dir p_name].
  assert (Forall (fun seg => plain seg = true) (dirs ++ [String a rest +:+ ".html"])) as Hall.
  { apply Forall_app. split; [done|]. apply Forall_singleton. by apply plain_html. }
  rewrite <- (path_normalize_plain dirs (String a rest +:+ ".html")) by done.
  unfold path_join. destruct dirs as [|d dirs].
  - cbn [join_segs app]. done.
  - rewrite join_segs_snoc.
    destruct (join_segs (d :: dirs)) eqn:Ej.
    + exfalso. assert (plain d = true) as Hd
        by (apply (proj1 (Forall_forall _ _) Hdirs), list_elem_of_here).
      apply plain_inv in Hd as (Hd1 & Hd2%String.eqb_neq & _).
      destruct (join_segs_head d dirs) as [tl Htl]. rewrite Ej in Htl.
      destruct (chars_head d Hd2 Hd1) as (c & lc & Hc & _). rewrite Hc in Htl. done.
    + done.
Qed.

Lemma renamed_without_extension_witness :
  renamed "docs/LICENSE" = "docs/LICENSE.html" /\ renamed ".htaccess" = ".htaccess.html".
Proof.
  split.
  - apply (renamed_without_extension ["docs"] "L" "ICENSE"); try reflexivity.
    by repeat constructor.
  - apply (renamed_without_extension [] "." "htaccess"); try reflexivity.
    by repeat constructor.
Defined.

(** ** The outcome of the selection loop *)

Lemma keys_set_mono {A : Type} (k x : string) (v : A) (o : list (string * A)) :
  x ∈ keys o -> x ∈ keys (set k v o).
Proof.
  intros Hx. destruct (decide (k ∈ keys o)) as [Hin|Hin].
  - by rewrite keys_set_in.
  - rewrite keys_set_notin by done. apply elem_of_app. by left.
Qed.

Lemma keys_set_here {A : Type} (k : string) (v : A) (o : list (string * A)) :
  k ∈ keys (set k v o).
Proof.
  destruct (decide (k ∈ keys o)) as [Hin|Hin].
  - by rewrite keys_set_in.
  - rewrite keys_set_notin by done. apply elem_of_app. right. apply list_elem_of_here.
Qed.

Section SelectionOutcome.

Variable mpath : value -> string -> string.
Variable pmatch : string -> value -> bool.

Lemma visit_skipped (cfg : config) (fs : list (string * nat)) (h0 : gmap nat obj)
    (file : string) :
  check pmatch h0 fs file (pattern cfg) (def cfg) (layoutKey cfg) = false ->
  visit mpath pmatch cfg fs h0 file = Skipped.
Proof. intros Hcheck. unfold visit. by rewrite Hcheck. Qed.

Lemma visit_outcome (cfg : config) (fs : list (string * nat)) (h0 : gmap nat obj)
    (file : string) (l : nat) :
  get file fs = Some l ->
  check pmatch h0 fs file (pattern cfg) (def cfg) (layoutKey cfg) = true ->
  if renderable cfg (h0 !! l)
  then exists o p,
      h0 !! l = Some o
      /\ getLayoutPath cfg (prop (stringified o) (to_string (layoutKey cfg))) = Ok p
      /\ visit mpath pmatch cfg fs h0 file
         = Selected (<[l := stringified o]> h0) l (mpath (dir cfg) p)
  else exists h' e, visit mpath pmatch cfg fs h0 file = Aborted h' e.
Proof.
  intros Hget Hcheck. unfold visit, renderable. rewrite Hget, Hcheck. cbn [negb].
  destruct (h0 !! l) as [o|] eqn:Ho; [|eexists; eexists; reflexivity].
  unfold stringified.
  destruct (prop o "contents") eqn:Hc.
  all: try (eexists; eexists; reflexivity).
  all: match goal with
       | |- context [getLayoutPath ?c ?v] => destruct (getLayoutPath c v) as [p|e] eqn:Hp
       end.
  all: first
    [ exists o, p; rewrite Hc; split; [reflexivity|]; split; [exact Hp | reflexivity]
    | eexists; eexists; reflexivity ].
Qed.

Lemma select_file_outcome (cfg : config) (fs : list (string * nat)) (h : gmap nat obj)
    (done : list string) (acc : selection) (file : string) (l : nat) :
  Forall (fun f => f <> EmptyString) done ->
  selecting fs h (fun f => check pmatch h fs f (pattern cfg) (def cfg) (layoutKey cfg))
    done acc ->
  outcome cfg fs h (fun f => check pmatch h fs f (pattern cfg) (def cfg) (layoutKey cfg))
    done acc ->
  file ∉ done -> get file fs = Some l ->
  outcome cfg fs h (fun f => check pmatch h fs f (pattern cfg) (def cfg) (layoutKey cfg))
    (done ++ [file]) (select_file mpath pmatch cfg fs acc file).
Proof.
  intros Hne (Hdone & Hdisj & Hloc & Hnew & Hold) (Hseeds & Hfollowers & Hok & Hbad)
    Hfile Hget.
  unfold select_file. destruct (sel_thrown acc) as [e|] eqn:Hthrown.
  { unfold outcome. rewrite Hthrown. split_and!; [done|done|done|].
    intros e' He'. destruct (Hbad e' He') as (f & l' & Hf & Hrest).
    exists f, l'. split; [|done]. apply elem_of_app. by left. }
  assert (sel_heap acc !! l = h !! l) as Hsame by (by apply (Hnew file)).
  assert (check pmatch (sel_heap acc) fs file (pattern cfg) (def cfg) (layoutKey cfg)
          = check pmatch h fs file (pattern cfg) (def cfg) (layoutKey cfg)) as Hcheck.
  { apply check_same_record. unfold record. rewrite Hget. cbn. exact Hsame. }
  destruct (check pmatch h fs file (pattern cfg) (def cfg) (layoutKey cfg)) eqn:Hpass.
  2: { rewrite (visit_skipped cfg fs (sel_heap acc) file Hcheck).
       unfold outcome. rewrite Hthrown. split_and!; [done|done| |done].
       intros _ f l' [Hf | ->%list_elem_of_singleton]%elem_of_app Hl' Hp;
         [by apply (Hok eq_refl f l') | congruence]. }
  pose proof (visit_outcome cfg fs (sel_heap acc) file l Hget Hcheck) as Hv.
  rewrite Hsame in Hv.
  destruct (renderable cfg (h !! l)) eqn:Hr.
  2: { destruct Hv as (h' & e & ->). unfold outcome. cbn.
       split_and!; [done|done|done|].
       intros e' _. exists file, l. split_and!; try done.
       apply elem_of_app. right. apply list_elem_of_here. }
  destruct Hv as (o & p & Ho & Hp & ->).
  destruct (get (mpath (dir cfg) p) (templates acc)) as [seed|] eqn:Hseed.
  - assert (truthy (VStr seed) = true) as ->.
    { cbn [truthy]. apply negb_true_iff, String.eqb_neq.
      apply (proj1 (Forall_forall _ _) Hne), Hdone. left.
      apply get_Some_elem in Hseed. apply list_elem_of_fmap. by exists (mpath (dir cfg) p, seed). }
    unfold outcome. cbn. split_and!; [done | by apply NoDup_keys_set | | done].
    intros _ f l' [Hf | ->%list_elem_of_singleton]%elem_of_app Hl' Hpf.
    + destruct (Hok eq_refl f l' Hf Hl' Hpf) as [Hrf [Hc|Hc]].
      * split; [done|]. by left.
      * split; [done|]. right. cbn. by apply keys_set_mono.
    + rewrite Hget in Hl'. injection Hl' as <-.
      split; [done|]. right. cbn. apply keys_set_here.
  - assert (mpath (dir cfg) p ∉ keys (templates acc)) as Hfresh by (by apply get_None_keys).
    unfold outcome. cbn. rewrite (set_fresh _ _ _ Hfresh), map_app. cbn [map snd].
    split_and!; [|done| |done].
    + apply NoDup_app. split_and!; [done| |apply NoDup_singleton].
      intros x Hx ->%list_elem_of_singleton. apply Hfile, Hdone. by left.
    + intros _ f l' [Hf | ->%list_elem_of_singleton]%elem_of_app Hl' Hpf.
      * destruct (Hok eq_refl f l' Hf Hl' Hpf) as [Hrf [Hc|Hc]].
        -- split; [done|]. left. cbn. rewrite map_app.
           apply elem_of_app. by left.
        -- split; [done|]. by right.
      * rewrite Hget in Hl'. injection Hl' as <-.
        split; [done|]. left. cbn. rewrite map_app.
        apply elem_of_app. right. apply list_elem_of_here.
Qed.

Lemma select_outcome (cfg : config) (fs : list (string * nat)) (h : gmap nat obj) :
  NoDup (keys fs) -> NoDup (map snd fs) ->
  Forall (fun f => f <> EmptyString) (keys fs) ->
  outcome cfg fs h (fun f => check pmatch h fs f (pattern cfg) (def cfg) (layoutKey cfg))
    (keys fs) (select mpath pmatch cfg fs h).
Proof.
  intros Hkeys Hinj Hne. unfold select.
  enough (forall todo done acc,
            NoDup (done ++ todo) -> (forall f, f ∈ todo -> f ∈ keys fs) ->
            Forall (fun f => f <> EmptyString) (done ++ todo) ->
            selecting fs h
              (fun f => check pmatch h fs f (pattern cfg) (def cfg) (layoutKey cfg))
              done acc ->
            outcome cfg fs h
              (fun f => check pmatch h fs f (pattern cfg) (def cfg) (layoutKey cfg))
              done acc ->
            outcome cfg fs h
              (fun f => check pmatch h fs f (pattern cfg) (def cfg) (layoutKey cfg))
              (done ++ todo) (fold_left (select_file mpath pmatch cfg fs) todo acc)) as Hgen.
  { apply (Hgen (keys fs) []); [done|done|done| |].
    - unfold selecting, chosen. cbn. split_and!; try done.
      + intros f [H|H]; by apply elem_of_nil in H.
      + intros f _ H. by apply elem_of_nil in H.
      + intros f l _ H. by apply elem_of_nil in H.
    - unfold outcome. cbn. split_and!; [apply NoDup_nil_2 | apply NoDup_nil_2 | |done].
      intros _ f l H. by apply elem_of_nil in H. }
  induction todo as [|file todo IH]; intros done acc Hnd Hin Hne' Hsel Hout.
  { by rewrite app_nil_r. }
  cbn [fold_left]. replace (done ++ file :: todo) with ((done ++ [file]) ++ todo)
    by (by rewrite <- app_assoc).
  assert (file ∉ done) as Hfile.
  { apply NoDup_app in Hnd as (_ & Hd & _). intros Hf. apply (Hd file Hf), list_elem_of_here. }
  destruct (get_is_Some file fs (Hin file (list_elem_of_here _ _))) as [l Hl].
  apply IH.
  - by rewrite <- app_assoc.
  - intros f Hf. by apply Hin, list_elem_of_further.
  - by rewrite <- app_assoc.
  - by eapply select_file_selecting.
  - eapply select_file_outcome; try done. by apply Forall_app in Hne' as [? _].
Qed.

End SelectionOutcome.

(** ** The seeds and the followers *)

Section Partition.

Variable mpath : value -> string -> string.
Variable pmatch : string -> value -> bool.

Lemma resolutions_selected (cfg : config) (fs : list (string * nat)) (h : gmap nat obj)
    (todo : list string) :
  NoDup (map snd fs) ->
  forall h0,
    NoDup todo -> (forall f, f ∈ todo -> f ∈ keys fs) ->
    (forall f l, f ∈ todo -> get f fs = Some l -> h0 !! l = h !! l) ->
    (forall f l, f ∈ todo -> get f fs = Some l ->
                 check pmatch h fs f (pattern cfg) (def cfg) (layoutKey cfg) = true ->
                 renderable cfg (h !! l) = true) ->
    resolutions mpath pmatch cfg fs h0 todo
    = omap (fun file => t ← template_of mpath cfg fs h file; Some (file, t))
        (filter (fun file => check pmatch h fs file (pattern cfg) (def cfg) (layoutKey cfg)
                             = true) todo)
    /\ map fst (resolutions mpath pmatch cfg fs h0 todo)
       = filter (fun file => check pmatch h fs file (pattern cfg) (def cfg) (layoutKey cfg)
                             = true) todo.
Proof.
  intros Hinj. induction todo as [|file todo IH]; intros h0 Hnd Hin Hsame Hok; [done|].
  apply NoDup_cons in Hnd as [Hfile Hnd].
  destruct (get_is_Some file fs (Hin file (list_elem_of_here _ _))) as [l Hl].
  assert (h0 !! l = h !! l) as Hrec by (apply (Hsame file); [apply list_elem_of_here | done]).
  assert (check pmatch h0 fs file (pattern cfg) (def cfg) (layoutKey cfg)
          = check pmatch h fs file (pattern cfg) (def cfg) (layoutKey cfg)) as Hcheck.
  { apply check_same_record. unfold record. rewrite Hl. cbn. exact Hrec. }
  cbn [resolutions]. rewrite filter_cons.
  destruct (check pmatch h fs file (pattern cfg) (def cfg) (layoutKey cfg)) eqn:Hpass.
  - pose proof (visit_outcome mpath pmatch cfg fs h0 file l Hl Hcheck) as Hv.
    rewrite Hrec, (Hok file l (list_elem_of_here _ _) Hl Hpass) in Hv.
    destruct Hv as (o & p & Ho & Hp & ->).
    rewrite decide_True by done. cbn [omap list_omap].
    assert (template_of mpath cfg fs h file = Some (mpath (dir cfg) p)) as ->.
    { unfold template_of, record. rewrite Hl. cbn. by rewrite Ho, Hp. }
    cbn. destruct (IH (<[l := stringified o]> h0)) as [-> ->]; try done.
    + intros f Hf. by apply Hin, list_elem_of_further.
    + intros f l' Hf Hl'. rewrite lookup_insert_ne.
      * by apply (Hsame f); [apply list_elem_of_further|].
      * intros <-. apply Hfile. by rewrite (get_inj fs file f l Hinj Hl Hl').
    + intros f l' Hf. by apply Hok, list_elem_of_further.
  - rewrite (visit_skipped mpath pmatch cfg fs h0 file Hcheck).
    rewrite decide_False by done. apply IH; try done.
    + intros f Hf. by apply Hin, list_elem_of_further.
    + intros f l' Hf. by apply Hsame, list_elem_of_further.
    + intros f l' Hf. by apply Hok, list_elem_of_further.
Qed.

(** C2, amended: in a collection whose keys are not empty, when the loop
    has run through, the files that pass the check all have a template;
    every template has one seed, the first of these files that resolves to
    it; the other ones are the followers; no file is both, and together the
    seeds and the followers are the files that pass the check. *)
Theorem selection_partition (cfg : config) (fs : list (string * nat)) (h : gmap nat obj) :
  NoDup (keys fs) ->
  Forall (fun file => file <> EmptyString) (keys fs) ->
  NoDup (map snd fs) ->
  sel_thrown (select mpath pmatch cfg fs h) = None ->
  let sel := select mpath pmatch cfg fs h in
  let rs := selected mpath pmatch cfg fs h in
  map fst rs = passing pmatch cfg fs h
  /\ (forall t, get t (templates sel) = first_with t rs)
  /\ map snd (templates sel)
     = map fst (filter (fun r => first_with (snd r) rs = Some (fst r)) rs)
  /\ keys (matches sel)
     = map fst (filter (fun r => first_with (snd r) rs <> Some (fst r)) rs)
  /\ (forall file, file ∈ map snd (templates sel) -> file ∉ keys (matches sel))
  /\ map snd (templates sel) ++ keys (matches sel) ≡ₚ passing pmatch cfg fs h.
Proof.
  intros Hnd Hkeys Hinj Hok sel rs.
  destruct (select_outcome mpath pmatch cfg fs h Hnd Hinj Hkeys) as (_ & _ & Hout & _).
  destruct (resolutions_selected cfg fs h (keys fs) Hinj h) as [Hrs Hfst]; try done.
  { intros f l Hf Hl Hpass. by apply (Hout Hok f l). }
  fold (passing pmatch cfg fs h) in Hrs, Hfst. fold (selected mpath pmatch cfg fs h) in Hrs.
  fold rs in Hrs. rewrite Hrs in Hfst.
  assert (partitioned sel rs) as Hpart.
  { rewrite <- Hrs.
    apply (select_files_partitioned mpath pmatch cfg fs (keys fs)
             {| sel_heap := h; templates := []; matches := []; sel_thrown := None |} []);
      try done. }
  assert (map snd (templates sel) ++ keys (matches sel) ≡ₚ map fst rs) as Hperm.
  { destruct Hpart as (_ & -> & ->). rewrite <- fmap_app.
    apply fmap_Permutation. apply filter_app_complement. }
  destruct Hpart as (Hget & Hseeds & Hfollowers).
  split_and!; [done|done|done|done| |by rewrite <- Hfst].
  assert (NoDup (map fst rs)) as Hnd'.
  { rewrite Hfst. unfold passing. by apply NoDup_filter. }
  rewrite <- Hperm in Hnd'. apply NoDup_app in Hnd' as (_ & Hdisj & _). done.
Qed.

End Partition.

(** C2, as stated, fails: in a collection with an empty key, the file
    under that key passes the check and is the first with its template,
    which makes it the seed; the test of line 134 takes its key for no
    seed, so the next file with that template replaces it, and it ends up
    neither seed nor follower. *)
Lemma empty_key_not_selected :
  let fs := [(EmptyString, 0%nat); ("b.md", 1%nat)] in
  let sel := select Site.mpath Site.pmatch (defaults "handlebars") fs Site.heap in
  sel_thrown sel = None
  /\ passing Site.pmatch (defaults "handlebars") fs Site.heap = [EmptyString; "b.md"]
  /\ first_with "layouts/post.html"
       (selected Site.mpath Site.pmatch (defaults "handlebars") fs Site.heap)
     = Some EmptyString
  /\ get "layouts/post.html" (templates sel) = Some "b.md"
  /\ map snd (templates sel) ++ keys (matches sel) = ["b.md"].
Proof. split_and!; by_compute. Qed.

Lemma selection_partition_witness :
  NoDup (keys Site.files)
  /\ Forall (fun file => file <> EmptyString) (keys Site.files)
  /\ NoDup (map snd Site.files)
  /\ sel_thrown (select Site.mpath Site.pmatch (defaults "handlebars") Site.files Site.heap)
     = None
  /\ passing Site.pmatch (defaults "handlebars") Site.files Site.heap
     = ["a.md"; "b.md"; "about.md"]
  /\ map snd (templates (select Site.mpath Site.pmatch (defaults "handlebars")
                           Site.files Site.heap))
     ++ keys (matches (select Site.mpath Site.pmatch (defaults "handlebars")
                         Site.files Site.heap))
     ≡ₚ passing Site.pmatch (defaults "handlebars") Site.files Site.heap.
Proof.
  assert (NoDup (keys Site.files)) as Hkeys by by_decide.
  assert (Forall (fun file => file <> EmptyString) (keys Site.files)) as Hfiles
    by (repeat constructor; discriminate).
  assert (NoDup (map snd Site.files)) as Hinj by by_decide.
  assert (sel_thrown (select Site.mpath Site.pmatch (defaults "handlebars")
                        Site.files Site.heap) = None) as Hsel by by_compute.
  split_and!; [exact Hkeys | exact Hfiles | exact Hinj | exact Hsel | by_compute |].
  apply (selection_partition Site.mpath Site.pmatch (defaults "handlebars")
           Site.files Site.heap Hkeys Hfiles Hinj Hsel).
Defined.

(** ** The books of a run *)

Lemma elem_of_delete_or {A : Type} (l : list A) (i : nat) (x y : A) :
  l !! i = Some x -> y ∈ l -> y = x \/ y ∈ delete i l.
Proof.
  revert i. induction l as [|a l IH]; intros i Hi Hy; [by apply elem_of_nil in Hy|].
  destruct i as [|i]; cbn in *.
  - injection Hi as ->. apply elem_of_cons in Hy as [->|Hy]; [by left | by right].
  - apply elem_of_cons in Hy as [->|Hy]; [right; apply list_elem_of_here|].
    destruct (IH i Hi Hy) as [->|Hin]; [by left | right; by apply list_elem_of_further].
Qed.

Lemma fmap_delete_gone {A B : Type} (f : A -> B) (l : list A) (i : nat) (x : A) :
  NoDup (map f l) -> l !! i = Some x -> f x ∉ map f (delete i l).
Proof.
  revert i. induction l as [|a l IH]; intros i Hnd Hi; [done|].
  cbn [map] in Hnd. apply NoDup_cons in Hnd as [Ha Hnd].
  destruct i as [|i]; cbn in *.
  - by injection Hi as ->.
  - intros [Heq|Hin]%elem_of_cons; [|by apply (IH i Hnd Hi)].
    apply Ha. rewrite <- Heq. apply list_elem_of_fmap. exists x. split; [done|].
    by eapply list_elem_of_lookup_2.
Qed.

Lemma fmap_delete_NoDup {A B : Type} (f : A -> B) (l : list A) (i : nat) :
  NoDup (map f l) -> NoDup (map f (delete i l)).
Proof.
  revert i. induction l as [|a l IH]; intros i Hnd; [by destruct i|].
  cbn [map] in Hnd. apply NoDup_cons in Hnd as [Ha Hnd].
  destruct i as [|i]; cbn; [done|]. apply NoDup_cons. split; [|by apply IH].
  intros Hin. apply Ha. apply list_elem_of_fmap in Hin as (y & -> & Hy).
  apply list_elem_of_fmap. exists y. split; [done|]. by eapply list_elem_of_delete_inv.
Qed.

Section Charting.

Variable consolidate : string -> option property.
Variable mpath : value -> string -> string.
Variable cfg : config.
Variable metadata : obj.
Variable fs : list (string * nat).
Variable h1 : gmap nat obj.
Variable selected : list string.

Hypothesis one_record_per_key : NoDup (map snd fs).
Hypothesis selected_records :
  forall g, g ∈ selected -> exists l data, get g fs = Some l /\ h1 !! l = Some data.
Hypothesis selected_once : NoDup selected.
Hypothesis no_key_taken :
  forall f g, f ∈ selected -> g ∈ selected -> new_key cfg g = f -> f = g.

Lemma charted_begin :
  charted consolidate mpath cfg metadata fs h1 selected selected [] fs h1.
Proof.
  split; try done.
  - intros f p _ Hp. by apply elem_of_nil in Hp.
  - apply NoDup_nil_2.
  - intros p Hp. by apply elem_of_nil in Hp.
Qed.

Lemma charted_start (W : list string) (fl : list pending) (F : list (string * nat))
    (H : gmap nat obj) (file : string) (l : nat) (data : obj)
    (r : option render_result) :
  charted consolidate mpath cfg metadata fs h1 selected (file :: W) fl F H ->
  get file fs = Some l -> h1 !! l = Some data ->
  rendering consolidate mpath cfg metadata data = r ->
  charted consolidate mpath cfg metadata fs h1 selected W
    (fl ++ [{| p_data := l; p_file := new_key cfg file; p_result := r |}])
    (if truthy (rename cfg) then del file F else F) H.
Proof.
  intros [Hw Hsel Hkeys Hapart Hfl Hflight Hun Hdone Hnew Hother Hold] Hget Hdata Hr.
  apply NoDup_cons in Hw as [Hfile Hw].
  assert (forall f, f ∈ W -> f <> file) as Hne by (intros f Hf ->; done).
  assert (forall k, k <> file -> get k (if truthy (rename cfg) then del file F else F)
                                 = get k F) as Hdel.
  { intros k Hk. destruct (truthy (rename cfg)); [|done]. by rewrite get_del_ne. }
  assert (forall g l', g ∈ selected -> get g fs = Some l' -> g ∉ W ->
            (forall p, p ∈ fl ++ [{| p_data := l; p_file := new_key cfg file;
                                      p_result := r |}] -> p_data p <> l') ->
            g <> file /\ (g ∉ file :: W) /\ forall p, p ∈ fl -> p_data p <> l') as Hpast.
  { intros g l' Hg Hl' HgW Hp.
    assert (g <> file) as Hgf.
    { intros ->. rewrite Hget in Hl'. injection Hl' as <-.
      apply (Hp {| p_data := l; p_file := new_key cfg file; p_result := r |}); [|done].
      apply elem_of_app. right. apply list_elem_of_here. }
    split_and!; [done| |].
    - by intros [?|?]%elem_of_cons.
    - intros p Hp'. apply Hp, elem_of_app. by left. }
  split.
  - done.
  - intros f Hf. by apply Hsel, list_elem_of_further.
  - intros f Hf. rewrite Hdel by (by apply Hne). by apply Hkeys, list_elem_of_further.
  - intros f p Hf [Hp | ->%list_elem_of_singleton]%elem_of_app.
    + by apply Hapart; [apply list_elem_of_further|].
    + cbn. intros Hf'. by apply (Hne f Hf), (get_inj fs f file l).
  - rewrite map_app. cbn [map p_data]. apply NoDup_app. split_and!; [done| |apply NoDup_singleton].
    intros x (p & -> & Hp)%list_elem_of_fmap Heq%list_elem_of_singleton.
    apply (Hapart file p); [apply list_elem_of_here | done | by rewrite Heq].
  - intros p [Hp | ->%list_elem_of_singleton]%elem_of_app; [by apply Hflight|].
    exists file, data. cbn. split_and!; try done.
    + apply Hsel, list_elem_of_here.
    + rewrite <- Hdata. by apply (Hun file); [apply list_elem_of_here|].
  - intros f l' Hf Hl'. by apply (Hun f); [apply list_elem_of_further|].
  - intros g l' Hg Hl' HgW Hp. destruct (Hpast g l' Hg Hl' HgW Hp) as (_ & HgW' & Hp').
    by apply (Hdone g).
  - intros Hinj g l' Hg Hl' HgW Hp. destruct (Hpast g l' Hg Hl' HgW Hp) as (Hgf & HgW' & Hp').
    rewrite Hdel; [by apply (Hnew Hinj g)|].
    intros Heq. apply Hgf. symmetry. apply no_key_taken; [|done..].
    apply Hsel, list_elem_of_here.
  - intros k Hk Hnk. rewrite Hdel; [by apply Hother|].
    intros ->. apply Hk, Hsel, list_elem_of_here.
  - intros Hren k Hk HkW Hnk. rewrite Hren.
    destruct (decide (k = file)) as [->|Hkf]; [by rewrite get_del_eq|].
    rewrite get_del_ne by done. apply (Hold Hren); [done| |done].
    by intros [?|?]%elem_of_cons.
Qed.

Lemma charted_deliver (W : list string) (fl : list pending) (F : list (string * nat))
    (H : gmap nat obj) (i : nat) (p : pending) (str : string) :
  charted consolidate mpath cfg metadata fs h1 selected W fl F H ->
  fl !! i = Some p -> p_result p = Some (Rendered str) ->
  charted consolidate mpath cfg metadata fs h1 selected W (delete i fl)
    (set (p_file p) (p_data p) F) (alter (set "contents" (VBuf str)) (p_data p) H).
Proof.
  intros [Hw Hsel Hkeys Hapart Hfl Hflight Hun Hdone Hnew Hother Hold] Hi Hres.
  assert (p ∈ fl) as Hp by (by eapply list_elem_of_lookup_2).
  destruct (Hflight p Hp) as (g & data & Hg & Hgl & Hfile & Hdata & Hheap & Hr).
  rewrite Hres in Hr.
  assert (g ∉ W) as HgW by (intros Hin; by apply (Hapart g p Hin Hp)).
  assert (forall q, q ∈ delete i fl -> q ∈ fl /\ p_data q <> p_data p) as Hrest.
  { intros q Hq. split; [by eapply list_elem_of_delete_inv|].
    intros Heq. apply (fmap_delete_gone p_data fl i p Hfl Hi).
    rewrite <- Heq. apply list_elem_of_fmap. by exists q. }
  assert (forall l, l <> p_data p -> (forall q, q ∈ delete i fl -> p_data q <> l) ->
                    forall q, q ∈ fl -> p_data q <> l) as Hback.
  { intros l Hl Hq q Hqin.
    destruct (elem_of_delete_or fl i p q Hi Hqin) as [->|Hin]; [done | by apply Hq]. }
  split.
  - done.
  - done.
  - intros f Hf. rewrite get_set_ne; [by apply Hkeys|].
    rewrite Hfile. intros Heq. apply HgW.
    by rewrite <- (no_key_taken f g (Hsel f Hf) Hg Heq).
  - intros f q Hf Hq. apply Hapart; [done|]. by apply Hrest.
  - by apply fmap_delete_NoDup.
  - intros q Hq. destruct (Hrest q Hq) as [Hqin Hne].
    destruct (Hflight q Hqin) as (g' & data' & ? & ? & ? & ? & ? & ?).
    exists g', data'. split_and!; try done. by rewrite lookup_alter_ne.
  - intros f l Hf Hl. rewrite lookup_alter_ne; [by apply (Hun f)|].
    intros <-. by apply (Hapart f p).
  - intros g' l Hg' Hl Hg'W Hq. destruct (decide (l = p_data p)) as [->|Hne].
    + exists data, str. split_and!; [done|done|].
      rewrite lookup_alter_eq. unfold obj in *. by rewrite Hheap.
    + destruct (Hdone g' l Hg' Hl Hg'W (Hback l Hne Hq)) as (data' & str' & ? & ? & ?).
      exists data', str'. split_and!; [done|done|]. by rewrite lookup_alter_ne.
  - intros Hinj g' l Hg' Hl Hg'W Hq. rewrite Hfile.
    destruct (decide (l = p_data p)) as [->|Hne].
    + rewrite (get_inj fs g' g (p_data p) one_record_per_key Hl Hgl). apply get_set_eq.
    + rewrite get_set_ne; [by apply (Hnew Hinj g' l Hg' Hl Hg'W), Hback|].
      intros Heq. apply Hne. rewrite (Hinj g g' Hg Hg' Heq) in Hgl. congruence.
  - intros k Hk Hnk. rewrite get_set_ne; [by apply Hother|].
    rewrite Hfile. by apply Hnk.
  - intros Hren k Hk HkW Hnk. rewrite get_set_ne; [by apply (Hold Hren)|].
    rewrite Hfile. by apply Hnk.
Qed.

End Charting.

Section Events.

Variable consolidate : string -> option property.
Variable mpath : value -> string -> string.
Variable cfg : config.
Variable metadata : obj.
Variable followers : list string.

Lemma each_complete_busy (s : state) :
  inflight s <> [] -> each_complete followers s = s.
Proof. unfold each_complete. by destruct (thrown s), (queue s), (inflight s). Qed.

Lemma each_complete_finished (s : state) (r : option js_error) :
  stage s = Finished r -> each_complete followers s = s.
Proof.
  intros Hs. unfold each_complete, callback.
  destruct (thrown s), (queue s), (inflight s); try done. by rewrite Hs.
Qed.

Lemma each_complete_thrown (s : state) :
  thrown s <> None -> each_complete followers s = s.
Proof. unfold each_complete. by destruct (thrown s). Qed.

Lemma each_complete_failing (s : state) : failing s -> failing (each_complete followers s).
Proof.
  intros [[Ht Hs]|[[e He]|[e He]]].
  - rewrite each_complete_thrown by done. by left.
  - by rewrite (each_complete_failed followers s e He); right; left; exists e.
  - by rewrite (each_complete_finished s (Some e) He); right; right; exists e.
Qed.

Lemma step_failing (s : state) (ev : event) :
  failing s -> failing (step consolidate mpath cfg metadata followers s ev).
Proof.
  intros Hs. unfold step. destruct ev as [|i].
  - destruct (thrown s) eqn:Ht; [done|]. destruct (queue s) as [|file rest]; [done|].
    apply each_complete_failing.
    match goal with
    | |- context [convert _ _ _ _ ?s0 _] => set (s1 := s0)
    end.
    destruct (convert_frame consolidate mpath cfg metadata s1 file) as (_ & _ & Hstage).
    unfold failing in *. rewrite Hstage. cbn.
    destruct Hs as [[Hs _]|Hs]; [by rewrite Ht in Hs | by right].
  - destruct (inflight s !! i) as [p|]; [|done]. unfold rendered.
    destruct (p_result p) as [[str|err]|]; [| |done].
    + apply each_complete_failing. unfold failing in *. cbn. done.
    + unfold each_failed, callback, renderFiles, failing in *. cbn.
      destruct Hs as [[Ht Hs]|[[e He]|[e He]]].
      * destruct (stage s) as [|e| |[e|]] eqn:Hstage; cbn; rewrite ?Hstage; eauto.
      * rewrite He. cbn. eauto.
      * rewrite He. cbn. eauto.
Qed.

Lemma steps_failing (trace : list event) :
  forall s, failing s ->
            failing (fold_left (step consolidate mpath cfg metadata followers) trace s).
Proof.
  induction trace as [|ev trace IH]; intros s Hs; [done|].
  cbn [fold_left]. by apply IH, step_failing.
Qed.

Lemma failing_not_finished (s : state) : failing s -> stage s <> Finished None.
Proof. intros [[_ Hs]|[[e He]|[e He]]]; [done|congruence..]. Qed.

Lemma step_deliver (s : state) (i : nat) (p : pending) (str : string) :
  inflight s !! i = Some p -> p_result p = Some (Rendered str) ->
  step consolidate mpath cfg metadata followers s (Deliver i)
  = each_complete followers
      {| files := set (p_file p) (p_data p) (files s);
         heap := alter (set "contents" (VBuf str)) (p_data p) (heap s);
         queue := queue s; inflight := delete i (inflight s); stage := stage s;
         thrown := thrown s |}.
Proof. intros Hi Hres. unfold step, rendered. by rewrite Hi, Hres. Qed.

Lemma waiting_each_complete (s : state) :
  thrown s = None -> stage s = Seeds \/ stage s = Followers ->
  waiting followers (each_complete followers s) = waiting followers s.
Proof.
  intros Ht Hstage. unfold each_complete. rewrite Ht.
  destruct (queue s) eqn:Hq; [|done]. destruct (inflight s); [|done].
  unfold callback, renderFiles, waiting.
  destruct Hstage as [Hs|Hs]; rewrite Hs; cbn; rewrite ?Hq; [|done].
  destruct followers; [done|]. cbn. by rewrite app_nil_r.
Qed.

End Events.

Section Tracking.

Variable consolidate : string -> option property.
Variable mpath : value -> string -> string.
Variable cfg : config.
Variable metadata : obj.
Variable fs : list (string * nat).
Variable h1 : gmap nat obj.
Variable seeds followers : list string.

Hypothesis one_record_per_key : NoDup (map snd fs).
Hypothesis selected_records :
  forall g, g ∈ seeds ++ followers -> exists l data, get g fs = Some l /\ h1 !! l = Some data.
Hypothesis selected_once : NoDup (seeds ++ followers).
Hypothesis no_key_taken :
  forall f g, f ∈ seeds ++ followers -> g ∈ seeds ++ followers -> new_key cfg g = f -> f = g.

Lemma each_complete_tracked (s : state) :
  thrown s = None -> stage s = Seeds \/ stage s = Followers ->
  second_phase fs followers s ->
  charted consolidate mpath cfg metadata fs h1 (seeds ++ followers)
    (waiting followers s) (inflight s) (files s) (heap s) ->
  tracked consolidate mpath cfg metadata fs h1 seeds followers (each_complete followers s)
  /\ settled (each_complete followers s).
Proof.
  intros Ht Hstage Hsecond Hch. unfold each_complete. rewrite Ht.
  destruct (queue s) as [|file rest] eqn:Hq.
  2: { split; [|by unfold settled; rewrite Hq].
       unfold tracked. split_and!; [done|tauto| |done|done].
       intros Hs. destruct Hstage; congruence. }
  destruct (inflight s) as [|p fl] eqn:Hfl.
  2: { split; [|by unfold settled; rewrite Hfl].
       unfold tracked. rewrite Hfl. split_and!; [done|tauto| |done|done].
       intros Hs. destruct Hstage; congruence. }
  unfold waiting in Hch. rewrite Hq in Hch. cbn [app] in Hch.
  assert (forall st, second_phase fs followers
                       {| files := files s; heap := heap s; queue := followers;
                          inflight := inflight s; stage := st; thrown := thrown s |})
    as Hnext.
  { intros st _. cbn. rewrite Hfl. split; [done|]. intros q Hq'. by apply elem_of_nil in Hq'. }
  assert (forall st, second_phase fs followers
                       {| files := files s; heap := heap s; queue := queue s;
                          inflight := inflight s; stage := st; thrown := thrown s |})
    as Hlast.
  { intros st _. cbn. rewrite Hfl, Hq. split; intros q Hq'; by apply elem_of_nil in Hq'. }
  unfold callback, renderFiles, tracked, settled, waiting.
  destruct Hstage as [Hs|Hs]; rewrite Hs in *; cbn [stage queue inflight files heap thrown].
  - split; [|by destruct followers].
    split_and!; [done| by destruct followers; eauto | by destruct followers | apply Hnext |].
    rewrite Hfl. destruct followers; cbn; rewrite ?app_nil_r; rewrite ?app_nil_r in Hch; done.
  - rewrite Hq, Hfl. split; [|done].
    split_and!; [done | eauto | done | rewrite <- Hq, <- Hfl; apply Hlast | done].
Qed.

Lemma begin_tracked :
  tracked consolidate mpath cfg metadata fs h1 seeds followers
    (each_complete followers
       {| files := fs; heap := h1; queue := seeds; inflight := []; stage := Seeds;
          thrown := None |})
  /\ settled
       (each_complete followers
          {| files := fs; heap := h1; queue := seeds; inflight := []; stage := Seeds;
             thrown := None |}).
Proof.
  apply each_complete_tracked; [done | by left | by intros ? | ]. cbn.
  by apply charted_begin.
Qed.

Lemma step_start (s : state) (file : string) (rest : list string) :
  tracked consolidate mpath cfg metadata fs h1 seeds followers s ->
  queue s = file :: rest ->
  exists l data,
    get file fs = Some l /\ h1 !! l = Some data
    /\ (thrown (step consolidate mpath cfg metadata followers s Start) <> None
        \/ step consolidate mpath cfg metadata followers s Start
           = {| files := if truthy (rename cfg) then del file (files s) else files s;
                heap := heap s; queue := rest;
                inflight := inflight s
                            ++ [{| p_data := l; p_file := new_key cfg file;
                                   p_result := rendering consolidate mpath cfg metadata
                                                 data |}];
                stage := stage s; thrown := None |})
    /\ forall r,
        rendering consolidate mpath cfg metadata data = Some r ->
        step consolidate mpath cfg metadata followers s Start
        = {| files := if truthy (rename cfg) then del file (files s) else files s;
             heap := heap s; queue := rest;
             inflight := inflight s
                         ++ [{| p_data := l; p_file := new_key cfg file;
                                p_result := Some r |}];
             stage := stage s; thrown := None |}.
Proof.
  intros (Ht & Hstage & Hidle & _ & Hch) Hq.
  assert (file ∈ waiting followers s) as Hfile.
  { unfold waiting. rewrite Hq. apply list_elem_of_here. }
  destruct (selected_records file (ch_selected _ _ _ _ _ _ _ _ _ _ _ Hch file Hfile))
    as (l & data & Hl & Hdata).
  exists l, data. split; [done|]. split; [done|].
  assert (get file (files s) = Some l) as Hl'
    by (by rewrite (ch_keys _ _ _ _ _ _ _ _ _ _ _ Hch file Hfile)).
  assert (heap s !! l = Some data) as Hdata'
    by (by rewrite (ch_untouched _ _ _ _ _ _ _ _ _ _ _ Hch file l Hfile Hl)).
  unfold step. rewrite Ht, Hq. unfold convert, rendering. cbn [files heap].
  rewrite Hl', Hdata'.
  assert (forall (r : option render_result) (fl : list pending) (F : list (string * nat)),
            each_complete followers
              {| files := F; heap := heap s; queue := rest;
                 inflight := inflight s ++ fl ++ [{| p_data := l;
                                                     p_file := new_key cfg file;
                                                     p_result := r |}];
                 stage := stage s; thrown := None |}
            = {| files := F; heap := heap s; queue := rest;
                 inflight := inflight s ++ fl ++ [{| p_data := l;
                                                     p_file := new_key cfg file;
                                                     p_result := r |}];
                 stage := stage s; thrown := None |}) as Hbusy.
  { intros r fl F. apply each_complete_busy. cbn. destruct (inflight s), fl; done. }
  destruct (getLayoutPath cfg (prop data (to_string (layoutKey cfg)))) as [layout|e].
  2: { split; [|done]. left.
       match goal with
       | |- thrown (each_complete _ ?s0) <> None =>
           destruct (each_complete_frame followers s0) as (_ & _ & _ & ->)
       end. done. }
  destruct (consolidate (to_string (engine cfg))) as [[render|[e|]]|]; cbn [call_render].
  2, 4: split; [|done]; left;
    match goal with
    | |- thrown (each_complete _ ?s0) <> None =>
        destruct (each_complete_frame followers s0) as (_ & _ & _ & ->)
    end; done.
  - split; [right|intros r [= <-]]; apply (Hbusy _ []).
  - split; [right|done]. apply (Hbusy _ []).
Qed.

Lemma start_tracked (s : state) (file : string) (rest : list string) (l : nat)
    (data : obj) (r : option render_result) :
  tracked consolidate mpath cfg metadata fs h1 seeds followers s ->
  queue s = file :: rest -> get file fs = Some l -> h1 !! l = Some data ->
  rendering consolidate mpath cfg metadata data = r ->
  tracked consolidate mpath cfg metadata fs h1 seeds followers
    {| files := if truthy (rename cfg) then del file (files s) else files s;
       heap := heap s; queue := rest;
       inflight := inflight s
                   ++ [{| p_data := l; p_file := new_key cfg file; p_result := r |}];
       stage := stage s; thrown := None |}.
Proof.
  intros (Ht & Hstage & Hidle & Hsecond & Hch) Hq Hl Hdata Hr.
  assert (stage s = Seeds \/ stage s = Followers) as Hstage'.
  { destruct Hstage as [?|[?|Hfin]]; [by left | by right |].
    destruct (Hidle Hfin) as [Hnil _]. by rewrite Hq in Hnil. }
  unfold tracked. cbn. split_and!; [done|tauto| | |].
  - intros Hfin. destruct Hstage'; congruence.
  - intros Hne. cbn in *. destruct (Hsecond Hne) as [Hqs Hfls]. rewrite Hq in Hqs. split.
    + intros f Hf. by apply Hqs, list_elem_of_further.
    + intros q [Hq' | ->%list_elem_of_singleton]%elem_of_app; [by apply Hfls|].
      exists file. split; [apply Hqs, list_elem_of_here | done].
  - unfold waiting in *. cbn. rewrite Hq in Hch. cbn [app] in Hch.
    by apply (charted_start _ _ _ _ _ _ _ one_record_per_key no_key_taken _ _ _ _ _ l data).
Qed.

Lemma deliver_tracked (s : state) (i : nat) (p : pending) (str : string) :
  tracked consolidate mpath cfg metadata fs h1 seeds followers s ->
  inflight s !! i = Some p -> p_result p = Some (Rendered str) ->
  tracked consolidate mpath cfg metadata fs h1 seeds followers
    (step consolidate mpath cfg metadata followers s (Deliver i))
  /\ settled (step consolidate mpath cfg metadata followers s (Deliver i)).
Proof.
  intros (Ht & Hstage & Hidle & Hsecond & Hch) Hi Hres.
  assert (stage s = Seeds \/ stage s = Followers) as Hstage'.
  { destruct Hstage as [?|[?|Hfin]]; [by left | by right |].
    destruct (Hidle Hfin) as [_ Hnil]. by rewrite Hnil in Hi. }
  rewrite (step_deliver _ _ _ _ _ s i p str Hi Hres).
  apply each_complete_tracked; [done|done| |].
  - intros Hne. cbn in *. destruct (Hsecond Hne) as [Hqs Hfls]. split; [done|].
    intros q Hq'. by eapply Hfls, list_elem_of_delete_inv.
  - cbn. unfold waiting in *. cbn. by apply charted_deliver.
Qed.

Lemma step_tracked (s : state) (ev : event) :
  tracked consolidate mpath cfg metadata fs h1 seeds followers s -> settled s ->
  (tracked consolidate mpath cfg metadata fs h1 seeds followers
     (step consolidate mpath cfg metadata followers s ev)
   /\ settled (step consolidate mpath cfg metadata followers s ev))
  \/ failing (step consolidate mpath cfg metadata followers s ev).
Proof.
  intros Hs Hset. pose proof Hs as (Ht & Hstage & Hidle & Hsecond & Hch).
  assert (inflight s <> [] \/ queue s <> [] -> stage s = Seeds \/ stage s = Followers)
    as Hbusy.
  { intros Hor. destruct Hstage as [?|[?|Hfin]]; [by left | by right |].
    destruct (Hidle Hfin) as [? ?]. by destruct Hor. }
  destruct ev as [|i].
  - destruct (queue s) as [|file rest] eqn:Hq.
    { left. unfold step. by rewrite Ht, Hq. }
    destruct (step_start s file rest Hs Hq)
      as (l & data & Hl & Hdata & [Hthrown|Hstart] & _).
    { right. left. split; [done|].
      assert (stage s = Seeds \/ stage s = Followers) as Hstage'
        by (apply Hbusy; right; done).
      unfold step. rewrite Ht, Hq. rewrite each_complete_thrown.
      - match goal with
        | |- context [convert _ _ _ _ ?s0 _] =>
            destruct (convert_frame consolidate mpath cfg metadata s0 file)
              as (_ & _ & ->)
        end.
        cbn. destruct Hstage'; congruence.
      - unfold step in Hthrown. rewrite Ht, Hq in Hthrown.
        match goal with
        | H : thrown (each_complete _ ?s0) <> None |- _ =>
            destruct (each_complete_frame followers s0) as (_ & _ & _ & Heq);
            by rewrite Heq in H
        end. }
    left. rewrite Hstart. split.
    + by apply (start_tracked s file rest l data).
    + unfold settled. cbn. intros _ Hfl. by destruct (inflight s).
  - destruct (inflight s !! i) as [p|] eqn:Hi.
    2: { left. unfold step. by rewrite Hi. }
    assert (stage s = Seeds \/ stage s = Followers) as Hstage'.
    { apply Hbusy. left. intros Hnil. by rewrite Hnil in Hi. }
    destruct (p_result p) as [[str|err]|] eqn:Hres;
      [| |left; unfold step; by rewrite Hi, Hres].
    + left. by apply (deliver_tracked s i p str).
    + right. unfold step, rendered, each_failed, callback, renderFiles, failing.
      rewrite Hi, Hres. cbn. destruct Hstage' as [-> | ->]; cbn; eauto.
Qed.

Lemma steps_tracked (trace : list event) :
  forall s,
    tracked consolidate mpath cfg metadata fs h1 seeds followers s -> settled s ->
    (tracked consolidate mpath cfg metadata fs h1 seeds followers
       (fold_left (step consolidate mpath cfg metadata followers) trace s)
     /\ settled (fold_left (step consolidate mpath cfg metadata followers) trace s))
    \/ failing (fold_left (step consolidate mpath cfg metadata followers) trace s).
Proof.
  induction trace as [|ev trace IH]; intros s Hs Hset; [by left|].
  cbn [fold_left]. destruct (step_tracked s ev Hs Hset) as [[Hs' Hset']|Hf].
  - by apply IH.
  - right. by apply steps_failing.
Qed.

(** *** Runs whose renders all succeed *)

Lemma tracked_busy (s : state) :
  tracked consolidate mpath cfg metadata fs h1 seeds followers s ->
  queue s <> [] \/ inflight s <> [] -> stage s = Seeds \/ stage s = Followers.
Proof.
  intros (_ & Hstage & Hidle & _) Hor.
  destruct Hstage as [?|[?|Hfin]]; [by left | by right |].
  destruct (Hidle Hfin) as [? ?]. by destruct Hor.
Qed.

Hypothesis renders_succeed :
  forall g l data,
    g ∈ seeds ++ followers -> get g fs = Some l -> h1 !! l = Some data ->
    exists str, rendering consolidate mpath cfg metadata data = Some (Rendered str).

Lemma start_succeeds (s : state) (file : string) (rest : list string) :
  tracked consolidate mpath cfg metadata fs h1 seeds followers s ->
  queue s = file :: rest ->
  let s' := step consolidate mpath cfg metadata followers s Start in
  tracked consolidate mpath cfg metadata fs h1 seeds followers s' /\ settled s'
  /\ queue s' = rest /\ stage s' = stage s
  /\ (exists p, inflight s' = inflight s ++ [p])
  /\ waiting followers s = file :: waiting followers s'.
Proof.
  intros Hs Hq s'. pose proof Hs as (_ & _ & _ & _ & Hch).
  destruct (step_start s file rest Hs Hq) as (l & data & Hl & Hdata & _ & Hstart).
  assert (file ∈ seeds ++ followers) as Hfile.
  { apply (ch_selected _ _ _ _ _ _ _ _ _ _ _ Hch). unfold waiting. rewrite Hq.
    apply list_elem_of_here. }
  destruct (renders_succeed file l data Hfile Hl Hdata) as [str Hr].
  pose proof (start_tracked s file rest l data (Some (Rendered str)) Hs Hq Hl Hdata Hr)
    as Hs1.
  unfold s'. rewrite (Hstart _ Hr). split_and!; [done| |done|done| |].
  - unfold settled. cbn. intros _ Hfl. by destruct (inflight s).
  - by eexists.
  - unfold waiting. cbn. by rewrite Hq.
Qed.

Lemma deliver_succeeds (s : state) (p : pending) (fl : list pending) :
  tracked consolidate mpath cfg metadata fs h1 seeds followers s ->
  inflight s = p :: fl ->
  let s' := step consolidate mpath cfg metadata followers s (Deliver 0) in
  tracked consolidate mpath cfg metadata fs h1 seeds followers s' /\ settled s'
  /\ inflight s' = fl /\ waiting followers s' = waiting followers s
  /\ (fl <> [] -> queue s' = queue s /\ stage s' = stage s).
Proof.
  intros Hs Hfl s'. pose proof Hs as (Ht & _ & _ & _ & Hch).
  assert (inflight s !! 0%nat = Some p) as Hi by (by rewrite Hfl).
  assert (exists str, p_result p = Some (Rendered str)) as [str Hres].
  { destruct (ch_flight _ _ _ _ _ _ _ _ _ _ _ Hch p) as (g & data & Hg & Hl & _ & Hdata & _ & Hr).
    { rewrite Hfl. apply list_elem_of_here. }
    destruct (renders_succeed g _ data Hg Hl Hdata) as [str Hr'].
    exists str. congruence. }
  destruct (deliver_tracked s 0 p str Hs Hi Hres) as [Hs1 Hset1].
  assert (stage s = Seeds \/ stage s = Followers) as Hstage.
  { apply (tracked_busy s Hs). right. by rewrite Hfl. }
  split_and!; [done|done|..]; unfold s'; rewrite (step_deliver _ _ _ _ _ s 0 p str Hi Hres).
  - match goal with
    | |- context [each_complete _ ?s0] =>
        destruct (each_complete_frame followers s0) as (_ & _ & -> & _)
    end.
    cbn. by rewrite Hfl.
  - by rewrite waiting_each_complete.
  - intros Hne. rewrite each_complete_busy; [done|]. cbn. by rewrite Hfl.
Qed.

Lemma step_succeeds (s : state) (ev : event) :
  tracked consolidate mpath cfg metadata fs h1 seeds followers s -> settled s ->
  tracked consolidate mpath cfg metadata fs h1 seeds followers
    (step consolidate mpath cfg metadata followers s ev)
  /\ settled (step consolidate mpath cfg metadata followers s ev).
Proof.
  intros Hs Hset. pose proof Hs as (Ht & _ & _ & _ & Hch). destruct ev as [|i].
  - destruct (queue s) as [|file rest] eqn:Hq.
    + unfold step. by rewrite Ht, Hq.
    + by destruct (start_succeeds s file rest Hs Hq) as (? & ? & _).
  - destruct (inflight s !! i) as [p|] eqn:Hi.
    2: { unfold step. by rewrite Hi. }
    assert (exists str, p_result p = Some (Rendered str)) as [str Hres].
    { destruct (ch_flight _ _ _ _ _ _ _ _ _ _ _ Hch p) as (g & data & Hg & Hl & _ & Hdata & _ & Hr).
      { by eapply list_elem_of_lookup_2. }
      destruct (renders_succeed g _ data Hg Hl Hdata) as [str Hr'].
      exists str. congruence. }
    by apply (deliver_tracked s i p str).
Qed.

Lemma steps_succeed (trace : list event) :
  forall s,
    tracked consolidate mpath cfg metadata fs h1 seeds followers s -> settled s ->
    tracked consolidate mpath cfg metadata fs h1 seeds followers
      (fold_left (step consolidate mpath cfg metadata followers) trace s)
    /\ settled (fold_left (step consolidate mpath cfg metadata followers) trace s).
Proof.
  induction trace as [|ev trace IH]; intros s Hs Hset; [done|].
  cbn [fold_left]. destruct (step_succeeds s ev Hs Hset). by apply IH.
Qed.

(** From wherever a run stands, some events end it well. *)
Lemma can_finish (n : nat) :
  forall s,
    tracked consolidate mpath cfg metadata fs h1 seeds followers s -> settled s ->
    (2 * List.length (waiting followers s) + List.length (inflight s) <= n)%nat ->
    exists post,
      stage (fold_left (step consolidate mpath cfg metadata followers) post s)
      = Finished None.
Proof.
  induction n as [|n IH]; intros s Hs Hset Hn.
  - exists []. cbn. apply Hset.
    + unfold waiting in Hn. destruct (queue s); [done|]. cbn in Hn. lia.
    + destruct (inflight s); [done|]. cbn in Hn. lia.
  - destruct (inflight s) as [|p fl] eqn:Hfl.
    + destruct (queue s) as [|file rest] eqn:Hq.
      * exists []. cbn. by apply Hset.
      * destruct (start_succeeds s file rest Hs Hq) as (Hs' & Hset' & _ & _ & [q Hq'] & Hw).
        destruct (IH _ Hs' Hset') as [post Hpost].
        { rewrite Hq', Hfl. rewrite Hw in Hn. cbn in *. lia. }
        by exists (Start :: post).
    + destruct (deliver_succeeds s p fl Hs Hfl) as (Hs' & Hset' & Hfl' & Hw & _).
      destruct (IH _ Hs' Hset') as [post Hpost].
      { rewrite Hfl', Hw. cbn in Hn. lia. }
      by exists (Deliver 0 :: post).
Qed.

(** Every waiting file of the running [each] is started, then every
    render calls back. *)
Lemma starts_succeed (q : list string) :
  forall s,
    tracked consolidate mpath cfg metadata fs h1 seeds followers s -> settled s ->
    queue s = q ->
    let s' := fold_left (step consolidate mpath cfg metadata followers)
                (replicate (List.length q) Start) s in
    tracked consolidate mpath cfg metadata fs h1 seeds followers s' /\ settled s'
    /\ (q <> [] -> queue s' = [] /\ stage s' = stage s)
    /\ List.length (inflight s') = (List.length (inflight s) + List.length q)%nat
    /\ waiting followers s = q ++ waiting followers s'.
Proof.
  induction q as [|file rest IH]; intros s Hs Hset Hq s'.
  { cbn in s'. subst s'. split_and!; [done|done|done|cbn; lia|done]. }
  cbn [List.length replicate fold_left] in s'.
  destruct (start_succeeds s file rest Hs Hq) as (Hs1 & Hset1 & Hq1 & Hst1 & [p Hp] & Hw).
  destruct (IH _ Hs1 Hset1 Hq1) as (Hs2 & Hset2 & Hq2 & Hlen & Hw2).
  fold s' in Hs2, Hset2, Hq2, Hlen, Hw2. split_and!; [done|done| | |].
  - intros _. destruct rest as [|file' rest'].
    + cbn in s'. by subst s'.
    + destruct Hq2 as [-> ->]; [done|]. by rewrite Hst1.
  - rewrite Hlen, Hp, length_app. cbn. lia.
  - rewrite Hw, Hw2. done.
Qed.

Lemma delivers_succeed (m : nat) :
  forall s,
    tracked consolidate mpath cfg metadata fs h1 seeds followers s -> settled s ->
    List.length (inflight s) = m ->
    let s' := fold_left (step consolidate mpath cfg metadata followers)
                (replicate m (Deliver 0)) s in
    tracked consolidate mpath cfg metadata fs h1 seeds followers s' /\ settled s'
    /\ inflight s' = [] /\ waiting followers s' = waiting followers s.
Proof.
  induction m as [|m IH]; intros s Hs Hset Hlen s'.
  { cbn in s'. subst s'. split_and!; [done|done| |done]. by destruct (inflight s). }
  destruct (inflight s) as [|p fl] eqn:Hfl; [done|].
  cbn [replicate fold_left] in s'.
  destruct (deliver_succeeds s p fl Hs Hfl) as (Hs1 & Hset1 & Hfl1 & Hw1 & _).
  destruct (IH _ Hs1 Hset1) as (Hs2 & Hset2 & Hfl2 & Hw2).
  { rewrite Hfl1. cbn in Hlen. lia. }
  fold s' in Hs2, Hset2, Hfl2, Hw2. split_and!; [done|done|done|]. by rewrite Hw2.
Qed.

Lemma batch_succeeds (s : state) :
  tracked consolidate mpath cfg metadata fs h1 seeds followers s -> settled s ->
  inflight s = [] ->
  let s' := fold_left (step consolidate mpath cfg metadata followers)
              (batch (List.length (queue s))) s in
  tracked consolidate mpath cfg metadata fs h1 seeds followers s' /\ settled s'
  /\ inflight s' = []
  /\ waiting followers s = queue s ++ waiting followers s'.
Proof.
  intros Hs Hset Hfl s'. subst s'. unfold batch. rewrite fold_left_app.
  destruct (starts_succeed (queue s) s Hs Hset eq_refl) as (Hs1 & Hset1 & _ & Hlen & Hw).
  rewrite Hfl in Hlen. cbn in Hlen.
  destruct (delivers_succeed _ _ Hs1 Hset1 Hlen) as (Hs2 & Hset2 & Hfl2 & Hw2).
  split_and!; [done|done|done|]. by rewrite Hw2.
Qed.

End Tracking.

Lemma set_get_id {A : Type} (k : string) (v : A) (o : list (string * A)) :
  get k o = Some v -> set k v o = o.
Proof.
  induction o as [|[k' v'] o IH]; cbn [get set]; [done|].
  destruct (String.eqb_spec k k') as [->|Hne]; [by intros [= ->]|].
  intros Hget. by rewrite IH.
Qed.

Lemma callback_frame (followers : list string) (s : state) (err : option js_error) :
  files (callback followers s err) = files s
  /\ heap (callback followers s err) = heap s
  /\ inflight (callback followers s err) = inflight s
  /\ thrown (callback followers s err) = thrown s.
Proof. unfold callback, renderFiles. by destruct (stage s), err. Qed.

Section Driver.

Variable consolidate : string -> option property.
Variable mpath : value -> string -> string.
Variable cfg : config.
Variable metadata : obj.
Variable followers : list string.

(** *** The collection without [rename] *)

Lemma step_keeps_collection (fs : list (string * nat)) (s : state) (ev : event) :
  truthy (rename cfg) = false ->
  files s = fs /\ (forall p, p ∈ inflight s -> get (p_file p) fs = Some (p_data p)) ->
  files (step consolidate mpath cfg metadata followers s ev) = fs
  /\ (forall p, p ∈ inflight (step consolidate mpath cfg metadata followers s ev) ->
                get (p_file p) fs = Some (p_data p)).
Proof.
  intros Hren [Hfiles Hfl]. unfold step. destruct ev as [|i].
  - destruct (thrown s); [done|]. destruct (queue s) as [|file rest]; [done|].
    match goal with
    | |- context [each_complete _ ?s0] =>
        destruct (each_complete_frame followers s0) as (-> & _ & -> & _)
    end.
    unfold convert, crash. cbn [files heap inflight]. rewrite Hren.
    destruct (get file (files s)) as [l|] eqn:Hl; [|done].
    destruct (heap s !! l); [|done].
    destruct (getLayoutPath cfg _); [|done].
    destruct (call_render _ _ _); cbn; [|done]. split; [done|].
    intros p [Hp | ->%list_elem_of_singleton]%elem_of_app; [by apply Hfl|].
    cbn. by rewrite <- Hfiles.
  - destruct (inflight s !! i) as [p|] eqn:Hi; [|done]. unfold rendered.
    assert (forall q, q ∈ delete i (inflight s) -> get (p_file q) fs = Some (p_data q))
      as Hfl' by (intros q Hq; by eapply Hfl, list_elem_of_delete_inv).
    destruct (p_result p) as [[str|err]|]; [| |done].
    + match goal with
      | |- context [each_complete _ ?s0] =>
          destruct (each_complete_frame followers s0) as (-> & _ & -> & _)
      end.
      cbn. split; [|done]. rewrite Hfiles. apply set_get_id, Hfl.
      by eapply list_elem_of_lookup_2.
    + unfold each_failed.
      match goal with
      | |- context [callback _ ?s0 ?e] =>
          destruct (callback_frame followers s0 e) as (-> & _ & -> & _)
      end.
      done.
Qed.

(** *** The end of a run *)

Lemma step_finished (s : state) (ev : event) (r : option js_error) :
  stage s = Finished r ->
  stage (step consolidate mpath cfg metadata followers s ev) = Finished r.
Proof.
  intros Hs. unfold step. destruct ev as [|i].
  - destruct (thrown s); [done|]. destruct (queue s) as [|file rest]; [done|].
    match goal with
    | |- context [convert _ _ _ _ ?s0 _] => set (s1 := s0)
    end.
    destruct (convert_frame consolidate mpath cfg metadata s1 file) as (_ & _ & Hstage).
    rewrite (each_complete_finished _ _ r); by rewrite Hstage.
  - destruct (inflight s !! i) as [p|]; [|done]. unfold rendered.
    destruct (p_result p) as [[str|err]|]; [| |done].
    + by rewrite (each_complete_finished _ _ r).
    + unfold each_failed, callback. cbn. by rewrite Hs.
Qed.

Lemma steps_finished (trace : list event) (r : option js_error) :
  forall s, stage s = Finished r ->
            stage (fold_left (step consolidate mpath cfg metadata followers) trace s)
            = Finished r.
Proof.
  induction trace as [|ev trace IH]; intros s Hs; [done|].
  cbn [fold_left]. by apply IH, step_finished.
Qed.

Lemma each_complete_over (s : state) : over s -> over (each_complete followers s).
Proof.
  intros Hs. unfold each_complete.
  destruct (thrown s) eqn:Ht; [done|]. destruct (queue s) eqn:Hq; [|done].
  destruct (inflight s) eqn:Hfl; [|done].
  unfold callback, renderFiles.
  destruct (stage s) eqn:Hstage; [|done| |done]; unfold over; cbn; rewrite ?Hfl, ?Ht.
  - by destruct followers.
  - done.
Qed.

Lemma step_over (s : state) (ev : event) :
  over s -> over (step consolidate mpath cfg metadata followers s ev).
Proof.
  intros Hs. unfold step. destruct ev as [|i].
  - destruct (thrown s) eqn:Ht; [done|]. destruct (queue s) as [|file rest] eqn:Hq; [done|].
    apply each_complete_over. unfold over.
    match goal with
    | |- context [convert _ _ _ _ ?s0 _] =>
        destruct (convert_frame consolidate mpath cfg metadata s0 file) as (_ & _ & ->)
    end.
    cbn. intros Hfin. destruct (Hs Hfin) as (Hnil & _). by rewrite Hq in Hnil.
  - destruct (inflight s !! i) as [p|] eqn:Hi; [|done].
    assert (stage s <> Finished None) as Hne.
    { intros Hfin. destruct (Hs Hfin) as (_ & Hnil & _). by rewrite Hnil in Hi. }
    unfold rendered. destruct (p_result p) as [[str|err]|]; [| |done].
    + apply each_complete_over. unfold over. cbn. done.
    + unfold each_failed, callback, renderFiles, over. cbn.
      destruct (stage s) as [|e| |[e|]] eqn:Hstage; cbn; rewrite ?Hstage; done.
Qed.

Lemma steps_over (trace : list event) :
  forall s, over s -> over (fold_left (step consolidate mpath cfg metadata followers) trace s).
Proof.
  induction trace as [|ev trace IH]; intros s Hs; [done|].
  cbn [fold_left]. by apply IH, step_over.
Qed.

Lemma steps_idle (trace : list event) (s : state) :
  queue s = [] -> inflight s = [] ->
  fold_left (step consolidate mpath cfg metadata followers) trace s = s.
Proof.
  intros Hq Hfl. induction trace as [|ev trace IH]; [done|].
  cbn [fold_left]. unfold step at 2. rewrite Hq, Hfl.
  destruct ev; [by destruct (thrown s) | done].
Qed.

End Driver.

Section RunBooks.

Variable consolidate : string -> option property.
Variable mpath : value -> string -> string.
Variable pmatch : string -> value -> bool.
Variable readPartials : string -> value -> value -> result value.

Lemma begin_frame (cfg : config) (fs : list (string * nat)) (h : gmap nat obj) :
  files (begin mpath pmatch cfg fs h) = fs
  /\ inflight (begin mpath pmatch cfg fs h) = []
  /\ heap (begin mpath pmatch cfg fs h) = sel_heap (select mpath pmatch cfg fs h).
Proof.
  unfold begin. destruct (sel_thrown _); [done|].
  match goal with
  | |- context [each_complete ?f ?s0] =>
      destruct (each_complete_frame f s0) as (-> & -> & -> & _)
  end.
  done.
Qed.

Lemma select_charted (cfg : config) (fs : list (string * nat)) (h : gmap nat obj) :
  NoDup (keys fs) -> NoDup (map snd fs) ->
  Forall (fun f => f <> EmptyString) (keys fs) ->
  let sel := select mpath pmatch cfg fs h in
  (forall g, g ∈ map snd (templates sel) ++ keys (matches sel) ->
     exists l o,
       get g fs = Some l
       /\ check pmatch h fs g (pattern cfg) (def cfg) (layoutKey cfg) = true
       /\ h !! l = Some o /\ sel_heap sel !! l = Some (stringified o))
  /\ NoDup (map snd (templates sel) ++ keys (matches sel))
  /\ (sel_thrown sel = None ->
      forall f l, get f fs = Some l ->
        check pmatch h fs f (pattern cfg) (def cfg) (layoutKey cfg) = true ->
        f ∈ map snd (templates sel) ++ keys (matches sel)
        /\ renderable cfg (h !! l) = true).
Proof.
  intros Hkeys Hinj Hne sel.
  pose proof (select_selecting mpath pmatch cfg fs h Hkeys Hinj)
    as (Hdone & Hdisj & Hloc & Hnew & Hold).
  pose proof (select_outcome mpath pmatch cfg fs h Hkeys Hinj Hne)
    as (Hseeds & Hfollowers & Hok & Hbad).
  fold sel in Hdone, Hdisj, Hloc, Hnew, Hold, Hseeds, Hfollowers, Hok, Hbad.
  split_and!.
  - intros g Hg. assert (chosen sel g) as Hc by (by apply elem_of_app in Hg).
    destruct (get_is_Some g fs (Hdone g Hc)) as [l Hl].
    destruct (Hold g l Hl (Hdone g Hc)) as [[_ Hnc]|(Hpass & o & Ho & Ho')]; [done|].
    by exists l, o.
  - apply NoDup_app. split_and!; [done| |done]. intros g Hg. by apply Hdisj.
  - intros Hthrown f l Hl Hpass.
    assert (f ∈ keys fs) as Hf.
    { apply dec_stable. intros Hn. apply get_None_keys in Hn. congruence. }
    destruct (Hok Hthrown f l Hf Hl Hpass) as [Hr Hc]. split; [|done].
    apply elem_of_app. exact Hc.
Qed.

Lemma run_tracked (cfg : config) (metadata : obj) (fs : list (string * nat))
    (h : gmap nat obj) (trace : list event) :
  NoDup (keys fs) -> NoDup (map snd fs) ->
  Forall (fun f => f <> EmptyString) (keys fs) ->
  (forall f g l l',
      get f fs = Some l -> get g fs = Some l' ->
      check pmatch h fs f (pattern cfg) (def cfg) (layoutKey cfg) = true ->
      check pmatch h fs g (pattern cfg) (def cfg) (layoutKey cfg) = true ->
      new_key cfg g = f -> f = g) ->
  let sel := select mpath pmatch cfg fs h in
  let s := fold_left (step consolidate mpath cfg metadata (keys (matches sel))) trace
             (begin mpath pmatch cfg fs h) in
  sel_thrown sel = None ->
  (tracked consolidate mpath cfg metadata fs (sel_heap sel) (map snd (templates sel))
     (keys (matches sel)) s
   /\ settled s)
  \/ failing s.
Proof.
  intros Hkeys Hinj Hne Hfree sel s Hthrown.
  destruct (select_charted cfg fs h Hkeys Hinj Hne) as (Hrec & Hnd & _).
  fold sel in Hrec, Hnd.
  assert (forall g, g ∈ map snd (templates sel) ++ keys (matches sel) ->
                    exists l data, get g fs = Some l /\ sel_heap sel !! l = Some data) as Hrec'.
  { intros g Hg. destruct (Hrec g Hg) as (l & o & Hl & _ & _ & Ho). by exists l, (stringified o). }
  assert (forall f g, f ∈ map snd (templates sel) ++ keys (matches sel) ->
                      g ∈ map snd (templates sel) ++ keys (matches sel) ->
                      new_key cfg g = f -> f = g) as Hfree'.
  { intros f g Hf Hg Heq.
    destruct (Hrec f Hf) as (l & o & Hl & Hp & _). destruct (Hrec g Hg) as (l' & o' & Hl' & Hp' & _).
    by apply (Hfree f g l l'). }
  subst s. unfold begin. fold sel. rewrite Hthrown.
  destruct (begin_tracked consolidate mpath cfg metadata fs (sel_heap sel)
              (map snd (templates sel)) (keys (matches sel)))
    as [Hb Hb']; [assumption..|].
  apply steps_tracked; assumption.
Qed.

End RunBooks.

Section FurtherRuns.

Variable consolidate : string -> option property.
Variable mpath : value -> string -> string.
Variable pmatch : string -> value -> bool.
Variable readPartials : string -> value -> value -> result value.

(** X11: without [rename] the collection is never changed: at every
    point of every run it holds the same keys, in the same order, bound to
    the same records. *)
Theorem collection_kept_without_rename (cfg : config) (metadata : obj)
    (fs : list (string * nat)) (h : gmap nat obj) (trace : list event) :
  truthy (rename cfg) = false ->
  files (run consolidate mpath pmatch readPartials cfg metadata fs h trace) = fs.
Proof.
  intros Hren. unfold run.
  destruct (with_partials readPartials cfg) as [cfg'|e] eqn:Hwp; [|done].
  destruct (with_partials_fields readPartials cfg cfg' Hwp) as (_ & _ & _ & Hren').
  rewrite <- Hren' in Hren.
  set (followers := keys (matches (select mpath pmatch cfg' fs h))).
  enough (forall s,
            files s = fs /\ (forall p, p ∈ inflight s -> get (p_file p) fs = Some (p_data p)) ->
            files (fold_left (step consolidate mpath cfg' metadata followers) trace s) = fs)
    as Hgen.
  { apply Hgen. destruct (begin_frame mpath pmatch cfg' fs h) as (-> & -> & _).
    split; [done|]. intros p Hp. by apply elem_of_nil in Hp. }
  induction trace as [|ev trace IH]; intros s Hs; [by destruct Hs|].
  cbn [fold_left]. by apply IH, step_keeps_collection.
Qed.

(** X16: [done] is called at most once: once it has been called, with
    the error of a seed, with the error of a follower or without an error,
    no later event calls it again. *)
Theorem done_called_once (cfg : config) (metadata : obj) (fs : list (string * nat))
    (h : gmap nat obj) (pre post : list event) :
  let s := run consolidate mpath pmatch readPartials cfg metadata fs h pre in
  let s' := run consolidate mpath pmatch readPartials cfg metadata fs h (pre ++ post) in
  (forall e, stage s = SeedsFailed e -> stage s' = SeedsFailed e)
  /\ (forall r, stage s = Finished r -> stage s' = Finished r).
Proof.
  intros s s'. subst s s'. unfold run.
  destruct (with_partials readPartials cfg) as [cfg'|e] eqn:Hwp; [|done].
  rewrite fold_left_app. split.
  - intros e He. by apply steps_failed.
  - intros r Hr. by apply steps_finished.
Qed.

(** X17: when [done] has been called without an error the run is over:
    no file is waiting, no render is in flight, nothing has been thrown,
    and no later event changes the collection or a record. *)
Theorem finished_run_is_over (cfg : config) (metadata : obj) (fs : list (string * nat))
    (h : gmap nat obj) (pre post : list event) :
  let s := run consolidate mpath pmatch readPartials cfg metadata fs h pre in
  stage s = Finished None ->
  queue s = [] /\ inflight s = [] /\ thrown s = None
  /\ run consolidate mpath pmatch readPartials cfg metadata fs h (pre ++ post) = s.
Proof.
  intros s. subst s. unfold run.
  destruct (with_partials readPartials cfg) as [cfg'|e] eqn:Hwp; [|done].
  set (followers := keys (matches (select mpath pmatch cfg' fs h))).
  intros Hfin.
  assert (over (begin mpath pmatch cfg' fs h)) as Hbegin.
  { unfold begin. destruct (sel_thrown _); [done|]. by apply each_complete_over. }
  destruct (steps_over consolidate mpath cfg' metadata followers pre _ Hbegin Hfin)
    as (Hq & Hfl & Ht).
  split_and!; [done..|]. rewrite fold_left_app. by apply steps_idle.
Qed.

(** X15: when the render of a follower fails while the second [each] is
    running, [done] is called with the error of the engine, whose message
    names the layout and the key under which the file would have been
    stored; no later event changes that. *)
Theorem follower_failure_reported (cfg cfg' : config) (metadata : obj)
    (fs : list (string * nat)) (h : gmap nat obj) (pre post : list event) (i : nat)
    (p : pending) (err : js_error) :
  with_partials readPartials cfg = Ok cfg' ->
  let s := run consolidate mpath pmatch readPartials cfg metadata fs h pre in
  let s' := run consolidate mpath pmatch readPartials cfg metadata fs h
              (pre ++ Deliver i :: post) in
  stage s = Followers -> inflight s !! i = Some p -> p_result p = Some (Failed err) ->
  stage s'
  = Finished
      (Some (render_error
               (prop (default [] (heap s !! p_data p)) (to_string (layoutKey cfg')))
               (p_file p) err)).
Proof.
  intros Hwp s s'. subst s s'. unfold run. rewrite Hwp.
  set (go := step consolidate mpath cfg' metadata
               (keys (matches (select mpath pmatch cfg' fs h)))).
  set (s := fold_left go pre (begin mpath pmatch cfg' fs h)).
  intros Hstage Hp Hres. rewrite fold_left_app. cbn [fold_left]. fold s.
  apply steps_finished. unfold go, step. rewrite Hp. unfold rendered. rewrite Hres.
  unfold each_failed, callback. cbn. by rewrite Hstage.
Qed.

End FurtherRuns.

Lemma collection_kept_without_rename_witness :
  truthy (rename (defaults "handlebars")) = false
  /\ files (Site.run (defaults "handlebars")
              [Start; Start; Deliver 1%nat; Deliver 0%nat; Start; Deliver 0%nat])
     = Site.files.
Proof.
  split; [reflexivity|].
  apply (collection_kept_without_rename Site.consolidate Site.mpath Site.pmatch
           Site.readPartials (defaults "handlebars")).
  reflexivity.
Defined.

Section Outcomes.

Variable consolidate : string -> option property.
Variable mpath : value -> string -> string.
Variable pmatch : string -> value -> bool.
Variable readPartials : string -> value -> value -> result value.

Lemma getLayoutPath_throws (cfg : config) (layout : value) (e : exn) :
  getLayoutPath cfg layout = Throw e -> exists msg, e = TypeError msg.
Proof.
  unfold getLayoutPath. destruct (js_or layout (def cfg)); try (intros [= <-]; by eexists).
  by destruct (negb _).
Qed.

Lemma visit_throws (cfg : config) (fs : list (string * nat)) (h0 h' : gmap nat obj)
    (file : string) (e : exn) :
  visit mpath pmatch cfg fs h0 file = Aborted h' e -> exists msg, e = TypeError msg.
Proof.
  unfold visit. destruct (negb _); [done|].
  destruct (get file fs) as [l|]; [|intros [= _ <-]; by eexists].
  destruct (h0 !! l) as [o|]; [|intros [= _ <-]; by eexists].
  destruct (prop o "contents"); try (intros [= _ <-]; by eexists).
  all: match goal with
       | |- context [getLayoutPath ?c ?v] => destruct (getLayoutPath c v) as [p|e'] eqn:Hp
       end; try done.
  all: intros [= _ <-]; by eapply getLayoutPath_throws.
Qed.

Lemma select_throws (cfg : config) (fs : list (string * nat)) (h : gmap nat obj) (e : exn) :
  sel_thrown (select mpath pmatch cfg fs h) = Some e -> exists msg, e = TypeError msg.
Proof.
  unfold select.
  enough (forall todo acc,
            (forall e, sel_thrown acc = Some e -> exists msg, e = TypeError msg) ->
            forall e, sel_thrown (fold_left (select_file mpath pmatch cfg fs) todo acc) = Some e ->
                      exists msg, e = TypeError msg) as Hgen.
  { apply Hgen. by intros e'. }
  clear e. induction todo as [|file todo IH]; intros acc Hacc; [done|].
  cbn [fold_left]. apply IH. intros e. unfold select_file.
  destruct (sel_thrown acc) eqn:Ht; [by rewrite Ht; apply Hacc|].
  destruct (visit mpath pmatch cfg fs (sel_heap acc) file) as [|h' l t|h' e'] eqn:Hv.
  - by rewrite Ht.
  - by destruct (match get t (templates acc) with Some _ => _ | None => _ end).
  - cbn. intros [= <-]. by eapply visit_throws.
Qed.

Lemma select_none (cfg : config) (fs : list (string * nat)) (h : gmap nat obj)
    (todo : list string) (acc : selection) :
  sel_heap acc = h ->
  (forall f, f ∈ todo ->
             check pmatch h fs f (pattern cfg) (def cfg) (layoutKey cfg) = false) ->
  fold_left (select_file mpath pmatch cfg fs) todo acc = acc.
Proof.
  intros Hh. induction todo as [|file todo IH]; intros Hall; [done|].
  cbn [fold_left]. unfold select_file at 2. destruct (sel_thrown acc).
  - apply IH. intros f Hf. by apply Hall, list_elem_of_further.
  - rewrite Hh, visit_skipped by apply Hall, list_elem_of_here.
    apply IH. intros f Hf. by apply Hall, list_elem_of_further.
Qed.

(** X7: when no file passes the check, and so for the empty collection,
    [done] is called at once without an error; the collection and the
    records are as they were, and no event changes that. *)
Theorem nothing_selected (cfg cfg' : config) (metadata : obj) (fs : list (string * nat))
    (h : gmap nat obj) (trace : list event) :
  with_partials readPartials cfg = Ok cfg' ->
  (forall f, f ∈ keys fs ->
             check pmatch h fs f (pattern cfg') (def cfg') (layoutKey cfg') = false) ->
  run consolidate mpath pmatch readPartials cfg metadata fs h trace
  = {| files := fs; heap := h; queue := []; inflight := []; stage := Finished None;
       thrown := None |}.
Proof.
  intros Hwp Hall. unfold run. rewrite Hwp. unfold begin, select.
  rewrite (select_none cfg' fs h) by done. cbn.
  by apply steps_idle.
Qed.

(** X6: when a file passes the check and has no record, no [contents] or
    no layout that resolves, the selection loop throws a TypeError: nothing
    is handed to the engine, [done] is never called and the collection is
    as it was, whatever happens next. *)
Theorem selection_failure_stops_run (cfg cfg' : config) (metadata : obj)
    (fs : list (string * nat)) (h : gmap nat obj) (trace : list event) (f : string)
    (l : nat) :
  NoDup (keys fs) -> NoDup (map snd fs) ->
  Forall (fun f => f <> EmptyString) (keys fs) ->
  with_partials readPartials cfg = Ok cfg' ->
  get f fs = Some l ->
  check pmatch h fs f (pattern cfg') (def cfg') (layoutKey cfg') = true ->
  renderable cfg' (h !! l) = false ->
  let s := run consolidate mpath pmatch readPartials cfg metadata fs h trace in
  (exists msg, thrown s = Some (TypeError msg))
  /\ stage s = Seeds /\ queue s = [] /\ inflight s = [] /\ files s = fs.
Proof.
  intros Hkeys Hinj Hne Hwp Hl Hpass Hr s. subst s. unfold run. rewrite Hwp.
  destruct (select_charted mpath pmatch cfg' fs h Hkeys Hinj Hne) as (_ & _ & Hok).
  destruct (sel_thrown (select mpath pmatch cfg' fs h)) as [e|] eqn:Hthrown.
  2: { destruct (Hok eq_refl f l Hl Hpass) as [_ Hr']. congruence. }
  destruct (select_throws cfg' fs h e Hthrown) as [msg ->].
  rewrite (steps_thrown _ _ _ _ _ _ _ (TypeError msg));
    unfold begin; rewrite Hthrown; cbn; try done.
  split; [by exists msg | done].
Qed.

(** X5: the selection loop runs through exactly when every file that
    passes the check has a record with [contents] and a layout that
    resolves.  It then makes a seed or a follower of the files that pass
    the check and of no other; the record of such a file has its
    [contents] coerced to a string, the record of any other file is as it
    was. *)
Theorem selection_outcome (cfg : config) (fs : list (string * nat)) (h : gmap nat obj) :
  NoDup (keys fs) -> NoDup (map snd fs) ->
  Forall (fun f => f <> EmptyString) (keys fs) ->
  let sel := select mpath pmatch cfg fs h in
  (sel_thrown sel = None
   <-> forall f l,
       get f fs = Some l ->
       check pmatch h fs f (pattern cfg) (def cfg) (layoutKey cfg) = true ->
       renderable cfg (h !! l) = true)
  /\ (sel_thrown sel = None ->
      forall f l,
        get f fs = Some l ->
        (chosen sel f
         <-> check pmatch h fs f (pattern cfg) (def cfg) (layoutKey cfg) = true)
        /\ (check pmatch h fs f (pattern cfg) (def cfg) (layoutKey cfg) = true ->
            exists o, h !! l = Some o /\ sel_heap sel !! l = Some (stringified o))
        /\ (check pmatch h fs f (pattern cfg) (def cfg) (layoutKey cfg) = false ->
            sel_heap sel !! l = h !! l)).
Proof.
  intros Hkeys Hinj Hne sel.
  destruct (select_charted mpath pmatch cfg fs h Hkeys Hinj Hne) as (Hrec & _ & Hok).
  pose proof (select_outcome mpath pmatch cfg fs h Hkeys Hinj Hne) as (_ & _ & _ & Hbad).
  pose proof (select_selecting mpath pmatch cfg fs h Hkeys Hinj) as (Hdone & _ & _ & _ & Hold).
  fold sel in Hrec, Hok, Hbad, Hdone, Hold.
  assert (forall f l, get f fs = Some l -> f ∈ keys fs) as Hin.
  { intros f l Hl. apply dec_stable. intros Hn. apply get_None_keys in Hn. congruence. }
  split.
  - split.
    + intros Hthrown f l Hl Hpass. by apply (Hok Hthrown f l).
    + intros Hall. destruct (sel_thrown sel) as [e|] eqn:Hthrown; [|done].
      destruct (Hbad e eq_refl) as (f & l & _ & Hl & Hpass & Hr).
      rewrite (Hall f l Hl Hpass) in Hr. done.
  - intros Hthrown f l Hl. split_and!.
    + split.
      * intros Hc. assert (f ∈ map snd (templates sel) ++ keys (matches sel)) as Hf
          by (by apply elem_of_app).
        by destruct (Hrec f Hf) as (_ & _ & _ & ? & _).
      * intros Hpass. destruct (Hok Hthrown f l Hl Hpass) as [Hf _].
        by apply elem_of_app in Hf.
    + intros Hpass. destruct (Hok Hthrown f l Hl Hpass) as [Hf _].
      destruct (Hrec f Hf) as (l' & o & Hl' & _ & Ho & Ho').
      rewrite Hl in Hl'. injection Hl' as <-. by exists o.
    + intros Hpass.
      destruct (Hold f l Hl (Hin f l Hl)) as [[Hsame _]|[Hpass' _]]; [done | congruence].
Qed.

(** X12: when [done] has been called without an error, every file that
    passes the check has been rendered: its record is the one it had with
    [contents] replaced by a Buffer of what the engine made of its layout
    and of the context built from the record with its [contents] as text.
    With [rename], no selected file may be renamed to the key of another
    selected file. *)
Theorem finished_run_rendered (cfg cfg' : config) (metadata : obj)
    (fs : list (string * nat)) (h : gmap nat obj) (trace : list event) :
  NoDup (keys fs) -> NoDup (map snd fs) ->
  Forall (fun f => f <> EmptyString) (keys fs) ->
  with_partials readPartials cfg = Ok cfg' ->
  (forall f g l l',
      get f fs = Some l -> get g fs = Some l' ->
      check pmatch h fs f (pattern cfg') (def cfg') (layoutKey cfg') = true ->
      check pmatch h fs g (pattern cfg') (def cfg') (layoutKey cfg') = true ->
      new_key cfg' g = f -> f = g) ->
  let s := run consolidate mpath pmatch readPartials cfg metadata fs h trace in
  stage s = Finished None ->
  forall f l,
    get f fs = Some l ->
    check pmatch h fs f (pattern cfg') (def cfg') (layoutKey cfg') = true ->
    exists o str,
      h !! l = Some o
      /\ rendering consolidate mpath cfg' metadata (stringified o) = Some (Rendered str)
      /\ heap s !! l = Some (set "contents" (VBuf str) o).
Proof.
  intros Hkeys Hinj Hne Hwp Hfree s. subst s. unfold run. rewrite Hwp.
  set (sel := select mpath pmatch cfg' fs h).
  set (s := fold_left _ trace _). intros Hfin f l Hl Hpass.
  destruct (select_charted mpath pmatch cfg' fs h Hkeys Hinj Hne) as (Hrec & _ & Hok).
  fold sel in Hrec, Hok.
  destruct (sel_thrown sel) as [e|] eqn:Hthrown.
  { unfold s in Hfin. rewrite (steps_thrown _ _ _ _ _ _ _ e) in Hfin;
      unfold begin in *; fold sel in Hfin |- *; rewrite Hthrown in *; done. }
  destruct (run_tracked consolidate mpath pmatch cfg' metadata fs h trace Hkeys Hinj Hne
              Hfree Hthrown) as [[Htr _]|Hfail].
  2: { by apply failing_not_finished in Hfail. }
  fold sel s in Htr. destruct Htr as (_ & _ & Hidle & _ & Hch).
  destruct (Hidle Hfin) as [Hq Hfl].
  unfold waiting in Hch. rewrite Hq, Hfl, Hfin in Hch. cbn [app] in Hch.
  destruct (Hok eq_refl f l Hl Hpass) as [Hf _].
  destruct (Hrec f Hf) as (l' & o & Hl' & _ & Ho & Ho').
  rewrite Hl in Hl'. injection Hl' as <-.
  destruct (ch_done _ _ _ _ _ _ _ _ _ _ _ Hch f l Hf Hl) as (data & str & Hdata & Hr & Hheap).
  - intros Hin. by apply elem_of_nil in Hin.
  - intros p Hp. by apply elem_of_nil in Hp.
  - rewrite Ho' in Hdata. injection Hdata as <-.
    exists o, str. split_and!; [done|done|].
    rewrite Hheap. unfold stringified. by rewrite set_set.
Qed.

End Outcomes.

Lemma NoDup_incl_length {A : Type} (l k : list A) :
  NoDup l -> (forall x, x ∈ l -> x ∈ k) -> (List.length l <= List.length k)%nat.
Proof. intros Hnd Hin. by apply submseteq_length, NoDup_submseteq. Qed.

Section Endings.

Variable consolidate : string -> option property.
Variable mpath : value -> string -> string.
Variable pmatch : string -> value -> bool.
Variable readPartials : string -> value -> value -> result value.


(** X14: the two [each] do not overlap.  While the first is running and
    nothing has been thrown, only seeds are waiting or in flight and the
    record of every follower is as the selection loop left it; while the
    second is running and nothing has been thrown, only followers are
    waiting or in flight and every seed has been rendered: its record has
    the [contents] the engine made for it.  The keys of the collection are
    distinct and not empty, no two of them share a record, and with
    [rename] no selected file may be renamed to the key of another selected
    file. *)
Theorem followers_after_seeds (cfg cfg' : config) (metadata : obj)
    (fs : list (string * nat)) (h : gmap nat obj) (trace : list event) :
  NoDup (keys fs) -> NoDup (map snd fs) ->
  Forall (fun f => f <> EmptyString) (keys fs) ->
  with_partials readPartials cfg = Ok cfg' ->
  (forall f g l l',
      get f fs = Some l -> get g fs = Some l' ->
      check pmatch h fs f (pattern cfg') (def cfg') (layoutKey cfg') = true ->
      check pmatch h fs g (pattern cfg') (def cfg') (layoutKey cfg') = true ->
      new_key cfg' g = f -> f = g) ->
  let sel := select mpath pmatch cfg' fs h in
  let s := run consolidate mpath pmatch readPartials cfg metadata fs h trace in
  thrown s = None ->
  (stage s = Seeds ->
   (forall f, f ∈ queue s -> f ∈ map snd (templates sel))
   /\ (forall p, p ∈ inflight s ->
                 exists g, g ∈ map snd (templates sel) /\ get g fs = Some (p_data p))
   /\ forall g l,
       g ∈ keys (matches sel) -> get g fs = Some l ->
       exists o, h !! l = Some o /\ heap s !! l = Some (stringified o))
  /\ (stage s = Followers ->
      (forall f, f ∈ queue s -> f ∈ keys (matches sel))
      /\ (forall p, p ∈ inflight s ->
                    exists g, g ∈ keys (matches sel) /\ get g fs = Some (p_data p))
      /\ forall g l,
          g ∈ map snd (templates sel) -> get g fs = Some l ->
          exists o str,
            h !! l = Some o
            /\ rendering consolidate mpath cfg' metadata (stringified o)
               = Some (Rendered str)
            /\ heap s !! l = Some (set "contents" (VBuf str) o)).
Proof.
  intros Hkeys Hinj Hne Hwp Hfree sel s. subst s. unfold run. rewrite Hwp. fold sel.
  set (s := fold_left _ trace _). intros Hthrown'.
  destruct (select_charted mpath pmatch cfg' fs h Hkeys Hinj Hne) as (Hrec & Hnd & Hok).
  fold sel in Hrec, Hnd, Hok.
  destruct (sel_thrown sel) as [e|] eqn:Hthrown.
  { unfold s in Hthrown'. rewrite (steps_thrown _ _ _ _ _ _ _ e) in Hthrown';
      unfold begin in *; fold sel in Hthrown' |- *; rewrite Hthrown in *; done. }
  pose proof Hnd as (_ & Hdisj & _)%NoDup_app.
  split.
  - intros Hstage.
    destruct (run_tracked consolidate mpath pmatch cfg' metadata fs h trace Hkeys Hinj Hne
                Hfree Hthrown) as [[Htr _]|Hfail].
    2: { fold sel s in Hfail. destruct Hfail as [[? _]|[[e He]|[e He]]]; congruence. }
    fold sel s in Htr. destruct Htr as (_ & _ & _ & _ & Hch).
    unfold waiting in Hch. rewrite Hstage in Hch.
    pose proof (ch_waiting _ _ _ _ _ _ _ _ _ _ _ Hch) as (_ & Hqf & _)%NoDup_app.
    split_and!.
    + intros f Hf.
      assert (f ∈ map snd (templates sel) ++ keys (matches sel)) as Hsel.
      { apply (ch_selected _ _ _ _ _ _ _ _ _ _ _ Hch), elem_of_app. by left. }
      apply elem_of_app in Hsel as [?|Hfollower]; [done|]. by destruct (Hqf f Hf).
    + intros p Hp.
      destruct (ch_flight _ _ _ _ _ _ _ _ _ _ _ Hch p Hp) as (g & data & Hg & Hl & _).
      exists g. split; [|done].
      apply elem_of_app in Hg as [?|Hfollower]; [done|].
      destruct (ch_apart _ _ _ _ _ _ _ _ _ _ _ Hch g p); [|done..].
      apply elem_of_app. by right.
    + intros g l Hg Hl.
      assert (g ∈ map snd (templates sel) ++ keys (matches sel)) as Hsel
        by (apply elem_of_app; by right).
      destruct (Hrec g Hsel) as (l' & o & Hl' & _ & Ho & Ho').
      rewrite Hl in Hl'. injection Hl' as <-. exists o. split; [done|].
      rewrite <- Ho'. apply (ch_untouched _ _ _ _ _ _ _ _ _ _ _ Hch g l); [|done].
      apply elem_of_app. by right.
  - intros Hstage.
    destruct (run_tracked consolidate mpath pmatch cfg' metadata fs h trace Hkeys Hinj Hne
                Hfree Hthrown) as [[Htr _]|Hfail].
    2: { fold sel s in Hfail. destruct Hfail as [[? _]|[[e He]|[e He]]]; congruence. }
    fold sel s in Htr. destruct Htr as (_ & _ & _ & Hsecond & Hch).
    destruct Hsecond as [Hqs Hfls]; [congruence|]. split; [done|]. split; [done|].
    intros g l Hg Hl.
    assert (g ∈ map snd (templates sel) ++ keys (matches sel)) as Hsel
      by (apply elem_of_app; by left).
    assert (g ∉ keys (matches sel)) as Hnf by (by apply Hdisj).
    destruct (Hrec g Hsel) as (l' & o & Hl' & _ & Ho & Ho').
    rewrite Hl in Hl'. injection Hl' as <-.
    destruct (ch_done _ _ _ _ _ _ _ _ _ _ _ Hch g l Hsel Hl)
      as (data & str & Hdata & Hr & Hheap).
    + unfold waiting. rewrite Hstage, app_nil_r. intros Hin. by apply Hnf, Hqs.
    + intros p Hp Heq. destruct (Hfls p Hp) as (g' & Hg' & Hl').
      rewrite Heq in Hl'. by rewrite (get_inj fs g g' l Hinj Hl Hl') in Hnf.
    + rewrite Ho' in Hdata. injection Hdata as <-.
      exists o, str. split_and!; [done|done|].
      rewrite Hheap. unfold stringified. by rewrite set_set.
Qed.

Lemma run_begins (cfg : config) (metadata : obj) (fs : list (string * nat))
    (h : gmap nat obj) :
  NoDup (keys fs) -> NoDup (map snd fs) ->
  Forall (fun f => f <> EmptyString) (keys fs) ->
  (forall f g l l',
      get f fs = Some l -> get g fs = Some l' ->
      check pmatch h fs f (pattern cfg) (def cfg) (layoutKey cfg) = true ->
      check pmatch h fs g (pattern cfg) (def cfg) (layoutKey cfg) = true ->
      new_key cfg g = f -> f = g) ->
  (forall f l,
      get f fs = Some l ->
      check pmatch h fs f (pattern cfg) (def cfg) (layoutKey cfg) = true ->
      exists o str,
        h !! l = Some o /\ prop o "contents" <> VUndef /\ prop o "contents" <> VNull
        /\ rendering consolidate mpath cfg metadata (stringified o) = Some (Rendered str)) ->
  let sel := select mpath pmatch cfg fs h in
  let init := {| files := fs; heap := sel_heap sel; queue := map snd (templates sel);
                 inflight := []; stage := Seeds; thrown := None |} in
  NoDup (map snd (templates sel) ++ keys (matches sel))
  /\ (forall g, g ∈ map snd (templates sel) ++ keys (matches sel) ->
                exists l data, get g fs = Some l /\ sel_heap sel !! l = Some data)
  /\ (forall f g, f ∈ map snd (templates sel) ++ keys (matches sel) ->
                  g ∈ map snd (templates sel) ++ keys (matches sel) ->
                  new_key cfg g = f -> f = g)
  /\ (forall g l data,
        g ∈ map snd (templates sel) ++ keys (matches sel) -> get g fs = Some l ->
        sel_heap sel !! l = Some data ->
        exists str, rendering consolidate mpath cfg metadata data = Some (Rendered str))
  /\ begin mpath pmatch cfg fs h = each_complete (keys (matches sel)) init
  /\ tracked consolidate mpath cfg metadata fs (sel_heap sel) (map snd (templates sel))
       (keys (matches sel)) (each_complete (keys (matches sel)) init)
  /\ settled (each_complete (keys (matches sel)) init).
Proof.
  intros Hkeys Hinj Hne Hfree Hrenders sel init.
  destruct (select_charted mpath pmatch cfg fs h Hkeys Hinj Hne) as (Hrec & Hnd & _).
  pose proof (select_outcome mpath pmatch cfg fs h Hkeys Hinj Hne) as (_ & _ & _ & Hbad).
  fold sel in Hrec, Hnd, Hbad.
  assert (sel_thrown sel = None) as Hthrown.
  { destruct (sel_thrown sel) as [e|] eqn:Hthrown; [|done].
    destruct (Hbad e eq_refl) as (f & l & _ & Hl & Hpass & Hr).
    destruct (Hrenders f l Hl Hpass) as (o & str & Ho & Hc1 & Hc2 & Hrend).
    unfold renderable in Hr. rewrite Ho in Hr. unfold rendering in Hrend.
    destruct (getLayoutPath cfg (prop (stringified o) (to_string (layoutKey cfg))));
      [|done].
    by destruct (prop o "contents"). }
  assert (forall g, g ∈ map snd (templates sel) ++ keys (matches sel) ->
                    exists l data, get g fs = Some l /\ sel_heap sel !! l = Some data) as Hrec'.
  { intros g Hg. destruct (Hrec g Hg) as (l & o & Hl & _ & _ & Ho). by exists l, (stringified o). }
  assert (forall f g, f ∈ map snd (templates sel) ++ keys (matches sel) ->
                      g ∈ map snd (templates sel) ++ keys (matches sel) ->
                      new_key cfg g = f -> f = g) as Hfree'.
  { intros f g Hf Hg Heq.
    destruct (Hrec f Hf) as (l & o & Hl & Hp & _). destruct (Hrec g Hg) as (l' & o' & Hl' & Hp' & _).
    by apply (Hfree f g l l'). }
  destruct (begin_tracked consolidate mpath cfg metadata fs (sel_heap sel)
              (map snd (templates sel)) (keys (matches sel)))
    as [Hb Hb']; [assumption..|].
  split_and!; try assumption.
  - intros g l data Hg Hl Hdata.
    destruct (Hrec g Hg) as (l' & o & Hl' & Hpass & Ho & Ho').
    rewrite Hl in Hl'. injection Hl' as <-.
    destruct (Hrenders g l Hl Hpass) as (o' & str & Ho'' & _ & _ & Hrend).
    rewrite Ho in Ho''. injection Ho'' as <-.
    rewrite Ho' in Hdata. injection Hdata as <-. by exists str.
  - unfold begin. fold sel. by rewrite Hthrown.
Qed.

(** X18: when every file that passes the check has [contents] and is
    rendered without an error, the run in which the seeds are handed to the
    engine, their renders call back, the followers are handed to the engine
    and their renders call back ends with [done] called without an error.
    The keys of the collection are distinct and not empty, no two of them
    share a record, and with [rename] no selected file may be renamed to
    the key of another selected file. *)
Theorem run_finishes (cfg cfg' : config) (metadata : obj) (fs : list (string * nat))
    (h : gmap nat obj) :
  NoDup (keys fs) -> NoDup (map snd fs) ->
  Forall (fun f => f <> EmptyString) (keys fs) ->
  with_partials readPartials cfg = Ok cfg' ->
  (forall f g l l',
      get f fs = Some l -> get g fs = Some l' ->
      check pmatch h fs f (pattern cfg') (def cfg') (layoutKey cfg') = true ->
      check pmatch h fs g (pattern cfg') (def cfg') (layoutKey cfg') = true ->
      new_key cfg' g = f -> f = g) ->
  (forall f l,
      get f fs = Some l ->
      check pmatch h fs f (pattern cfg') (def cfg') (layoutKey cfg') = true ->
      exists o str,
        h !! l = Some o /\ prop o "contents" <> VUndef /\ prop o "contents" <> VNull
        /\ rendering consolidate mpath cfg' metadata (stringified o) = Some (Rendered str)) ->
  let sel := select mpath pmatch cfg' fs h in
  stage (run consolidate mpath pmatch readPartials cfg metadata fs h
           (batch (List.length (templates sel)) ++ batch (List.length (matches sel))))
  = Finished None.
Proof.
  intros Hkeys Hinj Hne Hwp Hfree Hrenders sel. unfold run. rewrite Hwp. fold sel.
  destruct (run_begins cfg' metadata fs h Hkeys Hinj Hne Hfree Hrenders)
    as (Hnd & Hrec & Hfree' & Hrenders' & -> & Hs0 & Hset0).
  fold sel in Hnd, Hrec, Hfree', Hrenders', Hs0, Hset0 |- *.
  set (seeds := map snd (templates sel)) in *.
  set (followers := keys (matches sel)) in *.
  set (init := {| files := fs; heap := sel_heap sel; queue := seeds; inflight := [];
                  stage := Seeds; thrown := None |}) in *.
  set (s0 := each_complete followers init) in *.
  set (go := step consolidate mpath cfg' metadata followers).
  assert (inflight s0 = []) as Hfl0.
  { unfold s0. by destruct (each_complete_frame followers init) as (_ & _ & -> & _). }
  assert (waiting followers s0 = seeds ++ followers) as Hw0.
  { unfold s0. rewrite waiting_each_complete; [done|done|by left]. }
  rewrite fold_left_app. set (s1 := fold_left go (batch (List.length (templates sel))) s0).
  assert (tracked consolidate mpath cfg' metadata fs (sel_heap sel) seeds followers s1
          /\ settled s1 /\ inflight s1 = [] /\ waiting followers s1 = followers)
    as (Hs1 & Hset1 & Hfl1 & Hw1).
  { destruct (templates sel) as [|t ts] eqn:Ht.
    - change s1 with s0. split_and!; [done..|]. rewrite Hw0. unfold seeds. done.
    - assert (s0 = init) as Hinit by (by unfold s0, each_complete, seeds).
      assert (List.length (t :: ts) = List.length (queue s0)) as Hlen.
      { rewrite Hinit. unfold init, seeds. cbn [queue]. by rewrite length_map. }
      unfold s1. rewrite Hlen.
      destruct (batch_succeeds consolidate mpath cfg' metadata fs (sel_heap sel) seeds
                  followers) with (s := s0) as (Hs1 & Hset1 & Hfl1 & Hw1); try assumption.
      split_and!; [done..|]. rewrite Hw0, Hinit in Hw1. cbn [queue] in Hw1. unfold go.
      by apply app_inv_head in Hw1. }
  assert (queue s1 = followers) as Hq1.
  { unfold waiting in Hw1. destruct (stage s1) eqn:Hst1; rewrite ?app_nil_r in Hw1; try done.
    assert (queue s1 = []) as Hnil.
    { apply (f_equal (@List.length _)) in Hw1. rewrite length_app in Hw1.
      destruct (queue s1); [done|]. cbn in Hw1. lia. }
    specialize (Hset1 Hnil Hfl1). congruence. }
  assert (List.length (matches sel) = List.length (queue s1)) as ->
    by (rewrite Hq1; unfold followers, keys; by rewrite length_map).
  destruct (batch_succeeds consolidate mpath cfg' metadata fs (sel_heap sel) seeds
              followers) with (s := s1) as (Hs2 & Hset2 & Hfl2 & Hw2); try assumption.
  fold go in Hs2, Hset2, Hfl2, Hw2.
  set (s2 := fold_left go (batch (List.length (queue s1))) s1) in *.
  apply Hset2; [|done].
  rewrite Hw1, Hq1 in Hw2. unfold waiting in Hw2.
  apply (f_equal (@List.length _)) in Hw2. rewrite !length_app in Hw2.
  destruct (queue s2); [done|]. cbn in Hw2. lia.
Qed.

(** X19: when every file that passes the check has [contents] and is
    rendered without an error, a run never gets stuck: whatever events have
    happened, some further events end it with [done] called without an
    error.  The keys of the collection are distinct and not empty, no two
    of them share a record, and with [rename] no selected file may be
    renamed to the key of another selected file. *)
Theorem run_can_finish (cfg cfg' : config) (metadata : obj) (fs : list (string * nat))
    (h : gmap nat obj) (pre : list event) :
  NoDup (keys fs) -> NoDup (map snd fs) ->
  Forall (fun f => f <> EmptyString) (keys fs) ->
  with_partials readPartials cfg = Ok cfg' ->
  (forall f g l l',
      get f fs = Some l -> get g fs = Some l' ->
      check pmatch h fs f (pattern cfg') (def cfg') (layoutKey cfg') = true ->
      check pmatch h fs g (pattern cfg') (def cfg') (layoutKey cfg') = true ->
      new_key cfg' g = f -> f = g) ->
  (forall f l,
      get f fs = Some l ->
      check pmatch h fs f (pattern cfg') (def cfg') (layoutKey cfg') = true ->
      exists o str,
        h !! l = Some o /\ prop o "contents" <> VUndef /\ prop o "contents" <> VNull
        /\ rendering consolidate mpath cfg' metadata (stringified o) = Some (Rendered str)) ->
  exists post,
    stage (run consolidate mpath pmatch readPartials cfg metadata fs h (pre ++ post))
    = Finished None.
Proof.
  intros Hkeys Hinj Hne Hwp Hfree Hrenders. unfold run. rewrite Hwp.
  destruct (run_begins cfg' metadata fs h Hkeys Hinj Hne Hfree Hrenders)
    as (Hnd & Hrec & Hfree' & Hrenders' & -> & Hs0 & Hset0).
  set (sel := select mpath pmatch cfg' fs h) in *.
  destruct (steps_succeed consolidate mpath cfg' metadata fs (sel_heap sel)
              (map snd (templates sel)) (keys (matches sel))) with (trace := pre)
              (s := each_complete (keys (matches sel))
                      {| files := fs; heap := sel_heap sel; queue := map snd (templates sel);
                         inflight := []; stage := Seeds; thrown := None |})
    as [Hs Hset]; try assumption.
  set (s := fold_left _ pre _) in *.
  destruct (can_finish consolidate mpath cfg' metadata fs (sel_heap sel)
              (map snd (templates sel)) (keys (matches sel)))
    with (n := (2 * List.length (waiting (keys (matches sel)) s)
                + List.length (inflight s))%nat) (s := s)
    as [post Hpost]; try assumption.
  - reflexivity.
  - exists post. rewrite fold_left_app. exact Hpost.
Qed.

End Endings.

(** ** What the plugin leaves alone *)

Lemma only_contents_refl (h : gmap nat obj) : only_contents h h.
Proof. intros l. by destruct (h !! l). Qed.

Lemma only_contents_trans (h1 h2 h3 : gmap nat obj) :
  only_contents h1 h2 -> only_contents h2 h3 -> only_contents h1 h3.
Proof.
  intros H12 H23 l. specialize (H12 l). specialize (H23 l).
  destruct (h1 !! l), (h2 !! l), (h3 !! l); try done.
  intros k Hk. by rewrite H23, H12.
Qed.

Lemma same_fields_set (v : value) (o : obj) : same_fields o (set "contents" v o).
Proof. intros k Hk. by rewrite get_set_ne. Qed.

Lemma only_contents_insert (h : gmap nat obj) (l : nat) (o : obj) (v : value) :
  h !! l = Some o -> only_contents h (<[l := set "contents" v o]> h).
Proof.
  intros Ho l'. destruct (decide (l = l')) as [<-|Hne].
  - rewrite lookup_insert_eq, Ho. apply same_fields_set.
  - rewrite lookup_insert_ne by done. by destruct (h !! l').
Qed.

Lemma only_contents_alter (h : gmap nat obj) (l : nat) (v : value) :
  only_contents h (alter (set "contents" v) l h).
Proof.
  intros l'. destruct (decide (l = l')) as [<-|Hne].
  - rewrite lookup_alter_eq. destruct (h !! l); [apply same_fields_set | done].
  - rewrite lookup_alter_ne by done. by destruct (h !! l').
Qed.

Section OnlyContents.

Variable consolidate : string -> option property.
Variable mpath : value -> string -> string.
Variable pmatch : string -> value -> bool.
Variable readPartials : string -> value -> value -> result value.

Lemma visit_only_contents (cfg : config) (fs : list (string * nat)) (h0 : gmap nat obj)
    (file : string) :
  match visit mpath pmatch cfg fs h0 file with
  | Skipped => True
  | Selected h' _ _ | Aborted h' _ => only_contents h0 h'
  end.
Proof.
  unfold visit. destruct (negb _); [done|].
  destruct (get file fs) as [l|]; [|apply only_contents_refl].
  destruct (h0 !! l) as [o|] eqn:Ho; [|apply only_contents_refl].
  destruct (prop o "contents"); try apply only_contents_refl.
  all: match goal with
       | |- context [getLayoutPath ?c ?v] => destruct (getLayoutPath c v)
       end.
  all: by apply only_contents_insert.
Qed.

Lemma select_only_contents (cfg : config) (fs : list (string * nat)) (h : gmap nat obj) :
  only_contents h (sel_heap (select mpath pmatch cfg fs h)).
Proof.
  unfold select.
  enough (forall todo acc,
            only_contents h (sel_heap acc) ->
            only_contents h (sel_heap (fold_left (select_file mpath pmatch cfg fs) todo acc)))
    as Hgen by (apply Hgen, only_contents_refl).
  induction todo as [|file todo IH]; intros acc Hacc; [done|].
  cbn [fold_left]. apply IH. unfold select_file.
  destruct (sel_thrown acc); [done|].
  pose proof (visit_only_contents cfg fs (sel_heap acc) file) as Hv.
  destruct (visit mpath pmatch cfg fs (sel_heap acc) file) as [|h' l t|h' e]; [done| |].
  - destruct (match get t (templates acc) with Some _ => _ | None => _ end);
      by apply (only_contents_trans h (sel_heap acc)).
  - by apply (only_contents_trans h (sel_heap acc)).
Qed.

Lemma step_only_contents (cfg : config) (metadata : obj) (followers : list string)
    (s : state) (ev : event) :
  only_contents (heap s) (heap (step consolidate mpath cfg metadata followers s ev)).
Proof.
  unfold step. destruct ev as [|i].
  - destruct (thrown s); [apply only_contents_refl|].
    destruct (queue s) as [|file rest]; [apply only_contents_refl|].
    match goal with
    | |- context [each_complete _ (convert _ _ _ _ ?s0 _)] =>
        destruct (each_complete_frame followers (convert consolidate mpath cfg metadata s0 file))
          as (_ & -> & _);
        destruct (convert_frame consolidate mpath cfg metadata s0 file) as (_ & -> & _)
    end.
    apply only_contents_refl.
  - destruct (inflight s !! i) as [p|]; [|apply only_contents_refl].
    unfold rendered. destruct (p_result p) as [[str|err]|]; [| |apply only_contents_refl].
    + match goal with
      | |- context [each_complete _ ?s0] =>
          destruct (each_complete_frame followers s0) as (_ & -> & _)
      end.
      apply only_contents_alter.
    + unfold each_failed.
      match goal with
      | |- context [callback _ ?s0 ?e] =>
          destruct (callback_frame followers s0 e) as (_ & -> & _)
      end.
      apply only_contents_refl.
Qed.

(** X20: the plugin writes [contents] and nothing else: at every point of
    every run the store holds a record where it held one and nowhere else,
    and every field of a record other than [contents] is as it was. *)
Theorem only_contents_written (cfg : config) (metadata : obj) (fs : list (string * nat))
    (h : gmap nat obj) (trace : list event) (l : nat) :
  match h !! l,
        heap (run consolidate mpath pmatch readPartials cfg metadata fs h trace) !! l with
  | Some o, Some o' => forall k, k <> "contents" -> get k o' = get k o
  | None, None => True
  | _, _ => False
  end.
Proof.
  enough (only_contents h
            (heap (run consolidate mpath pmatch readPartials cfg metadata fs h trace)))
    as Hrun by apply Hrun.
  unfold run. destruct (with_partials readPartials cfg) as [cfg'|e]; [|apply only_contents_refl].
  set (followers := keys (matches (select mpath pmatch cfg' fs h))).
  enough (forall s,
            only_contents h (heap s) ->
            only_contents h
              (heap (fold_left (step consolidate mpath cfg' metadata followers) trace s)))
    as Hgen.
  { apply Hgen. destruct (begin_frame mpath pmatch cfg' fs h) as (_ & _ & ->).
    apply select_only_contents. }
  induction trace as [|ev trace IH]; intros s Hs; [done|].
  cbn [fold_left]. apply IH. apply (only_contents_trans h (heap s)); [done|].
  apply step_only_contents.
Qed.

End OnlyContents.

(** ** The further properties on the small site *)

(** The files of a given collection, one by one. *)
Ltac each_file H :=
  apply get_Some_elem in H;
  repeat (apply elem_of_cons in H as [H|H]; [injection H as -> ->|]);
  [..|apply elem_of_nil in H; destruct H].

Lemma nodup_keys (l : list string) : bool_decide (NoDup l) = true -> NoDup l.
Proof. apply bool_decide_eq_true_1. Qed.

Lemma nodup_locs (l : list nat) : bool_decide (NoDup l) = true -> NoDup l.
Proof. apply bool_decide_eq_true_1. Qed.

Lemma nonempty_keys (l : list string) :
  forallb (fun f => negb (String.eqb f EmptyString)) l = true ->
  Forall (fun f => f <> EmptyString) l.
Proof.
  intros Hl. apply Forall_forall. intros f Hf%list_elem_of_In.
  apply (proj1 (forallb_forall _ _) Hl) in Hf. by apply negb_true_iff, String.eqb_neq in Hf.
Qed.

Lemma done_called_once_witness :
  stage (Site.run (defaults "handlebars") [Start; Start; Deliver 1%nat])
  = SeedsFailed
      (render_error (VStr "broken.html") "about.md" Site.enoent)
  /\ stage (Site.run (defaults "handlebars")
              ([Start; Start; Deliver 1%nat] ++ [Deliver 0%nat; Start; Deliver 0%nat]))
     = SeedsFailed
         (render_error (VStr "broken.html") "about.md" Site.enoent).
Proof.
  split; [by_compute|].
  apply (done_called_once Site.consolidate Site.mpath Site.pmatch Site.readPartials
           (defaults "handlebars") [] Site.files Site.heap [Start; Start; Deliver 1%nat]).
  by_compute.
Defined.

Lemma finished_run_is_over_witness :
  stage (run Site.consolidate Site.mpath Site.pmatch Site.readPartials
           (defaults "handlebars") [] Site.posts Site.heap (batch 1 ++ batch 1))
  = Finished None
  /\ run Site.consolidate Site.mpath Site.pmatch Site.readPartials
       (defaults "handlebars") [] Site.posts Site.heap
       ((batch 1 ++ batch 1) ++ [Deliver 0%nat; Start])
     = run Site.consolidate Site.mpath Site.pmatch Site.readPartials
         (defaults "handlebars") [] Site.posts Site.heap (batch 1 ++ batch 1).
Proof.
  split; [by_compute|].
  apply (finished_run_is_over Site.consolidate Site.mpath Site.pmatch Site.readPartials
           (defaults "handlebars") [] Site.posts Site.heap (batch 1 ++ batch 1)).
  by_compute.
Defined.

Lemma follower_failure_reported_witness :
  let s := run Site.engines Site.mpath Site.pmatch Site.readPartials
             (defaults "strict") [] Site.drafts Site.draft_heap
             [Start; Deliver 0%nat; Start] in
  stage s = Followers
  /\ inflight s !! 0%nat
     = Some {| p_data := 1%nat; p_file := "two.md";
               p_result := Some (Failed {| err_name := "Error";
                                           err_message := "title is not defined" |}) |}
  /\ stage (run Site.engines Site.mpath Site.pmatch Site.readPartials
              (defaults "strict") [] Site.drafts Site.draft_heap
              ([Start; Deliver 0%nat; Start] ++ [Deliver 0%nat]))
     = Finished
         (Some {| err_name := "Error";
                  err_message :=
                    "Error rendering template `post.html` for file `two.md`. "
                    +:+ "Error: title is not defined" |}).
Proof.
  intros s. split; [by_compute|]. split; [by_compute|].
  apply (follower_failure_reported Site.engines Site.mpath Site.pmatch Site.readPartials
           (defaults "strict") (defaults "strict") [] Site.drafts Site.draft_heap
           [Start; Deliver 0%nat; Start] [] 0%nat
           {| p_data := 1%nat; p_file := "two.md";
              p_result := Some (Failed {| err_name := "Error";
                                          err_message := "title is not defined" |}) |}
           {| err_name := "Error"; err_message := "title is not defined" |});
    by_compute.
Defined.

Lemma nothing_selected_witness :
  run Site.consolidate Site.mpath Site.pmatch Site.readPartials
    (defaults "handlebars") [] [("site.css", 3%nat)] Site.heap [Start; Deliver 0%nat]
  = {| files := [("site.css", 3%nat)]; heap := Site.heap; queue := []; inflight := [];
       stage := Finished None; thrown := None |}.
Proof.
  apply (nothing_selected Site.consolidate Site.mpath Site.pmatch Site.readPartials
           (defaults "handlebars") (defaults "handlebars")); [reflexivity|].
  intros f ->%list_elem_of_singleton. reflexivity.
Defined.

Lemma selection_failure_stops_run_witness :
  let fs := [("a.md", 0%nat); ("b.md", 1%nat)] in
  let h : gmap nat obj :=
    {[ 0%nat := [("layout", VStr "post.html"); ("contents", VBuf "one")];
       1%nat := [("layout", VStr "post.html")] ]} in
  let s := run Site.consolidate Site.mpath Site.pmatch Site.readPartials
             (defaults "handlebars") [] fs h [Start; Deliver 0%nat] in
  renderable (defaults "handlebars") (h !! 1%nat) = false
  /\ (exists msg, thrown s = Some (TypeError msg))
  /\ stage s = Seeds /\ queue s = [] /\ inflight s = [] /\ files s = fs.
Proof.
  intros fs h s. split; [by_compute|].
  apply (selection_failure_stops_run Site.consolidate Site.mpath Site.pmatch
           Site.readPartials (defaults "handlebars") (defaults "handlebars") [] fs h
           [Start; Deliver 0%nat] "b.md" 1%nat);
    try by_compute.
  - by apply nodup_keys.
  - by apply nodup_locs.
  - by apply nonempty_keys.
Defined.

Lemma selection_outcome_witness :
  let sel := select Site.mpath Site.pmatch (defaults "handlebars") Site.files Site.heap in
  sel_thrown sel = None
  /\ chosen sel "b.md"
  /\ ~ chosen sel "site.css".
Proof.
  intros sel.
  destruct (selection_outcome Site.mpath Site.pmatch (defaults "handlebars") Site.files
              Site.heap) as [_ Hsel];
    [by apply nodup_keys | by apply nodup_locs | by apply nonempty_keys |].
  fold sel in Hsel. assert (sel_thrown sel = None) as Hthrown by by_compute.
  split; [done|]. split.
  - destruct (Hsel Hthrown "b.md" 1%nat eq_refl) as ([_ Hin] & _). by apply Hin.
  - destruct (Hsel Hthrown "site.css" 3%nat eq_refl) as ([Hout _] & _).
    intros Hc. by apply Hout in Hc.
Defined.

Lemma finished_run_rendered_witness :
  let s := run Site.consolidate Site.mpath Site.pmatch Site.readPartials
             (defaults "handlebars") [] Site.posts Site.heap (batch 1 ++ batch 1) in
  stage s = Finished None
  /\ exists o str,
      Site.heap !! 1%nat = Some o
      /\ rendering Site.consolidate Site.mpath (defaults "handlebars") [] (stringified o)
         = Some (Rendered str)
      /\ heap s !! 1%nat = Some (set "contents" (VBuf str) o).
Proof.
  intros s. assert (stage s = Finished None) as Hfin by by_compute.
  split; [done|].
  apply (finished_run_rendered Site.consolidate Site.mpath Site.pmatch Site.readPartials
           (defaults "handlebars") (defaults "handlebars") [] Site.posts Site.heap
           (batch 1 ++ batch 1)) with (f := "b.md"); try by_compute.
  - by apply nodup_keys.
  - by apply nodup_locs.
  - by apply nonempty_keys.
  - intros f g l l' _ _ _ _ Heq. by rewrite <- Heq.
Defined.


Lemma followers_after_seeds_witness :
  let s := run Site.consolidate Site.mpath Site.pmatch Site.readPartials
             (defaults "handlebars") [] Site.posts Site.heap [Start; Deliver 0%nat] in
  thrown s = None /\ stage s = Followers /\ queue s = ["b.md"]
  /\ exists o str,
      Site.heap !! 0%nat = Some o
      /\ rendering Site.consolidate Site.mpath (defaults "handlebars") [] (stringified o)
         = Some (Rendered str)
      /\ heap s !! 0%nat = Some (set "contents" (VBuf str) o).
Proof.
  intros s. split; [by_compute|]. split; [by_compute|]. split; [by_compute|].
  destruct (followers_after_seeds Site.consolidate Site.mpath Site.pmatch Site.readPartials
              (defaults "handlebars") (defaults "handlebars") [] Site.posts Site.heap
              [Start; Deliver 0%nat]) as [_ Hsecond].
  - by apply nodup_keys.
  - by apply nodup_locs.
  - by apply nonempty_keys.
  - reflexivity.
  - intros f g l l' _ _ _ _ Heq. by rewrite <- Heq.
  - by_compute.
  - destruct Hsecond as (_ & _ & Hseeds); [by_compute|].
    apply (Hseeds "a.md" 0%nat); [|reflexivity]. vm_compute. apply list_elem_of_here.
Defined.

Lemma run_finishes_witness :
  stage (run Site.consolidate Site.mpath Site.pmatch Site.readPartials
           (defaults "handlebars") [] Site.posts Site.heap
           ([Start; Deliver 0%nat] ++ [Start; Deliver 0%nat]))
  = Finished None.
Proof.
  apply (run_finishes Site.consolidate Site.mpath Site.pmatch Site.readPartials
           (defaults "handlebars") (defaults "handlebars") [] Site.posts Site.heap).
  - by apply nodup_keys.
  - by apply nodup_locs.
  - by apply nonempty_keys.
  - reflexivity.
  - intros f g l l' _ _ _ _ Heq. by rewrite <- Heq.
  - intros f l Hf Hcf. each_file Hf; try (vm_compute in Hcf; discriminate Hcf);
      eexists; eexists; (split; [reflexivity|]); split_and!;
      first [discriminate | vm_compute; reflexivity].
Defined.

Lemma run_can_finish_witness :
  exists post,
    stage (run Site.consolidate Site.mpath Site.pmatch Site.readPartials
             (defaults "handlebars") [] Site.posts Site.heap ([Start] ++ post))
    = Finished None.
Proof.
  apply (run_can_finish Site.consolidate Site.mpath Site.pmatch Site.readPartials
           (defaults "handlebars") (defaults "handlebars") [] Site.posts Site.heap [Start]).
  - by apply nodup_keys.
  - by apply nodup_locs.
  - by apply nonempty_keys.
  - reflexivity.
  - intros f g l l' _ _ _ _ Heq. by rewrite <- Heq.
  - intros f l Hf Hcf. each_file Hf; try (vm_compute in Hcf; discriminate Hcf);
      eexists; eexists; (split; [reflexivity|]); split_and!;
      first [discriminate | vm_compute; reflexivity].
Defined.
